(** * Binning, statistics and selection utilities of the TNG-Cluster toolkit

    A shallow embedding of [src/library/processing/statistics.py] and of the
    [select_if_in] routine exercised by
    [src/library/processing/tests/test_selection.py].

    Numbers.  A finite float64 is idealised as an exact rational [Q]: no
    rounding, no overflow.  Where the source can produce or consume a value
    that is not a finite number (the [nan] of an empty bin, the result of a
    division by zero) the type is [fl := option Q] and [None] stands for it.
    Where the last bit of a result matters, the lines of the source are also
    given over the binary64 floats of the machine, in [Float64].

    Limits.  Statements over [Q] are statements of exact arithmetic: a
    float64 result agrees with them up to rounding, and equalities such as
    "sums to one" are exact only there.  An infinity is not told apart from
    [nan]: the arrays hold finite numbers and [nan].  Weights and values are
    floats, not integer arrays.

    Arrays.  A numpy array is its shape together with its elements in
    row-major order.

    Effects.  Exceptions are the [Raise] case of [outcome]; the records that
    the [logging] module receives are threaded through the monad [M]. *)

From Stdlib Require Import ZArith QArith Qabs Qround Lia Lqa String.
From Stdlib Require Floats Uint63.
From stdpp Require Import base option list sorting pretty.

(* ===================================================================== *)
(** * Python: exceptions and logging *)
(* ===================================================================== *)

Module Py.

Inductive exn : Type :=
| ValueError
| IndexError
| TypeError
| AxisError
| AttributeError
| RuntimeError (msg : string).

Inductive outcome (A : Type) : Type :=
| Ok (a : A)
| Raise (e : exn).
Arguments Ok {A} a.
Arguments Raise {A} e.

#[export] Instance outcome_ret : MRet outcome := @Ok.
#[export] Instance outcome_bind : MBind outcome :=
  λ A B f m, match m with Ok a => f a | Raise e => Raise e end.
#[export] Instance outcome_fmap : FMap outcome :=
  λ A B f m, match m with Ok a => Ok (f a) | Raise e => Raise e end.

Inductive level : Type := DEBUG | INFO | WARNING | ERROR.

Record log_record : Type := LogRecord { levelname : level; message : string }.

(** A computation that may log and may raise.  The log only grows. *)
Definition M (A : Type) : Type := list log_record → outcome A * list log_record.

#[export] Instance M_ret : MRet M := λ A a l, (Ok a, l).
#[export] Instance M_bind : MBind M :=
  λ A B f m l, match m l with
               | (Ok a, l') => f a l'
               | (Raise e, l') => (Raise e, l')
               end.

Definition lift {A} (o : outcome A) : M A := λ l, (o, l).
Definition raise {A} (e : exn) : M A := lift (Raise e).

Definition logging_log (lv : level) (msg : string) : M unit :=
  λ l, (Ok tt, l ++ [LogRecord lv msg]).
Definition logging_error := logging_log ERROR.
Definition logging_info := logging_log INFO.
Definition logging_debug := logging_log DEBUG.

(** [range(n)] for a Python int [n]: empty when [n <= 0]. *)
Definition range (n : Z) : list Z := map Z.of_nat (seq 0 (Z.to_nat n)).

(** [str(t)] of a tuple of ints, as an f-string prints a shape. *)
Fixpoint str_items (t : list nat) : string :=
  match t with
  | [] => ""
  | [n] => pretty n
  | n :: t' => pretty n +:+ ", " +:+ str_items t'
  end.
Definition str_tuple (t : list nat) : string :=
  match t with
  | [n] => "(" +:+ pretty n +:+ ",)"
  | _ => "(" +:+ str_items t +:+ ")"
  end.

(** The exceptions of the interpreter itself, next to those of [exn]. *)
Inductive raised : Type :=
| Exn (e : exn)
| ZeroDivisionError.

Inductive result (A : Type) : Type :=
| Returns (a : A)
| Raises (e : raised).
Arguments Returns {A} a.
Arguments Raises {A} e.

(** What [warnings.warn] issues. *)
Inductive warning : Type := DeprecationWarning (message : string).

End Py.
Import Py.

(* ===================================================================== *)
(** * numpy: the array model and the library functions the source calls *)
(* ===================================================================== *)

Module Np.

(** A float that may be [nan] (or otherwise not finite). *)
Definition fl : Type := option Q.
Definition NaN : fl := None.

Record ndarray (A : Type) : Type := NDArray { shape : list nat; data : list A }.
Arguments NDArray {A} shape data.
Arguments shape {A} _.
Arguments data {A} _.

Definition ndim {A} (a : ndarray A) : nat := length (shape a).
Definition size_of (sh : list nat) : nat := foldr Nat.mul 1%nat sh.

(** The invariant numpy maintains: as many elements as the shape says. *)
Definition wf {A} (a : ndarray A) : Prop := length (data a) = size_of (shape a).

(** [np.array(l)] of a Python list of scalars. *)
Definition array1 {A} (l : list A) : ndarray A := NDArray [length l] l.

(** [a[i, j]] of a two-dimensional array. *)
Definition getitem2 {A} (a : ndarray A) (i j : nat) : option A :=
  match shape a with
  | [r; c] => if (i <? r)%nat && (j <? c)%nat then data a !! (i * c + j)%nat
              else None
  | _ => None
  end.

(** Row [i] along axis 0: the [i]-th block of [size_of (shape a)[1:]] elements. *)
Definition row {A} (a : ndarray A) (i : nat) : list A :=
  let w := size_of (tail (shape a)) in take w (drop (i * w) (data a)).
Definition rows {A} (a : ndarray A) : list (list A) :=
  map (row a) (seq 0 (hd 0%nat (shape a))).

(** [np.where(a == k, 1, 0)]. *)
Definition where_eq (a : ndarray Z) (k : Z) : ndarray Z :=
  NDArray (shape a) (map (λ z, if (z =? k)%Z then 1%Z else 0%Z) (data a)).

(** [np.max(a)] of an integer array; a zero-size array has no maximum. *)
Definition amax (a : ndarray Z) : outcome Z :=
  match data a with
  | [] => Raise ValueError
  | z :: l => Ok (foldl Z.max z l)
  end.

(** [np.compress] on a sequence: the items at the non-zero positions of the
    condition.  A condition shorter than the sequence truncates it; a
    non-zero entry beyond the end of the sequence is an [IndexError]. *)
Fixpoint compress_items {A} (cond : list Z) (l : list A) : outcome (list A) :=
  match cond with
  | [] => Ok []
  | c :: cond' =>
      match l with
      | [] => if (c =? 0)%Z then compress_items cond' [] else Raise IndexError
      | x :: l' =>
          r ← compress_items cond' l';
          Ok (if (c =? 0)%Z then r else x :: r)
      end
  end.

(** [a.compress(cond)] with [axis=None]: works on the flattened array. *)
Definition compress {A} (cond : ndarray Z) (a : ndarray A) : outcome (ndarray A) :=
  if negb (ndim cond =? 1)%nat then Raise ValueError
  else r ← compress_items (data cond) (data a); Ok (array1 r).

(** [a.compress(cond, axis=0)]: selects whole rows.  An array without
    dimensions is taken as the one-dimensional array of its element. *)
Definition compress_axis0 {A} (cond : ndarray Z) (a : ndarray A)
  : outcome (ndarray A) :=
  if negb (ndim cond =? 1)%nat then Raise ValueError
  else match shape a with
       | [] => r ← compress_items (data cond) (data a); Ok (array1 r)
       | _ :: inner =>
           r ← compress_items (data cond) (rows a);
           Ok (NDArray (length r :: inner) (concat r))
       end.

(** [m.compressed()] of a masked array without masked entries: all the data
    as a one-dimensional array. *)
Definition compressed {A} (a : ndarray A) : ndarray A := array1 (data a).

(** [a.reshape(-1, *inner)]. *)
Definition reshape_rows {A} (a : ndarray A) (inner : list nat)
  : outcome (ndarray A) :=
  let known := size_of inner in
  let total := length (data a) in
  if (known =? 0)%nat || negb (total mod known =? 0)%nat then Raise ValueError
  else Ok (NDArray ((total / known)%nat :: inner) (data a)).

(** [a.reshape(sh)] to a fully given shape. *)
Definition reshape {A} (a : ndarray A) (sh : list nat) : outcome (ndarray A) :=
  if (size_of sh =? length (data a))%nat then Ok (NDArray sh (data a))
  else Raise ValueError.

(** ** Reductions *)

Definition np_sum (l : list Q) : Q := foldr Qplus 0%Q l.

Definition of_nat (n : nat) : Q := inject_Z (Z.of_nat n).

(** [np.mean]: [nan] on an empty slice. *)
Definition mean (l : list Q) : fl :=
  match l with
  | [] => NaN
  | _ => Some (np_sum l / of_nat (length l))%Q
  end.

(** [np.std] with the default [ddof=0], over a given square root. *)
Definition std (sqrt : Q → Q) (l : list Q) : fl :=
  match l with
  | [] => NaN
  | _ => let n := of_nat (length l) in
         let m := (np_sum l / n)%Q in
         Some (sqrt (np_sum (map (λ v, (v - m) * (v - m))%Q l) / n)%Q)
  end.

Fixpoint insert_sorted (v : Q) (l : list Q) : list Q :=
  match l with
  | [] => [v]
  | w :: l' => if Qle_bool v w then v :: l else w :: insert_sorted v l'
  end.
Definition sort (l : list Q) : list Q := foldr insert_sorted [] l.

(** [np.median]: the middle element of the sorted data, or the mean of the
    two middle elements. *)
Definition median (l : list Q) : fl :=
  let s := sort l in
  let n := length s in
  match n with
  | O => NaN
  | _ => if Nat.even n
         then a ← s !! (n / 2 - 1)%nat; b ← s !! (n / 2)%nat;
              Some ((a + b) / 2)%Q
         else s !! (n / 2)%nat
  end.

(** [np.percentile(l, q)] with the default linear interpolation: the virtual
    index is [(n - 1) * q / 100]. *)
Definition percentile (l : list Q) (q : Q) : fl :=
  let s := sort l in
  let n := length s in
  match n with
  | O => NaN
  | _ => let v := (of_nat (n - 1) * (q / 100))%Q in
         let lo := Z.to_nat (Qfloor v) in
         let hi := Nat.min (lo + 1) (n - 1) in
         let g := (v - of_nat lo)%Q in
         a ← s !! lo; b ← s !! hi; Some (a + (b - a) * g)%Q
  end.

(** The [nan*] variants drop the [nan] entries first. *)
Definition finite (l : list fl) : list Q := omap id l.
Definition nanmean (l : list fl) : fl := mean (finite l).
Definition nanstd (sqrt : Q → Q) (l : list fl) : fl := std sqrt (finite l).
Definition nanmedian (l : list fl) : fl := median (finite l).
Definition nanpercentile (l : list fl) (q : Q) : fl := percentile (finite l) q.

(** Elementwise float operations; [nan] propagates. *)
Definition fsub (a b : fl) : fl := x ← a; y ← b; Some (x - y)%Q.
Definition fabs (a : fl) : fl := Qabs <$> a.
Definition fadd (a b : fl) : fl := x ← a; y ← b; Some (x + y)%Q.
(** A division by zero leaves the finite numbers. *)
Definition fdiv (a b : fl) : fl :=
  x ← a; y ← b; if Qeq_bool y 0 then NaN else Some (x / y)%Q.
Definition fmax (a b : fl) : fl :=
  x ← a; y ← b; Some (if Qle_bool x y then y else x).

Definition fsum (l : list fl) : fl := foldr fadd (Some 0%Q) l.

(** [np.max] of a non-empty sequence of floats. *)
Definition fmaximum (l : list fl) : outcome fl :=
  match l with
  | [] => Raise ValueError
  | v :: l' => Ok (foldl fmax v l')
  end.

Definition qmin (v : Q) (l : list Q) : Q :=
  foldl (λ m w, if Qle_bool m w then m else w) v l.
Definition qmax (v : Q) (l : list Q) : Q :=
  foldl (λ m w, if Qle_bool m w then w else m) v l.

(** [np.pi]: the double nearest to pi is this rational. *)
Definition pi : Q := 884279719003555 # 281474976710656.

(** ** Histograms *)

(** [np.linspace(start, stop, num)]. *)
Definition linspace (start stop : Q) (num : nat) : list Q :=
  match num with
  | O => []
  | S O => [start]
  | S d => map (λ i, start + of_nat i * ((stop - start) / of_nat d))%Q
               (seq 0 num)
  end.

(** The bin of [v] among the edges [e]: bin [i] is the half-open interval
    from [e !! i] to [e !! (i+1)], only the last bin contains its right
    edge.  [None] for a value outside of all bins. *)
Fixpoint bin_of (e : list Q) (v : Q) : option nat :=
  match e with
  | lo :: e' =>
      match e' with
      | [] => None
      | hi :: rest =>
          if Qle_bool lo v
             && (negb (Qle_bool hi v)
                 || match rest with [] => Qeq_bool v hi | _ => false end)
          then Some 0%nat
          else S <$> bin_of e' v
      end
  | [] => None
  end.

Fixpoint increasing (strict : bool) (e : list Q) : bool :=
  match e with
  | lo :: e' =>
      match e' with
      | [] => true
      | hi :: _ =>
          (if strict then negb (Qle_bool hi lo) else Qle_bool lo hi)
          && increasing strict e'
      end
  | [] => true
  end.

Inductive bins : Type :=
| BinsInt (n : Z)
| BinsEdges (e : list Q).

(** The data range numpy and scipy use for a number of bins: widened by one
    half on each side when it is a single point. *)
Definition widen (r : Q * Q) : Q * Q :=
  if Qeq_bool (fst r) (snd r) then (fst r - (1 # 2), snd r + (1 # 2))%Q else r.

(** [np.histogram(a, bins=bins, weights=weights)]. *)
Definition histogram (a : list Q) (b : bins) (weights : list Q)
  : outcome (list Q * list Q) :=
  if negb (length weights =? length a)%nat then Raise ValueError
  else
    edges ← match b with
            | BinsInt n =>
                if (n <? 1)%Z then Raise ValueError
                else
                  let '(first, last) :=
                    widen match a with
                          | [] => (0, 1)%Q
                          | v :: a' => (qmin v a', qmax v a')
                          end in
                  Ok (linspace first last (Z.to_nat n + 1))
            | BinsEdges e =>
                if increasing false e then Ok e else Raise ValueError
            end;
    Ok (map (λ i, np_sum (omap (λ '(v, w),
                                  if bool_decide (bin_of edges v = Some i)
                                  then Some w else None)
                               (zip a weights)))
            (seq 0 (length edges - 1)),
        edges).

(** [a / b] for one-dimensional arrays, with numpy's broadcasting. *)
Definition divide1 (a b : list Q) : outcome (list fl) :=
  let div x y := fdiv (Some x) (Some y) in
  if (length a =? length b)%nat then Ok (zip_with div a b)
  else match a, b with
       | [x], _ => Ok (map (div x) b)
       | _, [y] => Ok (map (λ x, div x y) a)
       | _, _ => Raise ValueError
       end.

(** ** [scipy.stats.binned_statistic_2d] *)

Inductive statistic : Type :=
| StatMean | StatStd | StatMedian | StatCount | StatSum | StatMin | StatMax.

#[export] Instance statistic_eq_dec : EqDecision statistic.
Proof. solve_decision. Defined.

Definition known_stats (name : string) : option statistic :=
  if String.eqb name "mean" then Some StatMean
  else if String.eqb name "std" then Some StatStd
  else if String.eqb name "median" then Some StatMedian
  else if String.eqb name "count" then Some StatCount
  else if String.eqb name "sum" then Some StatSum
  else if String.eqb name "min" then Some StatMin
  else if String.eqb name "max" then Some StatMax
  else None.

(** The statistic of the values of one bin; the empty bin gives 0 for a
    count or a sum and [nan] for the others. *)
Definition bin_statistic (sqrt : Q → Q) (st : statistic) (l : list Q) : fl :=
  match st with
  | StatMean => mean l
  | StatStd => std sqrt l
  | StatMedian => median l
  | StatCount => Some (of_nat (length l))
  | StatSum => Some (np_sum l)
  | StatMin => match l with [] => NaN | v :: l' => Some (qmin v l') end
  | StatMax => match l with [] => NaN | v :: l' => Some (qmax v l') end
  end.

(** The four forms of the [bins] argument. *)
Inductive bins2d : Type :=
| BinsN (n : Z)
| BinsNxNy (nx ny : Z)
| BinsArray (e : list Q)
| BinsArrays (ex ey : list Q).

(** The edges along one axis.  scipy settles the range first, whatever
    the form of the bins: a given range must not run backwards, and without
    one the minimum and the maximum of the sample are taken, which an empty
    sample does not have.  It needs at least one bin and strictly
    increasing edges. *)
Definition axis_edges (b : bins) (sample : list Q) (range : option (Q * Q))
  : outcome (list Q) :=
  r ← match range with
      | Some r => if Qle_bool (fst r) (snd r) then Ok r else Raise ValueError
      | None => match sample with
                | [] => Raise ValueError
                | v :: l => Ok (qmin v l, qmax v l)
                end
      end;
  edges ← match b with
          | BinsInt n =>
              let '(smin, smax) := widen r in
              if (n <? 0)%Z then Raise ValueError
              else Ok (linspace smin smax (Z.to_nat n + 1))
          | BinsEdges e => Ok e
          end;
  if (2 <=? length edges)%nat && increasing true edges then Ok edges
  else Raise ValueError.

(** [int(-np.log10(w))] for a width [w > 0]: the integer part of the
    decimal logarithm of [1 / w], towards zero. *)
Fixpoint log10_floor (fuel : nat) (x : Q) : Z :=
  match fuel with
  | O => 0
  | S fuel' =>
      if Qle_bool 10 x then (1 + log10_floor fuel' (x / 10))%Z else 0%Z
  end.
Definition decimals (w : Q) : Z :=
  if Qle_bool w 1
  then log10_floor (Z.to_nat (Z.log2 (Zpos (Qden w))) + 1) (/ w)
  else (- log10_floor (Z.to_nat (Z.log2 (Qnum w)) + 1) w)%Z.

(** [np.rint]: to the nearest integer, a tie to the even one. *)
Definition rint (q : Q) : Z :=
  let f := Qfloor q in
  match (q - inject_Z f ?= 1 # 2)%Q with
  | Lt => f
  | Gt => (f + 1)%Z
  | Eq => if Z.even f then f else (f + 1)%Z
  end.

(** [np.around(v, d)]. *)
Definition around (v : Q) (d : Z) : Q :=
  if (0 <=? d)%Z then (inject_Z (rint (v * 10 ^ d)) / 10 ^ d)%Q
  else (inject_Z (rint (v / 10 ^ (- d))) * 10 ^ (- d))%Q.

(** The bin that scipy gives [v]: [np.digitize] leaves a value at or above
    the last edge outside, and scipy moves it into the last bin when it
    agrees with the last edge after rounding to
    [int(-log10(smallest width)) + 6] decimals. *)
Definition scipy_bin_of (e : list Q) (v : Q) : option nat :=
  let widths := zip_with Qminus (tail e) (removelast e) in
  match last e, widths with
  | Some top, w :: ws =>
      let decimal := (decimals (qmin w ws) + 6)%Z in
      if Qle_bool top v && Qeq_bool (around v decimal) (around top decimal)
      then Some (length e - 2)%nat
      else bin_of e v
  | _, _ => bin_of e v
  end.

(** An array of two numbers given as [bins] is read by scipy as the pair of
    bin counts, an array of one number is refused. *)
Definition split_bins (b : bins2d) : outcome (bins * bins) :=
  match b with
  | BinsN n => Ok (BinsInt n, BinsInt n)
  | BinsNxNy nx ny => Ok (BinsInt nx, BinsInt ny)
  | BinsArray [_] => Raise AttributeError
  | BinsArray [nx; ny] => Ok (BinsInt (Qfloor nx), BinsInt (Qfloor ny))
  | BinsArray e => Ok (BinsEdges e, BinsEdges e)
  | BinsArrays ex ey => Ok (BinsEdges ex, BinsEdges ey)
  end.

(** The histogram has one row per x bin and one entry per y bin in it. *)
Definition binned_statistic_2d (sqrt : Q → Q) (x y values : list Q)
  (stat : string) (b : bins2d)
  (range : option ((Q * Q) * (Q * Q)))
  : outcome (list (list fl) * list Q * list Q) :=
  match known_stats stat with
  | None => Raise ValueError
  | Some st =>
      if negb (length x =? length y)%nat then Raise ValueError
      else if negb (bool_decide (st = StatCount))
              && negb (length values =? length x)%nat
      then Raise AttributeError
      else
        '(xbins, ybins) ← split_bins b;
        xedges ← axis_edges xbins x (fst <$> range);
        yedges ← axis_edges ybins y (snd <$> range);
        let values := if bool_decide (st = StatCount)
                      then map (λ _, 1%Q) x else values in
        let in_bin i j :=
          omap (λ '(xv, yv, v),
                  if bool_decide (scipy_bin_of xedges xv = Some i)
                     && bool_decide (scipy_bin_of yedges yv = Some j)
                  then Some v else None)
               (zip (zip x y) values) in
        Ok (map (λ i, map (λ j, bin_statistic sqrt st (in_bin i j))
                          (seq 0 (length yedges - 1)))
                (seq 0 (length xedges - 1)),
            xedges, yedges)
  end.

(** ** [np.digitize] *)

(** 1 for edges that never decrease, -1 for edges that never increase (and
    are not all equal), 0 otherwise. *)
Definition monotonicity (bins : list Q) : Z :=
  if increasing false bins then 1%Z
  else if increasing false (reverse bins) then (-1)%Z
  else 0%Z.

(** [np.searchsorted(bins, v, side="right")] for sorted [bins]: the number
    of edges that are not above [v]; [nan] sorts after every number. *)
Definition searchsorted_right (bins : list Q) (v : fl) : nat :=
  match v with
  | Some v => length (filter (λ b, Qle_bool b v = true) bins)
  | None => length bins
  end.

(** [np.digitize(x, bins)] with the default [right=False]. *)
Definition digitize (x : ndarray fl) (bins : list Q) : outcome (ndarray Z) :=
  let mono := monotonicity bins in
  if (mono =? 0)%Z then Raise ValueError
  else if (mono =? -1)%Z then
    Ok (NDArray (shape x)
          ((λ v, Z.of_nat (length bins)
                 - Z.of_nat (searchsorted_right (reverse bins) v))%Z
           <$> data x))
  else
    Ok (NDArray (shape x)
          ((λ v, Z.of_nat (searchsorted_right bins v)) <$> data x)).

Definition fmul (a b : fl) : fl := x ← a; y ← b; Some (x * y)%Q.

End Np.
Import Np.

(* ===================================================================== *)
(** * numpy over binary64 floats *)
(* ===================================================================== *)

Module Float64.

Definition float64 : Set := PrimFloat.float.

(** The double of an integer below [2^63]. *)
Definition of_Z (z : Z) : float64 :=
  if (z <? 0)%Z then PrimFloat.opp (PrimFloat.of_uint63 (Uint63.of_Z (- z)))
  else PrimFloat.of_uint63 (Uint63.of_Z z).

(** The double nearest to a rational whose numerator and denominator are
    below [2^53]: the correctly rounded quotient of two exact doubles. *)
Definition of_Q (q : Q) : float64 :=
  PrimFloat.div (of_Z (Qnum q)) (of_Z (Zpos (Qden q))).

(** The rational that a finite double is. *)
Definition value (f : float64) : option Q :=
  match FloatOps.Prim2SF f with
  | SpecFloat.S754_zero _ => Some 0%Q
  | SpecFloat.S754_finite s m e =>
      Some ((if s then -1 else 1) * inject_Z (Zpos m) * Qpower 2 e)%Q
  | _ => None
  end.

(** The unrolled loop of numpy's pairwise summation: eight running sums
    [r], each taking every eighth element. *)
Fixpoint add_blocks (k : nat) (r a : list float64) : list float64 :=
  match k with
  | O => r
  | S k' => add_blocks k' (zip_with PrimFloat.add r (take 8 a)) (drop 8 a)
  end.

(** [pairwise_sum] of numpy's [loops_utils.h]: a plain loop below eight
    elements, eight running sums up to 128 elements, two halves above. *)
Fixpoint pairwise_sum (fuel : nat) (a : list float64) : float64 :=
  let n := length a in
  if (n <? 8)%nat then foldl PrimFloat.add (of_Z 0) a
  else if (n <=? 128)%nat then
    let r := add_blocks (n / 8 - 1) (take 8 a) (drop 8 a) in
    let at_ i := default (of_Z 0) (r !! i) in
    let res :=
      PrimFloat.add
        (PrimFloat.add (PrimFloat.add (at_ 0%nat) (at_ 1%nat))
                       (PrimFloat.add (at_ 2%nat) (at_ 3%nat)))
        (PrimFloat.add (PrimFloat.add (at_ 4%nat) (at_ 5%nat))
                       (PrimFloat.add (at_ 6%nat) (at_ 7%nat))) in
    foldl PrimFloat.add res (drop (8 * (n / 8)) a)
  else
    match fuel with
    | O => of_Z 0
    | S fuel' =>
        let n2 := (n / 2 - (n / 2) mod 8)%nat in
        PrimFloat.add (pairwise_sum fuel' (take n2 a))
                      (pairwise_sum fuel' (drop n2 a))
    end.

(** [np.sum] of a contiguous one-dimensional array of doubles: the
    reduction starts from the identity 0. *)
Definition np_sum (a : list float64) : float64 :=
  PrimFloat.add (of_Z 0) (pairwise_sum (length a) a).

End Float64.

(* ===================================================================== *)
(** * library/processing/statistics.py *)
(* ===================================================================== *)

Module Statistics.

(** A generator consumed by a [for] loop: the list of what it yields, or the
    exception that ends the iteration. *)
Definition bin_quantity {A} (quantity : ndarray A) (bin_mask : ndarray Z)
  (n_bins : Z) : outcome (list (ndarray A)) :=
  n_bins ← (if (n_bins =? -1)%Z then amax bin_mask else Ok n_bins);
  mapM (λ bin_num,
          let mask := where_eq bin_mask (bin_num + 1) in
          masked_indices ← compress mask quantity;
          let masked_indices := compressed masked_indices in
          Ok masked_indices)
       (range n_bins).

(** What [mask_quantity] returns: a masked array when [compress=False], a
    standard array otherwise. *)
Inductive masked_or_plain (A : Type) : Type :=
| MaskedArray (a : ndarray A)
| PlainArray (a : ndarray A).
Arguments MaskedArray {A} a.
Arguments PlainArray {A} a.

Definition mask_quantity {A} (quantity : ndarray A) (mask : ndarray Z)
  (index : Z) (compress : bool) : outcome (masked_or_plain A) :=
  let mask := where_eq mask index in
  masked_indices ← compress_axis0 mask quantity;
  if negb compress then Ok (MaskedArray masked_indices)
  else
    let masked_indices := compressed masked_indices in
    if (1 <? length (shape quantity))%nat
    then r ← reshape_rows masked_indices (tail (shape quantity));
         Ok (PlainArray r)
    else Ok (PlainArray masked_indices).

(** A loop whose body logs: the body threads the loop's variables. *)
Fixpoint for_ {S} (l : list Z) (body : Z → S → M S) (s : S) : M S :=
  match l with
  | [] => mret s
  | i :: l' => s' ← body i s; for_ l' body s'
  end.

(** Column [j] of a two-dimensional array, as [axis=0] reductions see it. *)
Definition column {A} (a : ndarray A) (j : nat) : list A :=
  omap (λ r, r !! j) (rows a).
Definition columns {A} (a : ndarray A) : list (list A) :=
  map (column a) (seq 0 (size_of (tail (shape a)))).

Definition isnan (v : fl) : bool := negb (bool_decide (is_Some v)).

Definition halos_message (n_halos len_mask : nat) : string :=
  "The number of halos (" +:+ pretty n_halos
  +:+ ") does not match the length of the masking array ("
  +:+ pretty len_mask +:+ ")".

Definition stack_histograms_per_mass_bin (histograms : ndarray fl)
  (n_mass_bins : Z) (mass_bin_mask : ndarray Z)
  : M (option (ndarray fl * ndarray fl * ndarray fl)) :=
  logging_info "Start post-processing of data (stacking hists).";;
  '(n_halos, n_temperature_bins) ←
     match shape histograms with
     | [n; t] => mret (n, t)
     | _ => raise ValueError
     end;
  len_mask ← match shape mass_bin_mask with
             | [] => raise TypeError
             | n :: _ => mret n
             end;
  if negb (len_mask =? n_halos)%nat then
    logging_error (halos_message n_halos len_mask);;
    mret None
  else if (n_mass_bins <? 0)%Z then raise ValueError
  else
    let zeros := replicate n_temperature_bins (Some 0%Q) in
    let histograms_mean := replicate (Z.to_nat n_mass_bins) zeros in
    let histograms_median := replicate (Z.to_nat n_mass_bins) zeros in
    let histograms_percentiles :=
      replicate (Z.to_nat n_mass_bins) (zeros ++ zeros) in
    '(histograms_mean, histograms_median, histograms_percentiles) ←
      for_ (range n_mass_bins)
        (λ bin_num '(histograms_mean, histograms_median,
                     histograms_percentiles),
           let mask := where_eq mass_bin_mask (bin_num + 1) in
           masked_hists ← lift (compress_axis0 mask histograms);
           halo_hists ←
             lift (reshape (compressed masked_hists) (shape masked_hists));
           let cols := columns halo_hists in
           let k := Z.to_nat bin_num in
           let histograms_mean := <[k := nanmean <$> cols]> histograms_mean in
           let histograms_median :=
             <[k := nanmedian <$> cols]> histograms_median in
           let histograms_percentiles :=
             <[k := ((λ c, nanpercentile c 16) <$> cols)
                    ++ ((λ c, nanpercentile c 84) <$> cols)]>
               histograms_percentiles in
           logging_debug
             ("Empty halos in mass bin " +:+ pretty bin_num +:+ ": "
              +:+ pretty (length (filter (λ r, existsb isnan r = true)
                                         (rows halo_hists))));;
           mret (histograms_mean, histograms_median, histograms_percentiles))
        (histograms_mean, histograms_median, histograms_percentiles);
    logging_info "Finished post-processing data.";;
    let m := Z.to_nat n_mass_bins in
    mret (Some (NDArray [m; n_temperature_bins] (concat histograms_mean),
                NDArray [m; n_temperature_bins] (concat histograms_median),
                NDArray [m; 2; n_temperature_bins]%nat
                        (concat histograms_percentiles))).

(** [np.array(rs)] of a Python list of equally long one-dimensional arrays. *)
Definition array2 {A} (rs : list (list A)) : ndarray A :=
  NDArray [length rs; length (hd [] rs)] (concat rs).

Definition shapes_message (values_shape mask_shape : list nat) : string :=
  "Received arrays of different shapes: values have shape "
  +:+ str_tuple values_shape +:+ ", bin mask has shape "
  +:+ str_tuple mask_shape +:+ ".".

Section WithSqrt.

(** The float square root behind [np.nanstd] and the ["std"] statistic. *)
Variable np_sqrt : Q → Q.

Definition get_binned_averages (values : ndarray fl) (bin_mask : ndarray Z)
  (n_bins : Z) : M (option (ndarray fl)) :=
  if negb (bool_decide (shape values = shape bin_mask)) then
    logging_error (shapes_message (shape values) (shape bin_mask));;
    mret None
  else
    bins ← lift (bin_quantity values bin_mask n_bins);
    let '(avg, std) :=
      foldl (λ '(avg, std) binned_values,
               (avg ++ [nanmean (data binned_values)],
                std ++ [nanstd np_sqrt (data binned_values)]))
            ([], []) bins in
    mret (Some (array2 [avg; std; std])).

Definition get_binned_medians (values : ndarray fl) (bin_mask : ndarray Z)
  (n_bins : Z) : M (option (ndarray fl)) :=
  if negb (bool_decide (shape values = shape bin_mask)) then
    logging_error (shapes_message (shape values) (shape bin_mask));;
    mret None
  else
    bins ← lift (bin_quantity values bin_mask n_bins);
    let '(med, lper, uper) :=
      foldl (λ '(med, lper, uper) binned_values,
               (med ++ [nanmedian (data binned_values)],
                lper ++ [nanpercentile (data binned_values) 16],
                uper ++ [nanpercentile (data binned_values) 84]))
            ([], [], []) bins in
    let lerr := fabs <$> zip_with fsub med lper in
    let uerr := fabs <$> zip_with fsub med uper in
    mret (Some (array2 [med; lerr; uerr])).

Definition xy_message (x_shape y_shape : list nat) : string :=
  "Received x and y data arrays of different shape: shape of x is "
  +:+ str_tuple x_shape +:+ " but y has shape " +:+ str_tuple y_shape +:+ ".".

(** [hist.transpose()] of a histogram with [ny] entries per row. *)
Definition transpose {A} (ny : nat) (hist : list (list A)) : list (list A) :=
  map (λ j, omap (λ r, r !! j) hist) (seq 0 ny).

(** [x] and [y] carry their shape, which the function compares; [values] is
    one-dimensional.  scipy refuses positions that are not one-dimensional.
    The histogram is returned as its list of rows. *)
Definition column_normalized_hist2d (x y : ndarray Q) (bins : bins2d)
  (values : option (list Q)) (ranges : option ((Q * Q) * (Q * Q)))
  (statistic normalization : string)
  : M (option (list (list fl) * list Q * list Q)) :=
  if negb (bool_decide (shape x = shape y)) then
    logging_error (xy_message (shape x) (shape y));;
    mret None
  else
    let values := match values with
                  | None => map (λ _, 1%Q) (data x)
                  | Some values => values
                  end in
    '(hist, xedges, yedges) ←
      lift (if negb (ndim x =? 1)%nat then Raise ValueError
            else binned_statistic_2d np_sqrt (data x) (data y) values
                                     statistic bins ranges);
    hist ←
      (if String.eqb normalization "density" then
         let column_sums := fsum <$> hist in
         mret (zip_with (λ r s, (λ v, fdiv v s) <$> r) hist column_sums)
       else if String.eqb normalization "range" then
         column_max ← lift (mapM fmaximum hist);
         mret (zip_with (λ r s, (λ v, fdiv v s) <$> r) hist column_max)
       else
         raise (RuntimeError
                  ("Unsupported normalization " +:+ normalization +:+ ".")));
    mret (Some (transpose (length yedges - 1) hist, xedges, yedges)).

End WithSqrt.

Definition cube (v : Q) : Q := (v * v * v)%Q.

Definition volume_normalized_radial_profile (radial_distances weight : list Q)
  (b : bins) : outcome (list fl * list Q) :=
  '(hist, edges) ← histogram radial_distances b weight;
  let shell_cubed :=
    zip_with (λ r l, cube r - cube l)%Q
             (tail radial_distances) (removelast radial_distances) in
  let shell_volumes := (λ c, 4 / 3 * pi * c)%Q <$> shell_cubed in
  profile ← divide1 hist shell_volumes;
  Ok (profile, edges).

(** The profile that the docstring of [volume_normalized_radial_profile]
    describes: the weighted sum [w] of every radial bin divided by the shell
    volume [4/3 pi (R_r^3 - R_l^3)], with [R_r] and [R_l] the right and left
    edge of the bin. *)
Definition documented_profile (hist edges : list Q) : list fl :=
  zip_with (λ w '(R_l, R_r),
              fdiv (Some w) (Some (4 / 3 * pi * (cube R_r - cube R_l))%Q))
           hist (zip (removelast edges) (tail edges)).

(** The deprecation warning is issued on every call; what becomes of it is
    up to the warnings filter of the caller. *)
Definition sort_masses_into_bins (masses : ndarray fl) (mass_bins : list Q)
  : list warning * outcome (ndarray Z) :=
  ([DeprecationWarning
      ("Called function 'sort_masses_into_bins', which is merely an alias "
       +:+ "for 'numpy.digitize'. Use the latter instead.")],
   digitize masses mass_bins).

(** [np.sum(np.any(np.isnan(halo_hists), axis=1))] of an array of shape
    (M, X, Y): the number of pairs of a halo and a y bin with a [nan] along
    the x axis. *)
Definition nan_count3 (halo_hists : ndarray fl) (n_x_bins n_y_bins : nat)
  : nat :=
  sum_list
    ((λ r, length (filter
                     (λ j, existsb (λ i, match r !! (i * n_y_bins + j)%nat with
                                         | Some v => isnan v
                                         | None => false
                                         end)
                                   (seq 0 n_x_bins) = true)
                     (seq 0 n_y_bins)))
     <$> rows halo_hists).

Definition stack_2d_histograms_per_mass_bin (histograms : ndarray fl)
  (n_mass_bins : Z) (mass_bin_mask : ndarray Z) : M (option (ndarray fl)) :=
  logging_info "Stacking 2D histograms for every mass bin.";;
  '(n_halos, n_x_bins, n_y_bins) ←
     match shape histograms with
     | [n; x; y] => mret (n, x, y)
     | _ => raise ValueError
     end;
  len_mask ← match shape mass_bin_mask with
             | [] => raise TypeError
             | n :: _ => mret n
             end;
  if negb (len_mask =? n_halos)%nat then
    logging_error (halos_message n_halos len_mask);;
    mret None
  else if (n_mass_bins <? 0)%Z then raise ValueError
  else
    let histograms_mean :=
      replicate (Z.to_nat n_mass_bins)
                (replicate (n_x_bins * n_y_bins) (Some 0%Q)) in
    histograms_mean ←
      for_ (range n_mass_bins)
        (λ bin_num histograms_mean,
           let mask := where_eq mass_bin_mask (bin_num + 1) in
           masked_hists ← lift (compress_axis0 mask histograms);
           halo_hists ←
             lift (reshape (compressed masked_hists) (shape masked_hists));
           let histograms_mean :=
             <[Z.to_nat bin_num := nanmean <$> columns halo_hists]>
               histograms_mean in
           logging_debug
             ("Empty halos in mass bin " +:+ pretty bin_num +:+ ": "
              +:+ pretty (nan_count3 halo_hists n_x_bins n_y_bins));;
           mret histograms_mean)
        histograms_mean;
    logging_info "Finished post-processing data.";;
    mret (Some (NDArray [Z.to_nat n_mass_bins; n_x_bins; n_y_bins]
                        (concat histograms_mean))).

(** The histogram has its y bins along axis 0; [yrange] is a pair of Python
    floats, so that a histogram without y bins divides by the integer 0. *)
Definition get_2d_histogram_running_average (histogram : ndarray fl)
  (yrange : Q * Q) : result (ndarray fl) :=
  match shape histogram with
  | [] => Raises (Exn IndexError)
  | n_ybins :: inner =>
      if (n_ybins =? 0)%nat then Raises ZeroDivisionError
      else
        let ybin_width :=
          (Qabs (snd yrange - fst yrange) / of_nat n_ybins)%Q in
        let ybin_centers :=
          (λ i, qmin (fst yrange) [snd yrange]
                + (of_nat i + (1 # 2)) * ybin_width)%Q <$> seq 0 n_ybins in
        let hist_weighted :=
          NDArray (shape histogram)
                  (concat (zip_with (λ r c, (λ v, fmul v (Some c)) <$> r)
                                    (rows histogram) ybin_centers)) in
        let column_sum := fsum <$> columns hist_weighted in
        Returns (NDArray inner
                         (zip_with fdiv column_sum
                                   (fsum <$> columns histogram)))
  end.

(** The lines of [column_normalized_hist2d] that normalise by density,
    over doubles: [column_sums = np.sum(hist, axis=1)] and
    [hist = np.divide(hist, column_sums[:, np.newaxis])], for the
    histogram as scipy returns it, one row per x bin. *)
Definition density_normalization_float64
  (hist : list (list Float64.float64)) : list (list Float64.float64) :=
  let column_sums := Float64.np_sum <$> hist in
  zip_with (λ r s, (λ v, PrimFloat.div v s) <$> r) hist column_sums.

End Statistics.
Import Statistics.

(* ===================================================================== *)
(** * library/processing/selection.py: [select_if_in] *)
(* ===================================================================== *)

Module Selection.

(** [np.unique] of integers: sorted ascending, every value once. *)
Fixpoint insert_unique (v : Z) (l : list Z) : list Z :=
  match l with
  | [] => [v]
  | w :: l' => if (v <? w)%Z then v :: l
               else if (v =? w)%Z then l
               else w :: insert_unique v l'
  end.
Definition unique (l : list Z) : list Z := foldr insert_unique [] l.

(** The first position of [v] in [a]. *)
Definition first_index (a : list Z) (v : Z) : option nat :=
  fst <$> list_find (λ w, w = v) a.

(** Modelled from the spec: the linear scan of [select_if_in], mode
    ["iterate"].  The file [selection.py] is not among the sources; its tests
    are.  The scan walks over [a] and keeps the position of every element
    that is present in [s]. *)
Definition select_iterate (a s : list Z) : list nat :=
  (filter (λ p, p.2 ∈ s) (zip (seq 0 (length a)) a)).*1.

(** Modelled from the spec: the set intersection of [select_if_in], mode
    ["intersect"].  The common values of [a] and [s], as a sorted set, each
    with the position of its first occurrence in [a]. *)
Definition select_intersect (a s : list Z) : list nat :=
  omap (first_index a) (unique (filter (λ v, v ∈ s) a)).

(** Modelled from the spec: the sorted search of [select_if_in], mode
    ["searchsort"].  Every element of [s], in the order of [s], is searched
    in [a]; one that is found gives the position of its first occurrence in
    [a], one that is not found gives nothing. *)
Definition select_searchsort (a s : list Z) : list nat :=
  omap (first_index a) s.

(** An index array, or the array [[nan]] returned for an unknown mode. *)
Inductive selected : Type :=
| Indices (l : list nat)
| NanArray.

(** Modelled from the spec: [select_if_in(a, s, mode)] with its three modes;
    an unknown mode logs an error (see [test_select_if_in_unknown_mode]). *)
Definition select_if_in (a s : list Z) (mode : string) : M selected :=
  if String.eqb mode "iterate" then mret (Indices (select_iterate a s))
  else if String.eqb mode "intersect" then
    mret (Indices (select_intersect a s))
  else if String.eqb mode "searchsort" then
    mret (Indices (select_searchsort a s))
  else
    logging_error
      ("Unsupported mode " +:+ mode +:+ " for `selection.select_if_in`.");;
    mret NanArray.

(** [a] sorted in strictly ascending order. *)
Definition ascending (a : list Z) : Prop := StronglySorted Z.lt a.

End Selection.
Import Selection.

(* ===================================================================== *)
(** * Vocabulary of the statements *)
(* ===================================================================== *)

(** The positions at which [mask] holds [z], in increasing order. *)
Definition positions (mask : list Z) (z : Z) : list nat :=
  filter (λ i, mask !! i = Some z) (seq 0 (length mask)).

(** The entries of [l] at the positions at which [mask] holds [z], in the
    order in which they stand in [l]. *)
Definition members {A} (l : list A) (mask : list Z) (z : Z) : list A :=
  omap (λ i, l !! i) (positions mask z).

(** A one-dimensional array of [n] elements. *)
Definition one_dim {A} (a : ndarray A) (n : nat) : Prop :=
  shape a = [n] ∧ length (data a) = n.

(** The number of bins [bin_quantity] goes through. *)
Definition bin_count (bin_mask : list Z) (n_bins : Z) : nat :=
  Z.to_nat (if (n_bins =? -1)%Z
            then match bin_mask with [] => 0 | z :: l => foldl Z.max z l end
            else n_bins).

(** The histogram [column_normalized_hist2d] computes before it normalises
    it: the call of [binned_statistic_2d], with [values] replaced by ones
    when it is [None]. *)
Definition unnormalized_hist2d (np_sqrt : Q → Q) (x y : ndarray Q)
  (bins : bins2d) (values : option (list Q))
  (ranges : option ((Q * Q) * (Q * Q))) (statistic : string)
  : outcome (list (list fl) * list Q * list Q) :=
  if negb (ndim x =? 1)%nat then Raise ValueError
  else binned_statistic_2d np_sqrt (data x) (data y)
         (match values with
          | None => (λ _, 1%Q) <$> data x
          | Some values => values
          end)
         statistic bins ranges.

(** Two arrays of floats with the same numbers in the same places. *)
Definition same_numbers (a b : list fl) : Prop :=
  Forall2 (option_Forall2 Qeq) a b.

(** Column [i] of a histogram given by its rows. *)
Definition column_of {X} (H : list (list X)) (i : nat) : list (option X) :=
  (λ r, r !! i) <$> H.

(** [v] is a number in the half-open interval between the edges [k] and
    [k+1]. *)
Definition between (edges : list Q) (k : nat) (v : fl) : bool :=
  match edges !! k, edges !! S k, v with
  | Some lo, Some hi, Some x => Qle_bool lo x && negb (Qle_bool hi x)
  | _, _, _ => false
  end.

(** The positions of the masses that lie between the edges [k] and [k+1]. *)
Definition masses_between (masses : list fl) (edges : list Q) (k : nat)
  : list nat :=
  filter (λ i, from_option (between edges k) false (masses !! i) = true)
         (seq 0 (length masses)).

(** The positions whose mask value is the number of one of the first
    [n_bins] bins. *)
Definition binned_positions (mask : list Z) (n_bins : nat) : list nat :=
  filter (λ i, from_option (λ z, (1 <=? z)%Z && (z <=? Z.of_nat n_bins)%Z)
                           false (mask !! i) = true)
         (seq 0 (length mask)).

(** The rows of [quantity] at the positions at which [mask] holds [z], as
    an array. *)
Definition selected_rows {A} (quantity : ndarray A) (mask : list Z) (z : Z)
  : ndarray A :=
  let keep := positions mask z in
  NDArray (length keep :: tail (shape quantity))
          (concat (row quantity <$> keep)).

(** The bins that the docstring of [bin_quantity] describes: [quantity], of
    shape (N, S), is binned along the first axis, and the array yielded for
    the bin [k+1] holds, with shape (M, S), the entries of [quantity] along
    that axis whose mask value is [k+1]. *)
Definition documented_bin_quantity {A} (quantity : ndarray A)
  (bin_mask : ndarray Z) (n_bins : nat) : list (ndarray A) :=
  (λ k, selected_rows quantity (data bin_mask) (Z.of_nat k + 1))
  <$> seq 0 n_bins.

(** Entry [j] of the flattened rows of [histograms] that [mask] assigns to
    the bin [k+1]: what is stacked into entry [j] of the mass bin. *)
Definition stacked (histograms : ndarray fl) (mask : list Z) (k j : nat)
  : list fl :=
  omap (λ i, row histograms i !! j) (positions mask (Z.of_nat k + 1)).

(** An array of [m] rows of [t] entries, entry [j] of row [k] being the
    statistic [f] of what is stacked there. *)
Definition stack_with (f : list fl → fl) (histograms : ndarray fl)
  (mask : list Z) (m t : nat) : list (list fl) :=
  (λ k, (λ j, f (stacked histograms mask k j)) <$> seq 0 t) <$> seq 0 m.

(** The centres of the [n_ybins] equally wide y bins that span [yrange]. *)
Definition ybin_centers (yrange : Q * Q) (n_ybins : nat) : list Q :=
  (λ i, qmin (fst yrange) [snd yrange]
        + (of_nat i + (1 # 2))
          * (Qabs (snd yrange - fst yrange) / of_nat n_ybins))%Q
  <$> seq 0 n_ybins.

(** The average of [centers] weighted by [weights]; [nan] when the weights
    add up to zero. *)
Definition weighted_average (weights centers : list Q) : fl :=
  fdiv (Some (np_sum (zip_with Qmult weights centers)))
       (Some (np_sum weights)).

(** [v] is [nan] or not below the last edge: [np.digitize] gives it the
    index [len(edges)]. *)
Definition overflows (edges : list Q) (v : fl) : bool :=
  match v, last edges with
  | Some x, Some e => Qle_bool e x
  | _, _ => true
  end.

(* ===================================================================== *)
(** * Masking and binning *)
(* ===================================================================== *)

Section Masking.

Context {A : Type}.
Implicit Types (l : list A) (mask : list Z) (z : Z).

Lemma filter_fmap_comm {B C} (f : B → C) (P : C → Prop)
  `{∀ x, Decision (P x)} (k : list B) :
  filter P (f <$> k) = f <$> filter (P ∘ f) k.
Proof.
  induction k as [|b k IH]; [done|].
  rewrite fmap_cons, !filter_cons; simpl.
  destruct (decide (P (f b))); rewrite IH; done.
Qed.

Lemma positions_cons mask z w :
  positions (w :: mask) z
  = (if decide (w = z) then [0%nat] else []) ++ (S <$> positions mask z).
Proof.
  unfold positions; simpl length.
  rewrite <- cons_seq, filter_cons, <- fmap_S_seq, filter_fmap_comm; simpl.
  destruct (decide (Some w = Some z)) as [E|E], (decide (w = z)) as [E'|E'];
    try congruence; simpl; try done.
Qed.

Lemma members_cons l mask z w x :
  members (x :: l) (w :: mask) z
  = (if decide (w = z) then [x] else []) ++ members l mask z.
Proof.
  unfold members. rewrite positions_cons, omap_app.
  f_equal; [destruct (decide (w = z)); done|].
  generalize (positions mask z); intros k.
  induction k as [|i k IH]; [done|]. csimpl. rewrite IH. done.
Qed.

Lemma compress_items_where l mask z :
  length mask = length l →
  compress_items ((λ w, if (w =? z)%Z then 1%Z else 0%Z) <$> mask) l
  = Ok (members l mask z).
Proof.
  revert l. induction mask as [|w mask IH]; intros [|x l] Hlen;
    simplify_eq/=; [done|].
  rewrite IH by done. rewrite members_cons. simpl.
  destruct (Z.eqb_spec w z), (decide (w = z)); try done.
  all: destruct (Z.eqb_spec _ _); done.
Qed.

End Masking.

Section Binning.

Context {A : Type}.

Lemma mapM_outcome {X Y} (f : X → outcome Y) (g : X → Y) (k : list X) :
  (∀ x, x ∈ k → f x = Ok (g x)) → mapM f k = Ok (g <$> k).
Proof.
  induction k as [|x k IH]; intros Hf; [done|].
  simpl. rewrite (Hf x) by left. simpl.
  rewrite IH; [done|]. intros y Hy. apply Hf. by right.
Qed.

Lemma omap_lookup_ext (l l' : list A) (k : list nat) :
  (∀ i, i ∈ k → l !! i = l' !! i) →
  omap (λ i, l !! i) k = omap (λ i, l' !! i) k.
Proof.
  induction k as [|i k IH]; intros H; [done|].
  csimpl. rewrite (H i) by left. rewrite IH; [done|].
  intros j Hj. apply H. by right.
Qed.

Lemma elem_of_positions mask z i :
  i ∈ positions mask z ↔ mask !! i = Some z.
Proof.
  unfold positions. rewrite list_elem_of_filter, elem_of_seq.
  split; [tauto|]. intros H. split; [done|].
  apply lookup_lt_Some in H. lia.
Qed.

Lemma amax_bin_count (bin_mask : ndarray Z) (n_bins : Z) :
  (n_bins = -1 → data bin_mask ≠ [])%Z →
  (if (n_bins =? -1)%Z then amax bin_mask else Ok n_bins)
  = Ok (if (n_bins =? -1)%Z
        then match data bin_mask with [] => 0 | z :: l => foldl Z.max z l end
        else n_bins)%Z.
Proof.
  intros H. destruct (Z.eqb_spec n_bins (-1)); [|done].
  unfold amax. destruct (data bin_mask); [by destruct H|done].
Qed.

Lemma bin_quantity_one_dim (quantity : ndarray A) (bin_mask : ndarray Z)
  (n_bins : Z) (n : nat) :
  one_dim quantity n → one_dim bin_mask n →
  (n_bins = -1 → data bin_mask ≠ [])%Z →
  bin_quantity quantity bin_mask n_bins
  = Ok ((λ k, array1 (members (data quantity) (data bin_mask)
                              (Z.of_nat k + 1)))
        <$> seq 0 (bin_count (data bin_mask) n_bins)).
Proof.
  intros [Hq Hqn] [Hm Hmn] Hne. unfold bin_quantity.
  rewrite amax_bin_count by done. simpl.
  unfold range, bin_count.
  set (B := Z.to_nat _).
  rewrite (mapM_outcome _
             (λ z, array1 (members (data quantity) (data bin_mask) (z + 1)))).
  - f_equal. rewrite <- list_fmap_compose. done.
  - intros z _. unfold compress.
    destruct bin_mask as [sh m]; simpl in *; subst sh n.
    unfold ndim, where_eq; simpl.
    rewrite compress_items_where by done. done.
Qed.

End Binning.

Section BinnedStatistics.

Variable np_sqrt : Q → Q.

Lemma foldl_append2 {X Y Z'} (f : X → Y) (g : X → Z') (bins : list X) a0 s0 :
  foldl (λ '(avg, std) b, (avg ++ [f b], std ++ [g b])) (a0, s0) bins
  = (a0 ++ (f <$> bins), s0 ++ (g <$> bins)).
Proof.
  revert a0 s0. induction bins as [|b bins IH]; intros a0 s0; simpl.
  - by rewrite !app_nil_r.
  - rewrite IH, <- !app_assoc. done.
Qed.

Lemma foldl_append3 {X Y Z' W} (f : X → Y) (g : X → Z') (h : X → W)
  (bins : list X) a0 s0 u0 :
  foldl (λ '(med, lper, uper) b, (med ++ [f b], lper ++ [g b], uper ++ [h b]))
        (a0, s0, u0) bins
  = (a0 ++ (f <$> bins), s0 ++ (g <$> bins), u0 ++ (h <$> bins)).
Proof.
  revert a0 s0 u0. induction bins as [|b bins IH]; intros a0 s0 u0; simpl.
  - by rewrite !app_nil_r.
  - rewrite IH, <- !app_assoc. done.
Qed.

Lemma getitem2_three_rows {X} (r0 r1 r2 : list X) (b B : nat) :
  length r0 = B → length r1 = B → length r2 = B → (b < B)%nat →
  getitem2 (array2 [r0; r1; r2]) 0 b = r0 !! b
  ∧ getitem2 (array2 [r0; r1; r2]) 1 b = r1 !! b
  ∧ getitem2 (array2 [r0; r1; r2]) 2 b = r2 !! b.
Proof.
  intros H0 H1 H2 Hb. unfold getitem2, array2; simpl.
  rewrite H0. destruct (Nat.ltb_spec b B); [simpl|lia].
  rewrite app_nil_r.
  repeat split.
  - rewrite lookup_app_l by lia. done.
  - rewrite lookup_app_r by lia. rewrite lookup_app_l by lia.
    f_equal. lia.
  - rewrite lookup_app_r by lia. rewrite lookup_app_r by lia.
    f_equal. lia.
Qed.

Lemma lookup_fmap_seq {X} (f : nat → X) (b B : nat) :
  (b < B)%nat → (f <$> seq 0 B) !! b = Some (f b).
Proof.
  intros Hb. rewrite list_lookup_fmap, lookup_seq_lt by done. done.
Qed.

Lemma get_binned_averages_value (values : ndarray fl) (bin_mask : ndarray Z)
  (n_bins : Z) (n : nat) (log : list log_record) :
  one_dim values n → one_dim bin_mask n →
  (n_bins = (-1)%Z → data bin_mask ≠ []) →
  let binned k := members (data values) (data bin_mask) (Z.of_nat k + 1) in
  let ks := seq 0 (bin_count (data bin_mask) n_bins) in
  get_binned_averages np_sqrt values bin_mask n_bins log
  = (Ok (Some (array2 [(λ k, nanmean (binned k)) <$> ks;
                       (λ k, nanstd np_sqrt (binned k)) <$> ks;
                       (λ k, nanstd np_sqrt (binned k)) <$> ks])), log).
Proof.
  intros Hv Hm Hne binned ks. unfold get_binned_averages.
  rewrite (proj1 Hv), (proj1 Hm), bool_decide_eq_true_2 by done. simpl.
  rewrite (bin_quantity_one_dim _ _ _ n) by done.
  unfold mbind, M_bind, lift. rewrite foldl_append2. simpl.
  rewrite <- !list_fmap_compose. done.
Qed.

Lemma get_binned_medians_value (values : ndarray fl) (bin_mask : ndarray Z)
  (n_bins : Z) (n : nat) (log : list log_record) :
  one_dim values n → one_dim bin_mask n →
  (n_bins = (-1)%Z → data bin_mask ≠ []) →
  let binned k := members (data values) (data bin_mask) (Z.of_nat k + 1) in
  let ks := seq 0 (bin_count (data bin_mask) n_bins) in
  let err q k :=
    fabs (fsub (nanmedian (binned k)) (nanpercentile (binned k) q)) in
  get_binned_medians values bin_mask n_bins log
  = (Ok (Some (array2 [(λ k, nanmedian (binned k)) <$> ks;
                       err 16%Q <$> ks; err 84%Q <$> ks])), log).
Proof.
  intros Hv Hm Hne binned ks err. unfold get_binned_medians.
  rewrite (proj1 Hv), (proj1 Hm), bool_decide_eq_true_2 by done. simpl.
  rewrite (bin_quantity_one_dim _ _ _ n) by done.
  unfold mbind, M_bind, lift. rewrite foldl_append3. simpl.
  rewrite <- !list_fmap_compose.
  do 4 f_equal.
  assert (Hz : ∀ {X Y U} (f : X → Y) (g : X → Y) (h : Y → Y → U) (l : list X),
             zip_with h (f <$> l) (g <$> l) = (λ x, h (f x) (g x)) <$> l).
  { intros X Y U f g h l. induction l; simpl; [done|]. by f_equal. }
  unfold array2. simpl. rewrite !Hz, <- !list_fmap_compose. done.
Qed.

End BinnedStatistics.

Section Reductions.

Lemma length_insert_sorted v l : length (insert_sorted v l) = S (length l).
Proof.
  induction l as [|w l IH]; simpl; [done|].
  destruct (Qle_bool v w); simpl; [done|]. by rewrite IH.
Qed.

Lemma length_sort l : length (sort l) = length l.
Proof.
  induction l as [|v l IH]; simpl; [done|].
  unfold sort in *. by rewrite length_insert_sorted, IH.
Qed.

Lemma median_is_number (l : list Q) : l ≠ [] → is_Some (median l).
Proof.
  intros Hl. unfold median.
  pose proof (length_sort l) as Hn.
  destruct (length (sort l)) as [|m] eqn:Hs.
  { destruct l; [done|discriminate]. }
  set (n := S m) in *.
  assert (Hhalf : (n / 2 < n)%nat) by (apply Nat.div_lt; lia).
  destruct (Nat.even n).
  - destruct (lookup_lt_is_Some_2 (sort l) (n / 2 - 1)) as [a ->]; [lia|].
    destruct (lookup_lt_is_Some_2 (sort l) (n / 2)) as [b ->]; [lia|].
    simpl. eauto.
  - apply lookup_lt_is_Some_2. lia.
Qed.

Lemma percentile_is_number (l : list Q) (q : Q) :
  l ≠ [] → (0 <= q)%Q → (q <= 100)%Q → is_Some (percentile l q).
Proof.
  intros Hl Hq0 Hq1. unfold percentile.
  pose proof (length_sort l) as Hn.
  destruct (length (sort l)) as [|m] eqn:Hs.
  { destruct l; [done|discriminate]. }
  set (n := S m) in *.
  set (v := (of_nat (n - 1) * (q / 100))%Q).
  assert (Hm : (0 <= of_nat (n - 1))%Q).
  { unfold of_nat. rewrite <- (Zle_Qle 0). lia. }
  assert (Hv0 : (0 <= v)%Q).
  { unfold v. apply Qmult_le_0_compat; [done|].
    apply Qle_shift_div_l; [reflexivity|]. lra. }
  assert (Hv1 : (v <= of_nat (n - 1))%Q).
  { assert (Hq : (q / 100 <= 1)%Q)
      by (apply Qle_shift_div_r; [reflexivity|lra]).
    unfold v. nra. }
  assert (Hlo : (Z.to_nat (Qfloor v) ≤ n - 1)%nat).
  { apply Qfloor_resp_le in Hv1. unfold of_nat in Hv1.
    rewrite Qfloor_Z in Hv1. lia. }
  destruct (lookup_lt_is_Some_2 (sort l) (Z.to_nat (Qfloor v))) as [a ->];
    [lia|].
  destruct (lookup_lt_is_Some_2 (sort l)
              (Nat.min (Z.to_nat (Qfloor v) + 1) (n - 1))) as [b ->]; [lia|].
  simpl. eauto.
Qed.

End Reductions.

Section MaskQuantity.

Context {A : Type}.

Lemma length_row (quantity : ndarray A) (n i : nat) (inner : list nat) :
  shape quantity = n :: inner → wf quantity → (i < n)%nat →
  length (row quantity i) = size_of inner.
Proof.
  unfold wf, row. intros -> Hwf Hi. simpl in *.
  rewrite length_take, length_drop, Hwf. nia.
Qed.

Lemma members_rows (quantity : ndarray A) (mask : list Z) (z : Z) :
  length mask = hd 0%nat (shape quantity) →
  members (rows quantity) mask z = row quantity <$> positions mask z.
Proof.
  intros Hlen. unfold members, rows.
  rewrite (list_fmap_alt (row quantity) (positions mask z)).
  apply list_omap_ext, Forall2_same_length_lookup.
  split; [done|]. intros i j k Hj Hk. simplify_eq.
  apply list_elem_of_lookup_2, elem_of_positions, lookup_lt_Some in Hj.
  apply lookup_fmap_seq. lia.
Qed.

Lemma length_concat_rows (quantity : ndarray A) (n : nat) (inner : list nat)
  (keep : list nat) :
  shape quantity = n :: inner → wf quantity → Forall (λ i, i < n)%nat keep →
  length (concat (row quantity <$> keep)) = (length keep * size_of inner)%nat.
Proof.
  intros Hs Hwf. induction 1 as [|i keep Hi _ IH]; [done|].
  csimpl. rewrite length_app, IH, (length_row _ n _ inner) by done. lia.
Qed.

(** C10. With [compress=True], [mask_quantity] returns the entries of
    [quantity] at the positions where the mask holds [index] (0 when the
    argument is left out), in their original order.  The selection is along
    axis 0: the result has one row per selected position and every row keeps
    the inner shape [quantity.shape[1:]].  [quantity] is any array whose
    length along axis 0 is the length of the one-dimensional mask; an inner
    shape has no dimension of size zero. *)
Theorem mask_quantity_compress_selects (quantity : ndarray A)
  (mask : ndarray Z) (index : Z) (n : nat) (inner : list nat) :
  shape quantity = n :: inner → wf quantity → one_dim mask n →
  (0 < size_of inner)%nat →
  let keep := positions (data mask) index in
  mask_quantity quantity mask index true
  = Ok (PlainArray (NDArray (length keep :: inner)
                            (concat (row quantity <$> keep))))
  ∧ (∀ i, i ∈ keep ↔ data mask !! i = Some index)
  ∧ (∀ j i, keep !! j = Some i →
            row (NDArray (length keep :: inner)
                         (concat (row quantity <$> keep))) j
            = row quantity i).
Proof.
  intros Hs Hwf [Hm Hmn] Hinner keep.
  assert (Hkeep : Forall (λ i, i < n)%nat keep).
  { apply Forall_forall. intros i Hi.
    apply elem_of_positions, lookup_lt_Some in Hi. lia. }
  split; [|split].
  - unfold mask_quantity, compress_axis0, ndim.
    rewrite Hs. simpl. rewrite Hm. simpl.
    rewrite compress_items_where by (unfold rows; rewrite Hs; simpl;
                                     rewrite length_fmap, length_seq; lia).
    rewrite members_rows by (rewrite Hs; simpl; lia).
    simpl. fold keep. unfold compressed, array1. simpl.
    destruct inner as [|d inner']; simpl.
    + do 3 f_equal.
      rewrite (length_concat_rows _ n []) by done. simpl.
      by rewrite Nat.mul_1_r.
    + unfold reshape_rows; simpl data.
      rewrite (length_concat_rows _ n (d :: inner')) by done.
      set (w := size_of (d :: inner')) in *.
      destruct (Nat.eqb_spec w 0); [lia|].
      rewrite Nat.Div0.mod_mul, Nat.div_mul by done. done.
  - intros i. apply elem_of_positions.
  - intros j i Hj. unfold row at 1. simpl.
    revert j i Hj. induction Hkeep as [|i0 keep' Hi0 _ IH]; intros j i Hj;
      [done|].
    csimpl. destruct j as [|j]; simpl in Hj.
    + injection Hj as ->. rewrite Nat.mul_0_l, drop_0.
      rewrite take_app_length'; [done|]. by rewrite (length_row _ n _ inner).
    + rewrite Nat.mul_succ_l, Nat.add_comm, <- drop_drop.
      rewrite drop_app_length'; [|by rewrite (length_row _ n _ inner)].
      by apply IH.
Qed.

End MaskQuantity.

(** The call [mask_quantity(quantity, mask)] on three rows of two columns
    with the mask [[0, 1, 0]] keeps rows 0 and 2. *)
Lemma mask_quantity_compress_selects_witness :
  let quantity := NDArray [3; 2]%nat [1; 2; 3; 4; 5; 6]%Z in
  let mask := array1 [0; 1; 0]%Z in
  let keep := positions (data mask) 0 in
  mask_quantity quantity mask 0 true
  = Ok (PlainArray (NDArray (length keep :: [2%nat])
                            (concat (row quantity <$> keep))))
  ∧ (∀ i, i ∈ keep ↔ data mask !! i = Some 0%Z)
  ∧ (∀ j i, keep !! j = Some i →
            row (NDArray (length keep :: [2%nat])
                         (concat (row quantity <$> keep))) j
            = row quantity i).
Proof.
  apply (mask_quantity_compress_selects
           (NDArray [3; 2]%nat [1; 2; 3; 4; 5; 6]%Z)
           (array1 [0; 1; 0]%Z) 0 3 [2%nat]).
  - reflexivity.
  - reflexivity.
  - split; reflexivity.
  - simpl. lia.
Defined.

Section BinnedRows.

Variable np_sqrt : Q → Q.

Lemma one_dim_nonempty {X} (a : ndarray X) (n : nat) (n_bins : Z) :
  one_dim a n → (n_bins = (-1)%Z → (0 < n)%nat) →
  n_bins = (-1)%Z → data a ≠ [].
Proof.
  intros [_ Hn] H E Hnil. specialize (H E). rewrite Hnil in Hn. simpl in Hn. lia.
Qed.

Lemma wf_three_rows {X} (r0 r1 r2 : list X) (B : nat) :
  length r0 = B → length r1 = B → length r2 = B →
  shape (array2 [r0; r1; r2]) = [3%nat; B] ∧ wf (array2 [r0; r1; r2]).
Proof.
  intros H0 H1 H2. unfold wf, array2; simpl. rewrite H0. split; [done|].
  rewrite !length_app, H0, H1, H2. simpl. lia.
Qed.

(** C8. For a one-dimensional [values] array and an integer [bin_mask] of the
    same shape, [get_binned_averages] returns an array of shape (3, B), B the
    number of bins.  Row 0 holds the mean of every bin; rows 1 and 2 are both
    the standard deviation of the bin.  When the number of bins is to be read
    off the mask ([n_bins = -1]) the mask is not empty. *)
Theorem get_binned_averages_rows (values : ndarray fl) (bin_mask : ndarray Z)
  (n_bins : Z) (n : nat) (log : list log_record) :
  one_dim values n → one_dim bin_mask n →
  (n_bins = (-1)%Z → (0 < n)%nat) →
  ∃ r : ndarray fl,
    get_binned_averages np_sqrt values bin_mask n_bins log = (Ok (Some r), log)
    ∧ shape r = [3%nat; bin_count (data bin_mask) n_bins]
    ∧ wf r
    ∧ ∀ b, (b < bin_count (data bin_mask) n_bins)%nat →
        let binned :=
          members (data values) (data bin_mask) (Z.of_nat b + 1) in
        getitem2 r 0 b = Some (nanmean binned)
        ∧ getitem2 r 1 b = Some (nanstd np_sqrt binned)
        ∧ getitem2 r 2 b = Some (nanstd np_sqrt binned).
Proof.
  intros Hv Hm Hne.
  eexists. split; [|split; [|split]].
  - apply (get_binned_averages_value np_sqrt _ _ _ n); [done..|].
    by apply (one_dim_nonempty _ n).
  - eapply proj1, wf_three_rows; by rewrite length_fmap, length_seq.
  - eapply proj2, wf_three_rows; by rewrite length_fmap, length_seq.
  - intros b Hb binned.
    match goal with
    | |- context [getitem2 (array2 [?r0; ?r1; ?r2]) _ _] =>
        destruct (getitem2_three_rows r0 r1 r2 b
                    (bin_count (data bin_mask) n_bins)) as (-> & -> & ->);
        [by rewrite length_fmap, length_seq..|done|]
    end.
    rewrite !lookup_fmap_seq by done. done.
Qed.

(** C4. For a one-dimensional [values] array and an integer [bin_mask] of the
    same shape, [get_binned_medians] returns an array of shape (3, B).  Row 0
    holds the median of every bin; rows 1 and 2 hold the distances
    [|median - 16th percentile|] and [|median - 84th percentile|], not the
    percentiles.  A distance is never negative, and it is a number as soon as
    the bin holds one value that is not [nan]. *)
Theorem get_binned_medians_rows (values : ndarray fl) (bin_mask : ndarray Z)
  (n_bins : Z) (n : nat) (log : list log_record) :
  one_dim values n → one_dim bin_mask n →
  (n_bins = (-1)%Z → (0 < n)%nat) →
  ∃ r : ndarray fl,
    get_binned_medians values bin_mask n_bins log = (Ok (Some r), log)
    ∧ shape r = [3%nat; bin_count (data bin_mask) n_bins]
    ∧ wf r
    ∧ ∀ b, (b < bin_count (data bin_mask) n_bins)%nat →
        let binned :=
          members (data values) (data bin_mask) (Z.of_nat b + 1) in
        let median := nanmedian binned in
        getitem2 r 0 b = Some median
        ∧ getitem2 r 1 b = Some (fabs (fsub median (nanpercentile binned 16)))
        ∧ getitem2 r 2 b = Some (fabs (fsub median (nanpercentile binned 84)))
        ∧ (∀ e, getitem2 r 1 b = Some (Some e) ∨ getitem2 r 2 b = Some (Some e)
                → (0 <= e)%Q)
        ∧ (finite binned ≠ [] →
           ∃ m p16 p84 : Q,
             median = Some m
             ∧ nanpercentile binned 16 = Some p16
             ∧ nanpercentile binned 84 = Some p84
             ∧ getitem2 r 1 b = Some (Some (Qabs (m - p16)))
             ∧ getitem2 r 2 b = Some (Some (Qabs (m - p84)))).
Proof.
  intros Hv Hm Hne.
  eexists. split; [|split; [|split]].
  - apply (get_binned_medians_value _ _ _ n); [done..|].
    by apply (one_dim_nonempty _ n).
  - eapply proj1, wf_three_rows; by rewrite length_fmap, length_seq.
  - eapply proj2, wf_three_rows; by rewrite length_fmap, length_seq.
  - intros b Hb binned median.
    match goal with
    | |- context [getitem2 (array2 [?r0; ?r1; ?r2]) _ _] =>
        destruct (getitem2_three_rows r0 r1 r2 b
                    (bin_count (data bin_mask) n_bins)) as (-> & -> & ->);
        [by rewrite length_fmap, length_seq..|done|]
    end.
    rewrite !lookup_fmap_seq by done. fold binned. fold median.
    split; [done|]. split; [done|]. split; [done|]. split.
    + intros e [He|He]; injection He as He;
        (destruct median as [m|]; [|by cbv in He]);
        (destruct (nanpercentile binned _) as [p|]; [|by cbv in He]);
        change (Some (Qabs (m - p)) = Some e) in He;
        assert (e = Qabs (m - p)) as -> by congruence;
        apply Qabs_nonneg.
    + intros Hfin. unfold median, nanmedian, nanpercentile.
      destruct (median_is_number (finite binned) Hfin) as [m ->].
      destruct (percentile_is_number (finite binned) 16 Hfin) as [p16 ->];
        [done..|].
      destruct (percentile_is_number (finite binned) 84 Hfin) as [p84 ->];
        [done..|].
      exists m, p16, p84. done.
Qed.

End BinnedRows.

(** Three values in the bins 1, 2, 1: two bins are read off the mask. *)
Lemma get_binned_averages_rows_witness :
  let values : ndarray fl := array1 [Some 1; Some 2; Some 4]%Q in
  let bin_mask := array1 [1; 2; 1]%Z in
  ∃ r : ndarray fl,
    get_binned_averages (λ v, v) values bin_mask (-1) [] = (Ok (Some r), [])
    ∧ shape r = [3%nat; bin_count (data bin_mask) (-1)]
    ∧ wf r
    ∧ ∀ b, (b < bin_count (data bin_mask) (-1))%nat →
        let binned :=
          members (data values) (data bin_mask) (Z.of_nat b + 1) in
        getitem2 r 0 b = Some (nanmean binned)
        ∧ getitem2 r 1 b = Some (nanstd (λ v, v) binned)
        ∧ getitem2 r 2 b = Some (nanstd (λ v, v) binned).
Proof.
  apply (get_binned_averages_rows (λ v, v)
           (array1 [Some 1; Some 2; Some 4]%Q) (array1 [1; 2; 1]%Z)
           (-1) 3 []).
  - split; reflexivity.
  - split; reflexivity.
  - intros _. lia.
Defined.

(** The same three values, with an explicit number of bins. *)
Lemma get_binned_medians_rows_witness :
  let values : ndarray fl := array1 [Some 1; Some 2; Some 4]%Q in
  let bin_mask := array1 [1; 2; 1]%Z in
  ∃ r : ndarray fl,
    get_binned_medians values bin_mask 2 [] = (Ok (Some r), [])
    ∧ shape r = [3%nat; bin_count (data bin_mask) 2]
    ∧ wf r
    ∧ ∀ b, (b < bin_count (data bin_mask) 2)%nat →
        let binned :=
          members (data values) (data bin_mask) (Z.of_nat b + 1) in
        let median := nanmedian binned in
        getitem2 r 0 b = Some median
        ∧ getitem2 r 1 b = Some (fabs (fsub median (nanpercentile binned 16)))
        ∧ getitem2 r 2 b = Some (fabs (fsub median (nanpercentile binned 84)))
        ∧ (∀ e, getitem2 r 1 b = Some (Some e) ∨ getitem2 r 2 b = Some (Some e)
                → (0 <= e)%Q)
        ∧ (finite binned ≠ [] →
           ∃ m p16 p84 : Q,
             median = Some m
             ∧ nanpercentile binned 16 = Some p16
             ∧ nanpercentile binned 84 = Some p84
             ∧ getitem2 r 1 b = Some (Some (Qabs (m - p16)))
             ∧ getitem2 r 2 b = Some (Some (Qabs (m - p84)))).
Proof.
  apply (get_binned_medians_rows
           (array1 [Some 1; Some 2; Some 4]%Q) (array1 [1; 2; 1]%Z) 2 3 []).
  - split; reflexivity.
  - split; reflexivity.
  - intros _. lia.
Defined.

Section Exclusion.

Variable np_sqrt : Q → Q.

Lemma bin_count_explicit (bin_mask : list Z) (n_bins : Z) (k : nat) :
  n_bins ≠ (-1)%Z → (k < bin_count bin_mask n_bins)%nat →
  (Z.of_nat k + 1 ≤ n_bins)%Z.
Proof.
  unfold bin_count. intros Hn. destruct (Z.eqb_spec n_bins (-1)); lia.
Qed.

(** One-dimensional arrays.  [bin_quantity] draws bin number [k+1] from the
    positions at which the mask holds [k+1] and from no other.  A position
    whose mask value is 0,
    or exceeds an explicitly passed [n_bins], is therefore among the
    positions of no bin that is yielded; and the entries at such positions
    have no influence on what [bin_quantity] yields nor on the result of
    [get_binned_averages] and [get_binned_medians]: two quantity arrays that
    agree wherever the mask value lies in the range of the bins give the
    same bins and the same statistics.  The arrays are one-dimensional and of
    the same length as the mask, which is not empty when the number of bins
    is read off it. *)
Theorem bin_quantity_excludes_out_of_range (quantity quantity' : ndarray fl)
  (bin_mask : ndarray Z) (n_bins : Z) (n : nat) (log : list log_record) :
  one_dim quantity n → one_dim quantity' n → one_dim bin_mask n →
  (n_bins = (-1)%Z → (0 < n)%nat) →
  (∀ i z, data bin_mask !! i = Some z → (1 ≤ z)%Z →
          (n_bins ≠ (-1)%Z → (z ≤ n_bins)%Z) →
          data quantity' !! i = data quantity !! i) →
  (∃ bins, bin_quantity quantity bin_mask n_bins = Ok bins
     ∧ ∀ k bin, bins !! k = Some bin →
         data bin = members (data quantity) (data bin_mask) (Z.of_nat k + 1)
         ∧ ∀ i z, data bin_mask !! i = Some z →
                  z = 0%Z ∨ (n_bins ≠ (-1)%Z ∧ (n_bins < z)%Z) →
                  i ∉ positions (data bin_mask) (Z.of_nat k + 1))
  ∧ bin_quantity quantity' bin_mask n_bins
    = bin_quantity quantity bin_mask n_bins
  ∧ get_binned_averages np_sqrt quantity' bin_mask n_bins log
    = get_binned_averages np_sqrt quantity bin_mask n_bins log
  ∧ get_binned_medians quantity' bin_mask n_bins log
    = get_binned_medians quantity bin_mask n_bins log.
Proof.
  intros Hq Hq' Hm Hne Hagree.
  pose proof (one_dim_nonempty _ _ _ Hm Hne) as Hnil.
  assert (Heq : bin_quantity quantity' bin_mask n_bins
                = bin_quantity quantity bin_mask n_bins).
  { rewrite !(bin_quantity_one_dim _ _ _ n) by done. f_equal.
    apply list_fmap_ext. intros j k Hj.
    apply lookup_seq in Hj as [Hjk Hk]. simpl in Hjk. subst j. f_equal.
    apply omap_lookup_ext. intros i Hi.
    apply elem_of_positions in Hi.
    apply (Hagree i _ Hi); [lia|].
    intros Hn. by apply (bin_count_explicit (data bin_mask)). }
  split; [|split; [done|split]].
  - eexists. split; [by apply (bin_quantity_one_dim _ _ _ n)|].
    intros k bin Hk.
    rewrite list_lookup_fmap in Hk.
    destruct (seq _ _ !! k) as [k'|] eqn:Hk'; [|done].
    apply lookup_seq in Hk' as [Hkk Hlt]. simpl in Hkk. subst k'.
    simpl in Hk. injection Hk as <-.
    split; [done|].
    intros i z Hz Hout Hin. apply elem_of_positions in Hin.
    rewrite Hz in Hin. injection Hin as ->.
    destruct Hout as [?|[Hn ?]]; [lia|].
    pose proof (bin_count_explicit _ _ _ Hn Hlt). lia.
  - unfold get_binned_averages. by rewrite (proj1 Hq), (proj1 Hq'), Heq.
  - unfold get_binned_medians. by rewrite (proj1 Hq), (proj1 Hq'), Heq.
Qed.

End Exclusion.

(** Five entries with the mask [[0, 1, 2, 3, 1]] and [n_bins = 2]: the
    entries at positions 0 (below range) and 3 (above range) are free. *)
Lemma bin_quantity_excludes_out_of_range_witness :
  let quantity : ndarray fl := array1 [Some 10; Some 1; Some 2; Some 30; None]%Q in
  let quantity' : ndarray fl := array1 [None; Some 1; Some 2; Some 7; None]%Q in
  let bin_mask := array1 [0; 1; 2; 3; 1]%Z in
  (∃ bins, bin_quantity quantity bin_mask 2 = Ok bins
     ∧ ∀ k bin, bins !! k = Some bin →
         data bin = members (data quantity) (data bin_mask) (Z.of_nat k + 1)
         ∧ ∀ i z, data bin_mask !! i = Some z →
                  z = 0%Z ∨ (2%Z ≠ (-1)%Z ∧ (2 < z)%Z) →
                  i ∉ positions (data bin_mask) (Z.of_nat k + 1))
  ∧ bin_quantity quantity' bin_mask 2 = bin_quantity quantity bin_mask 2
  ∧ get_binned_averages (λ v, v) quantity' bin_mask 2 []
    = get_binned_averages (λ v, v) quantity bin_mask 2 []
  ∧ get_binned_medians quantity' bin_mask 2 []
    = get_binned_medians quantity bin_mask 2 [].
Proof.
  apply (bin_quantity_excludes_out_of_range (λ v, v)
           (array1 [Some 10; Some 1; Some 2; Some 30; None]%Q)
           (array1 [None; Some 1; Some 2; Some 7; None]%Q)
           (array1 [0; 1; 2; 3; 1]%Z) 2 5 []).
  - split; reflexivity.
  - split; reflexivity.
  - split; reflexivity.
  - intros H. discriminate H.
  - intros i z Hz H1 H2. specialize (H2 ltac:(discriminate)).
    destruct i as [|[|[|[|[|i]]]]]; simpl in Hz; simplify_eq; try reflexivity;
      lia.
Defined.

(** C5.  The exclusion holds for one-dimensional arrays only.  The docstring
    of [bin_quantity] takes a [quantity] of shape (N, S) that is binned
    along the first axis, but the body calls [compress] without an axis,
    which works on the flattened array.  For the two rows [[1, 2, 3]] and
    [[4, 5, 6]], the mask [[0, 1]] and [n_bins = 1], the only bin should hold
    the second row; the call yields [[2]] instead, an entry of the first
    row, whose mask value is 0, and no entry of the second row.  With the
    mask [[1, 1]] it yields [[1, 2]] instead of both rows. *)
Theorem bin_quantity_yields_entry_of_excluded_row :
  let quantity := NDArray [2; 3]%nat [1; 2; 3; 4; 5; 6]%Z in
  (bin_quantity quantity (array1 [0; 1]%Z) 1 = Ok [array1 [2%Z]]
   ∧ documented_bin_quantity quantity (array1 [0; 1]%Z) 1
     = [NDArray [1; 3]%nat [4; 5; 6]%Z]
   ∧ data (array1 [0; 1]%Z) !! 0%nat = Some 0%Z
   ∧ row quantity 0 = [1; 2; 3]%Z
   ∧ row quantity 1 = [4; 5; 6]%Z
   ∧ 2%Z ∈ row quantity 0
   ∧ 2%Z ∉ row quantity 1)
  ∧ bin_quantity quantity (array1 [1; 1]%Z) (-1) = Ok [array1 [1; 2]%Z]
  ∧ documented_bin_quantity quantity (array1 [1; 1]%Z) 1
    = [NDArray [2; 3]%nat [1; 2; 3; 4; 5; 6]%Z].
Proof.
  split; [|split; reflexivity].
  do 5 (split; [reflexivity|]). split.
  - apply elem_of_cons. right. apply elem_of_cons. by left.
  - intros H. repeat (apply elem_of_cons in H as [H|H]; [discriminate H|]).
    by apply elem_of_nil in H.
Qed.

Section ShapeMismatch.

Variable np_sqrt : Q → Q.

(** C9. When the shapes of its two input arrays disagree, each of the
    functions logs one error and returns [None]; it raises no exception.
    This holds for [values] against [bin_mask] in [get_binned_averages] and
    [get_binned_medians], for the number of histograms (of a two-dimensional
    [histograms] array) against the length of the mask in
    [stack_histograms_per_mass_bin], and for [x] against [y] in
    [column_normalized_hist2d].  The arrays are immutable values here, as no
    statement of the module assigns into an argument: all that such a call
    changes is the log, which grows by the records shown. *)
Theorem shape_mismatch_logs_error_returns_None (log : list log_record) :
  (∀ (values : ndarray fl) (bin_mask : ndarray Z) (n_bins : Z),
     shape values ≠ shape bin_mask →
     let record :=
       LogRecord ERROR (shapes_message (shape values) (shape bin_mask)) in
     get_binned_averages np_sqrt values bin_mask n_bins log
     = (Ok None, log ++ [record])
     ∧ get_binned_medians values bin_mask n_bins log
       = (Ok None, log ++ [record]))
  ∧ (∀ (histograms : ndarray fl) (n_mass_bins : Z) (mass_bin_mask : ndarray Z)
       (n_halos n_temperature_bins len_mask : nat) (rest : list nat),
       shape histograms = [n_halos; n_temperature_bins] →
       shape mass_bin_mask = len_mask :: rest →
       len_mask ≠ n_halos →
       stack_histograms_per_mass_bin histograms n_mass_bins mass_bin_mask log
       = (Ok None,
          log ++ [LogRecord INFO
                    "Start post-processing of data (stacking hists).";
                  LogRecord ERROR (halos_message n_halos len_mask)]))
  ∧ (∀ (x y : ndarray Q) (bins : bins2d) (values : option (list Q))
       (ranges : option ((Q * Q) * (Q * Q)))
       (statistic normalization : string),
       shape x ≠ shape y →
       column_normalized_hist2d np_sqrt x y bins values ranges statistic
                                normalization log
       = (Ok None, log ++ [LogRecord ERROR (xy_message (shape x) (shape y))])).
Proof.
  split; [|split].
  - intros values bin_mask n_bins Hne record.
    unfold get_binned_averages, get_binned_medians.
    rewrite bool_decide_eq_false_2 by done. done.
  - intros histograms n_mass_bins mass_bin_mask n_halos n_temperature_bins
      len_mask rest Hh Hm Hne.
    unfold stack_histograms_per_mass_bin.
    rewrite Hh, Hm.
    unfold mbind, M_bind, logging_info, logging_error, logging_log, mret,
      M_ret.
    destruct (Nat.eqb_spec len_mask n_halos); [done|]. simpl.
    by rewrite <- app_assoc.
  - intros x y bins values ranges statistic normalization Hne.
    unfold column_normalized_hist2d.
    rewrite bool_decide_eq_false_2 by done. done.
Qed.

End ShapeMismatch.

(** Three values against a mask of one entry, three histograms against a mask
    of two entries, three x positions against two y positions. *)
Lemma shape_mismatch_logs_error_returns_None_witness :
  let values : ndarray fl := array1 [Some 1; Some 2; Some 3]%Q in
  let histograms : ndarray fl :=
    NDArray [3; 1]%nat [Some 1; Some 2; Some 3]%Q in
  (get_binned_averages (λ v, v) values (array1 [1%Z]) (-1) []
   = (Ok None,
      [LogRecord ERROR
         "Received arrays of different shapes: values have shape (3,), bin mask has shape (1,)."])
   ∧ get_binned_medians values (array1 [1%Z]) (-1) []
     = (Ok None,
        [LogRecord ERROR
           "Received arrays of different shapes: values have shape (3,), bin mask has shape (1,)."]))
  ∧ stack_histograms_per_mass_bin histograms 2 (array1 [1; 2]%Z) []
    = (Ok None,
       [LogRecord INFO "Start post-processing of data (stacking hists).";
        LogRecord ERROR
          "The number of halos (3) does not match the length of the masking array (2)"])
  ∧ column_normalized_hist2d (λ v, v) (array1 [1; 2; 3]%Q) (array1 [1; 2]%Q)
      (BinsN 2) None None "sum" "density" []
    = (Ok None,
       [LogRecord ERROR
          "Received x and y data arrays of different shape: shape of x is (3,) but y has shape (2,)."]).
Proof.
  destruct (shape_mismatch_logs_error_returns_None (λ v, v) [])
    as (Hbinned & Hstack & Hhist).
  split; [|split].
  - apply (Hbinned (array1 [Some 1; Some 2; Some 3]%Q) (array1 [1%Z]) (-1)%Z).
    discriminate.
  - apply (Hstack (NDArray [3; 1]%nat [Some 1; Some 2; Some 3]%Q) 2%Z
             (array1 [1; 2]%Z) 3%nat 1%nat 2%nat []); [reflexivity..|].
    discriminate.
  - apply (Hhist (array1 [1; 2; 3]%Q) (array1 [1; 2]%Q) (BinsN 2) None None
             "sum" "density").
    discriminate.
Defined.

Section Normalization.

Variable np_sqrt : Q → Q.

Lemma fsum_numbers (l : list fl) (S : Q) :
  fsum l = Some S → ∃ qs, l = Some <$> qs ∧ S = np_sum qs.
Proof.
  revert S. induction l as [|v l IH]; intros S HS.
  - exists []. simpl in HS. by injection HS as <-.
  - unfold fsum in HS. simpl in HS. fold (fsum l) in HS.
    destruct v as [q|]; [|done].
    destruct (fsum l) as [S'|] eqn:E; [|done].
    destruct (IH S' eq_refl) as (qs & -> & ->).
    exists (q :: qs). split; [done|].
    simpl in HS. by injection HS as <-.
Qed.

Lemma fdiv_number (q S : Q) :
  ¬ (S == 0)%Q → fdiv (Some q) (Some S) = Some (q / S)%Q.
Proof.
  intros HS. unfold fdiv. simpl.
  destruct (Qeq_bool S 0) eqn:E; [|done].
  by apply Qeq_bool_eq in E.
Qed.

Lemma np_sum_div (qs : list Q) (S : Q) :
  ¬ (S == 0)%Q →
  (np_sum ((λ q, q / S)%Q <$> qs) == np_sum qs / S)%Q.
Proof.
  intros HS. induction qs as [|q qs IH]; simpl.
  - by field.
  - rewrite IH. by field.
Qed.

(** Entry [i] of column [j] of a list of rows that all have [ny] entries. *)
Lemma lookup_column {X} (rows : list (list X)) (ny i j : nat) :
  Forall (λ r, length r = ny) rows → (j < ny)%nat →
  omap (λ r, r !! j) rows !! i = rows !! i ≫= (λ r, r !! j).
Proof.
  intros Hrows Hj. revert i.
  induction Hrows as [|r rows Hr _ IH]; intros i; [done|].
  csimpl. destruct (lookup_lt_is_Some_2 r j) as [v Hv]; [lia|].
  rewrite Hv. destruct i as [|i]; simpl; [done|]. apply IH.
Qed.

Lemma lookups_seq {X} (l : list X) :
  (λ j, l !! j) <$> seq 0 (length l) = Some <$> l.
Proof.
  apply list_eq. intros j. rewrite !list_lookup_fmap.
  destruct (decide (j < length l)%nat) as [Hj|Hj].
  - rewrite lookup_seq_lt by done. simpl.
    destruct (lookup_lt_is_Some_2 l j Hj) as [v ->]. done.
  - rewrite lookup_seq_ge by lia. rewrite lookup_ge_None_2 by lia. done.
Qed.

(** Column [i] of the transposed histogram is row [i] of the histogram. *)
Lemma transpose_column {X} (rows : list (list X)) (ny i : nat) (r : list X) :
  Forall (λ r, length r = ny) rows → rows !! i = Some r →
  (λ c, c !! i) <$> transpose ny rows = Some <$> r.
Proof.
  intros Hrows Hi.
  assert (Hr : length r = ny)
    by (eapply (proj1 (Forall_lookup _ _) Hrows); done).
  unfold transpose. rewrite <- list_fmap_compose.
  rewrite <- lookups_seq, Hr.
  apply list_fmap_ext. intros k j Hk. apply lookup_seq in Hk as [Hkj Hj].
  simpl in *. subst k.
  rewrite (lookup_column rows ny) by done. by rewrite Hi.
Qed.

Lemma length_transpose {X} (rows : list (list X)) (ny : nat) :
  length (transpose ny rows) = ny.
Proof. unfold transpose. by rewrite length_fmap, length_seq. Qed.

(** What the normalisation makes of row [i]. *)
Lemma lookup_normalized (hist : list (list fl)) (norms : list fl) (i : nat)
  (r : list fl) (s : fl) :
  hist !! i = Some r → norms !! i = Some s →
  zip_with (λ r s, (λ v, fdiv v s) <$> r) hist norms !! i
  = Some ((λ v, fdiv v s) <$> r).
Proof.
  intros Hr Hs. rewrite lookup_zip_with, Hr. simpl. by rewrite Hs.
Qed.

Lemma Forall_length_normalized (hist : list (list fl)) (norms : list fl)
  (ny : nat) :
  Forall (λ r, length r = ny) hist →
  Forall (λ r, length r = ny)
         (zip_with (λ r s, (λ v, fdiv v s) <$> r) hist norms).
Proof.
  intros H. revert norms. induction H as [|r hist Hr _ IH]; intros [|s norms];
    simpl; try constructor; [by rewrite length_fmap|apply IH].
Qed.

(** The histogram of [binned_statistic_2d] has one row per x bin and one
    entry per y bin in every row. *)
Lemma binned_statistic_2d_shape x y values stat b range hist xedges yedges :
  binned_statistic_2d np_sqrt x y values stat b range
  = Ok (hist, xedges, yedges) →
  length hist = (length xedges - 1)%nat
  ∧ Forall (λ r, length r = (length yedges - 1)%nat) hist.
Proof.
  unfold binned_statistic_2d. intros H.
  destruct (known_stats stat) as [st|]; [|done].
  destruct (negb _); [done|]. destruct (_ && _); [done|].
  destruct (split_bins b) as [[xbins ybins]|]; [|done]. simpl in H.
  destruct (axis_edges xbins _ _) as [xe|]; [|done]. simpl in H.
  destruct (axis_edges ybins _ _) as [ye|]; [|done]. simpl in H.
  injection H as <- <- <-.
  split; [by rewrite length_fmap, length_seq|].
  apply Forall_fmap, Forall_forall. intros i _. simpl.
  by rewrite length_fmap, length_seq.
Qed.

End Normalization.

Section Density.

Variable np_sqrt : Q → Q.

(** C3, amended.  For position arrays [x] and [y] of the same shape and any
    bin specification, [column_normalized_hist2d] with
    [normalization="density"] returns the histogram, of shape (ny, nx), in
    which the values at every x bin whose un-normalised column sum [S] is
    not zero are the un-normalised values divided by [S].  These quotients
    add up to one in exact arithmetic, which is the arithmetic of this
    statement; the doubles that the program stores are the quotients
    rounded, and their sum is one up to rounding only, as
    the column of six equal counts shows below.  The function returns whenever
    [binned_statistic_2d] does, with the same edges; it raises what that
    call raises. *)
Theorem density_columns_sum_to_one (x y : ndarray Q) (bins : bins2d)
  (values : option (list Q)) (ranges : option ((Q * Q) * (Q * Q)))
  (statistic : string) (log : list log_record) :
  shape x = shape y →
  match unnormalized_hist2d np_sqrt x y bins values ranges statistic with
  | Raise e =>
      column_normalized_hist2d np_sqrt x y bins values ranges statistic
                               "density" log
      = (Raise e, log)
  | Ok (hist, xedges, yedges) =>
      ∃ H : list (list fl),
        column_normalized_hist2d np_sqrt x y bins values ranges statistic
                                 "density" log
        = (Ok (Some (H, xedges, yedges)), log)
        ∧ length H = (length yedges - 1)%nat
        ∧ ∀ (i : nat) (column : list fl) (S : Q),
            hist !! i = Some column → fsum column = Some S → ¬ (S == 0)%Q →
            ∃ hs : list Q,
              column = Some <$> hs
              ∧ length hs = (length yedges - 1)%nat
              ∧ column_of H i = (λ h, Some (Some (h / S)%Q)) <$> hs
              ∧ (np_sum ((λ h, h / S) <$> hs) == 1)%Q
  end.
Proof.
  intros Hshape.
  unfold column_normalized_hist2d, unnormalized_hist2d.
  rewrite bool_decide_eq_true_2 by done. simpl.
  destruct (negb (ndim x =? 1)%nat); [done|].
  destruct (binned_statistic_2d _ _ _ _ _ _ _) as [[[hist xedges] yedges]|e]
    eqn:Hcall; [|done].
  apply binned_statistic_2d_shape in Hcall as [Hnx Hny].
  eexists. split; [done|]. split; [apply length_transpose|].
  intros i column S Hi HS HS0.
  destruct (fsum_numbers _ _ HS) as (hs & -> & ->).
  exists hs. split; [done|]. split; [|split].
  - apply (proj1 (Forall_lookup _ _) Hny) in Hi.
    by rewrite length_fmap in Hi.
  - unfold column_of.
    erewrite transpose_column;
      [|by apply Forall_length_normalized
       |apply lookup_normalized; [done|by rewrite list_lookup_fmap, Hi]].
    simpl. rewrite HS, <- !list_fmap_compose.
    apply list_fmap_ext. intros _ q _. unfold compose.
    by rewrite fdiv_number.
  - rewrite np_sum_div by done. by field.
Qed.

End Density.

(** C3 as stated fails in the arithmetic of the program.  Six points at
    [x = 0] with [y = 0, ..., 5] and the bins (1, 6) give one column of six
    counts 1, whose sum is 6.  Over doubles the normalised column holds six
    times the double nearest to 1/6, which is below 1/6: the six values add
    up to [1 - 2^-54] as rationals, and [np.sum] of them is the double
    [1 - 2^-53] (0.9999999999999999), not 1. *)
Lemma density_column_sum_misses_one :
  let x := array1 (replicate 6 0%Q) in
  let y := array1 [0; 1; 2; 3; 4; 5]%Q in
  let counts := replicate 6 1%Q in
  let sixth := (6004799503160661 # 36028797018963968)%Q in
  ∃ (xedges yedges : list Q) (column : list Float64.float64),
    unnormalized_hist2d (λ v, v) x y (BinsNxNy 1 6) None None "sum"
    = Ok ([Some <$> counts], xedges, yedges)
    ∧ density_normalization_float64 [Float64.of_Q <$> counts] = [column]
    ∧ column = replicate 6 (Float64.of_Q (1 # 6))
    ∧ Float64.value <$> column = replicate 6 (Some sixth)
    ∧ (sixth < 1 # 6)%Q
    ∧ (np_sum (replicate 6 sixth) == 1 - (1 # 2) ^ 54)%Q
    ∧ ¬ (np_sum (replicate 6 sixth) == 1)%Q
    ∧ Float64.value (Float64.np_sum column)
      = Some (9007199254740991 # 9007199254740992)%Q
    ∧ (9007199254740991 # 9007199254740992 == 1 - (1 # 2) ^ 53)%Q
    ∧ Float64.np_sum column ≠ Float64.of_Z 1.
Proof.
  eexists _, _, _. split; [vm_compute; reflexivity|].
  split; [vm_compute; reflexivity|].
  split; [vm_compute; reflexivity|].
  split; [vm_compute; reflexivity|].
  split; [reflexivity|].
  split; [vm_compute; reflexivity|].
  split; [vm_compute; discriminate|].
  split; [vm_compute; reflexivity|].
  split; [vm_compute; reflexivity|].
  intros H. apply (f_equal Float64.value) in H. vm_compute in H.
  discriminate H.
Qed.

(** Five weighted points on a grid of two by two bins. *)
Lemma density_columns_sum_to_one_witness :
  let x := array1 [0; 0; 1; 1; 1]%Q in
  let y := array1 [0; 1; 0; 1; 1]%Q in
  match unnormalized_hist2d (λ v, v) x y (BinsN 2) (Some [1; 2; 1; 1; 3]%Q) None "sum" with
  | Raise e =>
      column_normalized_hist2d (λ v, v) x y (BinsN 2) (Some [1; 2; 1; 1; 3]%Q) None "sum"
                               "density" []
      = (Raise e, [])
  | Ok (hist, xedges, yedges) =>
      ∃ H : list (list fl),
        column_normalized_hist2d (λ v, v) x y (BinsN 2) (Some [1; 2; 1; 1; 3]%Q) None "sum"
                                 "density" []
        = (Ok (Some (H, xedges, yedges)), [])
        ∧ length H = (length yedges - 1)%nat
        ∧ ∀ (i : nat) (column : list fl) (S : Q),
            hist !! i = Some column → fsum column = Some S → ¬ (S == 0)%Q →
            ∃ hs : list Q,
              column = Some <$> hs
              ∧ length hs = (length yedges - 1)%nat
              ∧ column_of H i = (λ h, Some (Some (h / S)%Q)) <$> hs
              ∧ (np_sum ((λ h, h / S) <$> hs) == 1)%Q
  end.
Proof.
  apply (density_columns_sum_to_one (λ v, v)
           (array1 [0; 0; 1; 1; 1]%Q) (array1 [0; 1; 0; 1; 1]%Q)
           (BinsN 2) (Some [1; 2; 1; 1; 3]%Q) None "sum" []).
  reflexivity.
Defined.

Section Range.

Variable np_sqrt : Q → Q.

Lemma np_sum_nonneg (l : list Q) :
  Forall (λ w, 0 <= w)%Q l → (0 <= np_sum l)%Q.
Proof.
  induction 1 as [|w l Hw _ IH]; simpl; [done|]. lra.
Qed.

Lemma Forall_in_bin (P : Q → Prop) (f : Q * Q * Q → option Q)
  (pts : list (Q * Q)) (values : list Q) :
  (∀ p v w, f (p, v) = Some w → w = v) →
  Forall P values → Forall P (omap f (zip pts values)).
Proof.
  intros Hf H. revert pts.
  induction H as [|v values Hv _ IH]; intros [|p pts]; simpl;
    try constructor.
  destruct (f (p, v)) as [w|] eqn:E; [|apply IH].
  apply Hf in E as ->. constructor; [done|apply IH].
Qed.

Lemma axis_edges_length (b : bins) (sample : list Q) (range : option (Q * Q))
  (edges : list Q) :
  axis_edges b sample range = Ok edges → (2 ≤ length edges)%nat.
Proof.
  unfold axis_edges. intros H.
  destruct (match range with Some _ => _ | None => _ end) as [r|]; [|done].
  cbn [mbind outcome_bind] in H.
  destruct (match b with BinsInt _ => _ | BinsEdges _ => _ end) as [e|];
    [|done].
  cbn [mbind outcome_bind] in H.
  destruct (Nat.leb_spec 2 (length e)); [|done].
  destruct (increasing true e); [|done]. by injection H as <-.
Qed.

(** The sums of non-negative values are non-negative numbers, and there is
    at least one y bin. *)
Lemma binned_sum_nonneg x y values b range hist xedges yedges :
  Forall (λ w, 0 <= w)%Q values →
  binned_statistic_2d np_sqrt x y values "sum" b range
  = Ok (hist, xedges, yedges) →
  (2 ≤ length yedges)%nat
  ∧ Forall (Forall (λ v, ∃ q, v = Some q ∧ (0 <= q)%Q)) hist.
Proof.
  intros Hvalues. unfold binned_statistic_2d.
  change (known_stats "sum") with (Some StatSum). cbv iota beta.
  intros H.
  destruct (negb _); [done|]. destruct (_ && _); [done|].
  destruct (split_bins b) as [[xbins ybins]|]; [|done]. simpl in H.
  destruct (axis_edges xbins _ _) as [xe|]; [|done]. simpl in H.
  destruct (axis_edges ybins _ _) as [ye|] eqn:Hye; [|done]. simpl in H.
  injection H as <- <- <-.
  split; [by apply axis_edges_length in Hye|].
  apply Forall_fmap, Forall_forall. intros i _.
  apply Forall_fmap, Forall_forall. intros j _. simpl.
  eexists. split; [done|]. apply np_sum_nonneg.
  apply Forall_in_bin; [|done].
  intros [xv yv] v w. destruct (_ && _); congruence.
Qed.

(** The maximum of numbers is one of them and bounds them all. *)
Lemma qmax_spec (v : Q) (l : list Q) :
  qmax v l ∈ v :: l ∧ Forall (λ w, w <= qmax v l)%Q (v :: l).
Proof.
  unfold qmax. revert v. induction l as [|w l IH]; intros v; simpl.
  - split; [left|]. repeat constructor. lra.
  - destruct (Qle_bool v w) eqn:E.
    + apply Qle_bool_imp_le in E.
      destruct (IH w) as [Hin Hall]. split; [by right|].
      apply Forall_cons in Hall as [Hw Hall].
      constructor; [lra|]. by constructor.
    + assert (w <= v)%Q.
      { destruct (Qlt_le_dec v w) as [Hlt|]; [|done].
        apply Qlt_le_weak, Qle_bool_iff in Hlt. congruence. }
      destruct (IH v) as [Hin Hall]. split.
      * apply elem_of_cons in Hin as [->|Hin]; [left|by do 2 right].
      * apply Forall_cons in Hall as [Hv Hall].
        constructor; [done|]. constructor; [lra|done].
Qed.

Lemma fmaximum_numbers (v : Q) (l : list Q) :
  fmaximum (Some <$> v :: l) = Ok (Some (qmax v l)).
Proof.
  unfold fmaximum, qmax. simpl. f_equal. revert v.
  induction l as [|w l IH]; intros v; simpl; [done|]. apply IH.
Qed.

Lemma numbers_of (column : list fl) :
  Forall (λ v, ∃ q, v = Some q ∧ (0 <= q)%Q) column →
  ∃ qs, column = Some <$> qs ∧ Forall (λ q, 0 <= q)%Q qs.
Proof.
  induction 1 as [|v column (q & -> & Hq) _ (qs & -> & Hqs)].
  - by exists [].
  - exists (q :: qs). split; [done|]. by constructor.
Qed.

Lemma qmin_le (v : Q) (l : list Q) : (qmin v l <= v)%Q.
Proof.
  unfold qmin. revert v. induction l as [|w l IH]; intros v; simpl; [lra|].
  destruct (Qle_bool v w) eqn:E; [apply IH|].
  assert (w <= v)%Q.
  { destruct (Qlt_le_dec v w) as [Hlt|]; [|done].
    apply Qlt_le_weak, Qle_bool_iff in Hlt. congruence. }
  specialize (IH w). lra.
Qed.

Lemma widen_lt (lo hi : Q) :
  (lo <= hi)%Q → (fst (widen (lo, hi)) < snd (widen (lo, hi)))%Q.
Proof.
  intros H. unfold widen. simpl.
  destruct (Qeq_bool lo hi) eqn:E; simpl.
  - apply Qeq_bool_eq in E. lra.
  - apply Qeq_bool_neq in E. lra.
Qed.

Lemma of_nat_S (i : nat) : (of_nat (S i) == of_nat i + 1)%Q.
Proof.
  unfold of_nat. rewrite Nat2Z.inj_succ, <- Z.add_1_r, inject_Z_plus. done.
Qed.

Lemma increasing_steps (f : nat → Q) (j m : nat) :
  (∀ i, f i < f (S i))%Q → increasing true (f <$> seq j m) = true.
Proof.
  intros Hf. revert j. induction m as [|m IH]; intros j; [done|].
  simpl. destruct m as [|m]; [done|].
  specialize (IH (S j)). simpl in IH. simpl. rewrite IH.
  destruct (Qle_bool (f (S j)) (f j)) eqn:E; [|done].
  apply Qle_bool_imp_le in E. specialize (Hf j). lra.
Qed.

(** A positive number of bins over a non-empty sample gives valid edges. *)
Lemma axis_edges_bin_count (n : Z) (sample : list Q) :
  (1 ≤ n)%Z → sample ≠ [] →
  ∃ edges, axis_edges (BinsInt n) sample None = Ok edges
           ∧ length edges = (Z.to_nat n + 1)%nat.
Proof.
  intros Hn Hs. unfold axis_edges.
  destruct sample as [|v l]; [done|]. cbn [mbind outcome_bind].
  pose proof (widen_lt (qmin v l) (qmax v l)) as Hlt.
  destruct (widen (qmin v l, qmax v l)) as [smin smax]. simpl in Hlt.
  assert (smin < smax)%Q as Hsm.
  { apply Hlt. pose proof (qmin_le v l).
    destruct (qmax_spec v l) as [_ Hall].
    apply Forall_cons in Hall as [? _]. lra. }
  destruct (Z.ltb_spec n 0); [lia|]. cbn [mbind outcome_bind].
  replace (Z.to_nat n + 1)%nat with (S (S (Z.to_nat n - 1))) by lia.
  unfold linspace.
  set (d := S (Z.to_nat n - 1)).
  rewrite length_fmap, length_seq.
  rewrite increasing_steps.
  - exists ((λ i, smin + of_nat i * ((smax - smin) / of_nat d))%Q
            <$> seq 0 (S d)).
    split; [done|]. by rewrite length_fmap, length_seq.
  - intros i. rewrite of_nat_S.
    assert (0 < (smax - smin) / of_nat d)%Q.
    { apply Qlt_shift_div_l; [|lra].
      unfold of_nat, d. rewrite <- (Zlt_Qlt 0). lia. }
    lra.
Qed.

(** With a number of bins, one-dimensional positions that are not empty and
    the defaults for everything else, the un-normalised histogram exists. *)
Lemma unnormalized_hist2d_returns (x y : ndarray Q) (n : nat) (k : Z)
  (values : option (list Q)) :
  one_dim x n → one_dim y n → (0 < n)%nat → (1 ≤ k)%Z →
  (∀ v, values = Some v → length v = n) →
  ∃ hist xedges yedges,
    unnormalized_hist2d np_sqrt x y (BinsN k) values None "sum"
    = Ok (hist, xedges, yedges)
    ∧ length xedges = (Z.to_nat k + 1)%nat
    ∧ length yedges = (Z.to_nat k + 1)%nat.
Proof.
  intros [Hx Hxn] [Hy Hyn] Hn Hk Hv.
  unfold unnormalized_hist2d, ndim. rewrite Hx. simpl negb. cbv iota.
  unfold binned_statistic_2d.
  change (known_stats "sum") with (Some StatSum). cbv iota beta.
  rewrite Hxn, Hyn, Nat.eqb_refl. simpl negb. cbv iota.
  assert (length (match values with
                  | Some values => values
                  | None => (λ _, 1%Q) <$> data x
                  end) = n) as ->.
  { destruct values; [by apply Hv|]. by rewrite length_fmap. }
  rewrite Nat.eqb_refl, andb_false_r.
  cbn [split_bins mbind outcome_bind fmap option_fmap option_map].
  destruct (axis_edges_bin_count k (data x) Hk) as (xe & -> & Hxe).
  { intros E. rewrite E in Hxn. simpl in Hxn. lia. }
  destruct (axis_edges_bin_count k (data y) Hk) as (ye & -> & Hye).
  { intros E. rewrite E in Hyn. simpl in Hyn. lia. }
  cbn [mbind outcome_bind]. eauto 10.
Qed.

(** C6. For position arrays [x] and [y] of the same shape and any bin
    specification, [column_normalized_hist2d] with [normalization="range"]
    returns the histogram, of shape (ny, nx), in which at every x bin whose
    un-normalised column maximum [m] is positive the values are the
    un-normalised values divided by [m] (so the smallest is not moved to
    zero): all lie between 0 and 1 and the largest is exactly one.  The
    histogram is the default one, the sum of [values] which are left out (a
    count) or not negative.  The function returns whenever
    [binned_statistic_2d] does, with the same edges; it raises what that call
    raises. *)
Theorem range_columns_max_is_one (x y : ndarray Q) (bins : bins2d)
  (values : option (list Q)) (ranges : option ((Q * Q) * (Q * Q)))
  (log : list log_record) :
  shape x = shape y →
  (∀ v, values = Some v → Forall (λ w, 0 <= w)%Q v) →
  match unnormalized_hist2d np_sqrt x y bins values ranges "sum" with
  | Raise e =>
      column_normalized_hist2d np_sqrt x y bins values ranges "sum"
                               "range" log
      = (Raise e, log)
  | Ok (hist, xedges, yedges) =>
      ∃ H : list (list fl),
        column_normalized_hist2d np_sqrt x y bins values ranges "sum"
                                 "range" log
        = (Ok (Some (H, xedges, yedges)), log)
        ∧ length H = (length yedges - 1)%nat
        ∧ ∀ (i : nat) (column : list fl) (m : Q),
            hist !! i = Some column → fmaximum column = Ok (Some m) →
            (0 < m)%Q →
            ∃ hs : list Q,
              column = Some <$> hs
              ∧ length hs = (length yedges - 1)%nat
              ∧ column_of H i = (λ h, Some (Some (h / m)%Q)) <$> hs
              ∧ Forall (λ h, 0 <= h / m ∧ h / m <= 1)%Q hs
              ∧ Exists (λ h, h / m == 1)%Q hs
  end.
Proof.
  intros Hshape Hvalues.
  unfold column_normalized_hist2d, unnormalized_hist2d.
  rewrite bool_decide_eq_true_2 by done. cbn [negb].
  destruct (negb (ndim x =? 1)%nat); [done|].
  destruct (binned_statistic_2d _ _ _ _ _ _ _) as [[[hist xedges] yedges]|e]
    eqn:Hcall; [|done].
  pose proof Hcall as Hsum.
  apply binned_statistic_2d_shape in Hcall as [Hnx Hny].
  apply binned_sum_nonneg in Hsum as [Hye Hnum];
    [|destruct values; [by apply Hvalues|];
      apply Forall_fmap, Forall_forall; intros; simpl; lra].
  set (g := λ r : list fl, match r with [] => NaN | v :: l => foldl fmax v l end).
  unfold lift, mbind, M_bind, mret, M_ret.
  change ("range" =? "density")%string with false.
  change ("range" =? "range")%string with true.
  cbv beta iota.
  rewrite (mapM_outcome _ g).
  2: { intros r Hr. apply (proj1 (Forall_forall _ _) Hny) in Hr.
       destruct r; [simpl in Hr; lia|done]. }
  eexists. split; [done|]. split; [apply length_transpose|].
  intros i column m Hi Hm Hpos.
  destruct (numbers_of column) as (hs & -> & Hhs);
    [by apply (proj1 (Forall_lookup _ _) Hnum i)|].
  destruct hs as [|h0 hs]; [done|].
  rewrite fmaximum_numbers in Hm. injection Hm as <-.
  destruct (qmax_spec h0 hs) as [Hin Hall].
  set (m := qmax h0 hs) in *.
  assert (Hm0 : ¬ (m == 0)%Q) by lra.
  exists (h0 :: hs). split; [done|].
  split; [|split; [|split]].
  - apply (proj1 (Forall_lookup _ _) Hny) in Hi.
    by rewrite length_fmap in Hi.
  - unfold column_of.
    erewrite transpose_column;
      [|by apply Forall_length_normalized
       |apply lookup_normalized; [done|by rewrite list_lookup_fmap, Hi]].
    assert (Hg : g (Some <$> h0 :: hs) = Some m).
    { pose proof (fmaximum_numbers h0 hs) as E.
      change (fmaximum (Some <$> h0 :: hs))
        with (Ok (g (Some <$> h0 :: hs))) in E.
      by injection E. }
    rewrite Hg.
    rewrite <- !list_fmap_compose.
    apply list_fmap_ext. intros _ q _. unfold compose.
    by rewrite fdiv_number.
  - apply Forall_forall. intros h Hh.
    apply (proj1 (Forall_forall _ _) Hhs) in Hh as Hh0.
    apply (proj1 (Forall_forall _ _) Hall) in Hh as Hh1.
    split.
    + apply Qle_shift_div_l; [done|]. lra.
    + apply Qle_shift_div_r; [done|]. lra.
  - apply Exists_exists. exists m. split; [done|]. by field.
Qed.

End Range.

(** Five weighted points on a grid of two by two bins. *)
Lemma range_columns_max_is_one_witness :
  let x := array1 [0; 0; 1; 1; 1]%Q in
  let y := array1 [0; 1; 0; 1; 1]%Q in
  match unnormalized_hist2d (λ v, v) x y (BinsN 2) (Some [1; 2; 1; 1; 3]%Q) None "sum" with
  | Raise e =>
      column_normalized_hist2d (λ v, v) x y (BinsN 2) (Some [1; 2; 1; 1; 3]%Q) None "sum"
                               "range" []
      = (Raise e, [])
  | Ok (hist, xedges, yedges) =>
      ∃ H : list (list fl),
        column_normalized_hist2d (λ v, v) x y (BinsN 2) (Some [1; 2; 1; 1; 3]%Q) None "sum"
                                 "range" []
        = (Ok (Some (H, xedges, yedges)), [])
        ∧ length H = (length yedges - 1)%nat
        ∧ ∀ (i : nat) (column : list fl) (m : Q),
            hist !! i = Some column → fmaximum column = Ok (Some m) →
            (0 < m)%Q →
            ∃ hs : list Q,
              column = Some <$> hs
              ∧ length hs = (length yedges - 1)%nat
              ∧ column_of H i = (λ h, Some (Some (h / m)%Q)) <$> hs
              ∧ Forall (λ h, 0 <= h / m ∧ h / m <= 1)%Q hs
              ∧ Exists (λ h, h / m == 1)%Q hs
  end.
Proof.
  apply (range_columns_max_is_one (λ v, v)
           (array1 [0; 0; 1; 1; 1]%Q) (array1 [0; 1; 0; 1; 1]%Q)
           (BinsN 2) (Some [1; 2; 1; 1; 3]%Q) None []).
  - reflexivity.
  - intros v Hv. injection Hv as <-. repeat constructor; discriminate.
Defined.

Section RadialProfile.

Local Open Scope Q_scope.

(** C1 (the code departs from it).  The docstring promises the weighted sum
    of every radial bin divided by the volume of the shell between the edges
    of that bin.  The code takes the differences of cubes of consecutive
    entries of [radial_distances] instead of consecutive edges.  For the
    distances 3, 1, 2 with unit weights in two bins the edges are 1, 2, 3 and
    the sums are 1 and 2; the code divides them by 4/3 pi (1 - 27) and
    4/3 pi (8 - 1), the documented profile by 4/3 pi (8 - 1) and
    4/3 pi (27 - 8).  With four distances and two bins the division of two
    sums by three volumes cannot be broadcast and the call raises. *)
Theorem volume_normalized_radial_profile_divides_by_distances :
  (∃ hist edges profile,
     histogram [3; 1; 2] (BinsInt 2) [1; 1; 1] = Ok (hist, edges)
     ∧ volume_normalized_radial_profile [3; 1; 2] [1; 1; 1] (BinsInt 2)
       = Ok (profile, edges)
     ∧ Forall2 Qeq edges [1; 2; 3]
     ∧ Forall2 Qeq hist [1; 2]
     ∧ same_numbers profile
         [Some (1 / (4 / 3 * pi * (1 - 27))); Some (2 / (4 / 3 * pi * (8 - 1)))]
     ∧ same_numbers (documented_profile hist edges)
         [Some (1 / (4 / 3 * pi * (8 - 1))); Some (2 / (4 / 3 * pi * (27 - 8)))]
     ∧ ¬ same_numbers profile (documented_profile hist edges))
  ∧ volume_normalized_radial_profile [1; 2; 3; 4] [1; 1; 1; 1] (BinsInt 2)
    = Raise ValueError.
Proof.
  split; [|reflexivity].
  eexists _, _, _. split; [reflexivity|]. split; [reflexivity|].
  repeat split.
  - repeat constructor.
  - repeat constructor.
  - repeat constructor.
  - repeat constructor.
  - intros H. apply Forall2_cons_1 in H as [H _].
    inversion H as [p d Hpd| ]; subst. revert Hpd. vm_compute. discriminate.
Qed.

End RadialProfile.

Section SelectIfIn.

Implicit Types (a s : list Z) (v w : Z) (i j : nat).

Lemma first_index_Some a v i :
  first_index a v = Some i
  ↔ a !! i = Some v ∧ ∀ j, (j < i)%nat → a !! j ≠ Some v.
Proof.
  unfold first_index. split.
  - intros H. destruct (list_find _ a) as [[i' w]|] eqn:E; [|done].
    simpl in H. injection H as ->.
    apply list_find_Some in E as (Hi & -> & Hfirst).
    split; [done|]. intros j Hj Hv. by apply (Hfirst j v).
  - intros [Hi Hfirst].
    assert (E : list_find (λ w, w = v) a = Some (i, v)).
    { apply list_find_Some. split; [done|]. split; [done|].
      intros j w Hj Hlt ->. by apply (Hfirst j). }
    by rewrite E.
Qed.

Lemma first_index_elem_of a v i : first_index a v = Some i → a !! i = Some v.
Proof. intros H. by apply first_index_Some in H as [? _]. Qed.

Lemma first_index_NoDup a v i :
  NoDup a → a !! i = Some v → first_index a v = Some i.
Proof.
  intros Ha Hi. apply first_index_Some. split; [done|].
  intros j Hj Hv. pose proof (NoDup_lookup _ _ _ _ Ha Hi Hv). lia.
Qed.

Lemma elem_of_zip_seq {X} (l : list X) (i : nat) (x : X) :
  (i, x) ∈ zip (seq 0 (length l)) l ↔ l !! i = Some x.
Proof.
  rewrite list_elem_of_lookup. split.
  - intros [k Hk]. apply lookup_zip_Some in Hk as [Hs Hx].
    apply lookup_seq in Hs as [-> _]. done.
  - intros Hx. exists i. apply lookup_zip_Some. split; [|done].
    apply lookup_seq. split; [done|]. by apply lookup_lt_Some in Hx.
Qed.

Lemma elem_of_select_iterate a s i :
  i ∈ select_iterate a s ↔ ∃ v, a !! i = Some v ∧ v ∈ s.
Proof.
  unfold select_iterate. rewrite list_elem_of_fmap. split.
  - intros [[i' v] [-> H]]. apply list_elem_of_filter in H as [Hs H].
    apply elem_of_zip_seq in H. by exists v.
  - intros (v & Hi & Hs). exists (i, v). split; [done|].
    apply list_elem_of_filter. split; [done|]. by apply elem_of_zip_seq.
Qed.

Lemma elem_of_insert_unique v w l :
  w ∈ insert_unique v l ↔ w = v ∨ w ∈ l.
Proof.
  induction l as [|x l IH]; simpl.
  - rewrite list_elem_of_singleton, elem_of_nil. tauto.
  - destruct (Z.ltb_spec v x); [by rewrite elem_of_cons|].
    destruct (Z.eqb_spec v x) as [->|].
    + rewrite elem_of_cons. tauto.
    + rewrite !elem_of_cons, IH. tauto.
Qed.

Lemma elem_of_unique l w : w ∈ unique l ↔ w ∈ l.
Proof.
  induction l as [|x l IH]; simpl; [done|].
  unfold unique in *. simpl. rewrite elem_of_insert_unique, IH.
  rewrite elem_of_cons. tauto.
Qed.

Lemma insert_unique_sorted v l :
  StronglySorted Z.lt l → StronglySorted Z.lt (insert_unique v l).
Proof.
  induction 1 as [|x l Hl IH Hx]; simpl; [repeat constructor|].
  destruct (Z.ltb_spec v x).
  - constructor; [by constructor|]. constructor; [done|].
    eapply Forall_impl; [done|]. simpl. lia.
  - destruct (Z.eqb_spec v x); [by constructor|].
    constructor; [done|]. apply Forall_forall. intros w Hw.
    apply elem_of_insert_unique in Hw as [->|Hw]; [lia|].
    by apply (proj1 (Forall_forall _ _) Hx).
Qed.

Lemma unique_sorted l : StronglySorted Z.lt (unique l).
Proof.
  induction l as [|x l IH]; [constructor|].
  by apply insert_unique_sorted.
Qed.

Lemma unique_of_sorted l : StronglySorted Z.lt l → unique l = l.
Proof.
  induction 1 as [|x l Hl IH Hx]; [done|].
  unfold unique in *. simpl. rewrite IH.
  destruct l as [|y l]; [done|]. simpl.
  apply Forall_cons in Hx as [Hxy _].
  by destruct (Z.ltb_spec x y); [|lia].
Qed.

Lemma sorted_NoDup l : StronglySorted Z.lt l → NoDup l.
Proof.
  induction 1 as [|x l Hl IH Hx]; constructor; [|done].
  intros Hin. apply (proj1 (Forall_forall _ _) Hx) in Hin. lia.
Qed.

Lemma sorted_filter (P : Z → Prop) `{∀ x, Decision (P x)} l :
  StronglySorted Z.lt l → StronglySorted Z.lt (filter P l).
Proof.
  induction 1 as [|x l Hl IH Hx]; [constructor|].
  rewrite filter_cons. destruct (decide (P x)); [|done].
  constructor; [done|]. apply Forall_forall. intros w Hw.
  apply list_elem_of_filter in Hw as [_ Hw].
  by apply (proj1 (Forall_forall _ _) Hx).
Qed.

Lemma elem_of_select_searchsort a s i :
  i ∈ select_searchsort a s ↔ ∃ v, v ∈ s ∧ first_index a v = Some i.
Proof. apply list_elem_of_omap. Qed.

Lemma elem_of_select_intersect a s i :
  i ∈ select_intersect a s ↔ ∃ v, v ∈ s ∧ first_index a v = Some i.
Proof.
  unfold select_intersect. rewrite list_elem_of_omap. split.
  - intros (v & Hv & Hi). exists v. split; [|done].
    apply elem_of_unique, list_elem_of_filter in Hv. tauto.
  - intros (v & Hv & Hi). exists v. split; [|done].
    apply elem_of_unique, list_elem_of_filter. split; [done|].
    apply first_index_elem_of in Hi. by eapply list_elem_of_lookup_2.
Qed.

(** Without duplicates in [a], the scan finds every kept element at its
    first and only position. *)
Lemma select_iterate_first_indices a s :
  NoDup a → select_iterate a s = omap (first_index a) (filter (λ v, v ∈ s) a).
Proof.
  intros Ha. unfold select_iterate.
  change a with ([] ++ a) at 3. change 0%nat with (length (@nil Z)).
  revert Ha. change a with ([] ++ a) at 1.
  generalize (@nil Z) as pre. induction a as [|x a IH]; intros pre Hnd.
  { done. }
  simpl. rewrite !filter_cons. simpl.
  assert (Hx : first_index (pre ++ x :: a) x = Some (length pre)).
  { apply first_index_NoDup; [done|]. by rewrite list_lookup_middle. }
  specialize (IH (pre ++ [x])).
  rewrite <- !app_assoc, length_app in IH. simpl in IH.
  rewrite Nat.add_1_r in IH.
  destruct (decide (x ∈ s)); csimpl; rewrite ?Hx; rewrite IH by done; done.
Qed.

Lemma NoDup_omap_first_index a l :
  NoDup l → NoDup (omap (first_index a) l).
Proof.
  induction 1 as [|x l Hx Hl IH]; csimpl; [constructor|].
  destruct (first_index a x) as [i|] eqn:E; [|done].
  constructor; [|done]. intros Hin.
  apply list_elem_of_omap in Hin as (y & Hy & Ey).
  apply first_index_elem_of in E, Ey. congruence.
Qed.

(** Indexing [a] with the result of the sorted search gives back [s]. *)
Lemma select_searchsort_order a s :
  Forall (λ v, v ∈ a) s →
  (λ i, a !! i) <$> select_searchsort a s = Some <$> s.
Proof.
  unfold select_searchsort.
  induction 1 as [|v s Hv _ IH]; [done|]. csimpl.
  destruct (first_index a v) as [i|] eqn:E.
  - csimpl. rewrite IH. by rewrite (first_index_elem_of _ _ _ E).
  - unfold first_index in E.
    destruct (list_find_elem_of (λ w, w = v) a v Hv eq_refl) as [p Hp].
    by rewrite Hp in E.
Qed.

End SelectIfIn.

Section SelectionModes.

Implicit Types (a s : list Z) (log : list log_record).

(** C7. In mode ["iterate"] [select_if_in] returns every index [i] with
    [a[i]] in [s], so all the indices of a value that [a] repeats.  In the
    modes ["searchsort"] and ["intersect"] it returns the indices at which a
    value of [a] that is in [s] occurs for the first time, and no other: of
    two positions [i < j] of [a] holding the same value of [s], [j] is
    returned by ["iterate"] only. *)
Theorem select_if_in_duplicates a s log :
  ∃ iterate searchsort intersect : list nat,
    select_if_in a s "iterate" log = (Ok (Indices iterate), log)
    ∧ select_if_in a s "searchsort" log = (Ok (Indices searchsort), log)
    ∧ select_if_in a s "intersect" log = (Ok (Indices intersect), log)
    ∧ (∀ i, i ∈ iterate ↔ ∃ v, a !! i = Some v ∧ v ∈ s)
    ∧ (∀ i, i ∈ searchsort
            ↔ ∃ v, a !! i = Some v ∧ v ∈ s
                   ∧ ∀ j, (j < i)%nat → a !! j ≠ Some v)
    ∧ (∀ i, i ∈ intersect
            ↔ ∃ v, a !! i = Some v ∧ v ∈ s
                   ∧ ∀ j, (j < i)%nat → a !! j ≠ Some v)
    ∧ (∀ i j v, (i < j)%nat → a !! i = Some v → a !! j = Some v → v ∈ s →
                j ∈ iterate ∧ (j ∉ searchsort) ∧ (j ∉ intersect)).
Proof.
  exists (select_iterate a s), (select_searchsort a s), (select_intersect a s).
  assert (Hfirst : ∀ i, (∃ v, v ∈ s ∧ first_index a v = Some i)
                        ↔ ∃ v, a !! i = Some v ∧ v ∈ s
                               ∧ ∀ j, (j < i)%nat → a !! j ≠ Some v).
  { intros i. split; intros (v & H1 & H2); exists v.
    - apply first_index_Some in H2. tauto.
    - split; [tauto|]. apply first_index_Some. tauto. }
  split; [done|]. split; [done|]. split; [done|].
  split; [apply elem_of_select_iterate|].
  split; [intros i; by rewrite elem_of_select_searchsort|].
  split; [intros i; by rewrite elem_of_select_intersect|].
  intros i j v Hij Hi Hj Hv. split; [|split].
  - apply elem_of_select_iterate. by exists v.
  - rewrite elem_of_select_searchsort, Hfirst.
    intros (w & Hw & _ & Hnone). rewrite Hj in Hw. injection Hw as <-.
    by apply (Hnone i).
  - rewrite elem_of_select_intersect, Hfirst.
    intros (w & Hw & _ & Hnone). rewrite Hj in Hw. injection Hw as <-.
    by apply (Hnone i).
Qed.

(** C2 as stated fails.  [a] is 1 to 9, sorted and without duplicates, and
    every element of [s] is in [a]; yet ["searchsort"] returns an index once
    per occurrence in [s] and in the order of [s], so that its result is not
    a reordering of the result of ["iterate"] when [s] repeats an element,
    and differs from it when [s] is not sorted. *)
Lemma select_if_in_modes_disagree_on_sorted_a :
  let a := [1; 2; 3; 4; 5; 6; 7; 8; 9]%Z in
  NoDup a ∧ ascending a
  ∧ (Forall (λ v, v ∈ a) [1; 3; 5; 1]%Z
     ∧ select_if_in a [1; 3; 5; 1]%Z "iterate" []
       = (Ok (Indices [0; 2; 4]%nat), [])
     ∧ select_if_in a [1; 3; 5; 1]%Z "searchsort" []
       = (Ok (Indices [0; 2; 4; 0]%nat), [])
     ∧ ¬ ([0; 2; 4; 0]%nat ≡ₚ [0; 2; 4]%nat))
  ∧ (Forall (λ v, v ∈ a) [3; 1]%Z
     ∧ select_if_in a [3; 1]%Z "iterate" [] = (Ok (Indices [0; 2]%nat), [])
     ∧ select_if_in a [3; 1]%Z "searchsort" []
       = (Ok (Indices [2; 0]%nat), [])).
Proof.
  intros a. split; [|split; [|split]].
  - apply (bool_decide_unpack _). by vm_compute.
  - unfold ascending, a. repeat constructor.
  - split; [repeat constructor|]. split; [done|]. split; [done|].
    intros H. by apply Permutation_length in H.
  - split; [repeat constructor|]. done.
Qed.

(** C2, amended.  For [a] without duplicates and [s] with all its elements
    in [a], each of the three modes returns an index array whose elements
    are exactly the indices [i] with [a[i]] in [s].  ["iterate"] and
    ["intersect"] return each of them once (their results have no
    duplicates) and differ only in their order.  ["searchsort"] returns one
    index for every element of [s], in the order of [s] ([a[result]] is
    [s]): when [s] has no duplicates it returns each index once as well and
    differs from the others only in order.  ["intersect"] agrees with ["iterate"] when
    [a] is sorted ascending, ["searchsort"] when [s] is sorted ascending as
    well. *)
Theorem select_if_in_unique_a a s log :
  NoDup a → Forall (λ v, v ∈ a) s →
  ∃ iterate intersect searchsort : list nat,
    select_if_in a s "iterate" log = (Ok (Indices iterate), log)
    ∧ select_if_in a s "intersect" log = (Ok (Indices intersect), log)
    ∧ select_if_in a s "searchsort" log = (Ok (Indices searchsort), log)
    ∧ (∀ i, i ∈ iterate ↔ ∃ v, a !! i = Some v ∧ v ∈ s)
    ∧ (∀ i, i ∈ intersect ↔ ∃ v, a !! i = Some v ∧ v ∈ s)
    ∧ (∀ i, i ∈ searchsort ↔ ∃ v, a !! i = Some v ∧ v ∈ s)
    ∧ NoDup iterate
    ∧ NoDup intersect
    ∧ intersect ≡ₚ iterate
    ∧ length searchsort = length s
    ∧ (λ i, a !! i) <$> searchsort = Some <$> s
    ∧ (NoDup s → NoDup searchsort ∧ searchsort ≡ₚ iterate)
    ∧ (ascending a →
       intersect = iterate ∧ (ascending s → searchsort = iterate)).
Proof.
  intros Ha Hs.
  exists (select_iterate a s), (select_intersect a s), (select_searchsort a s).
  assert (Hfirst : ∀ i, (∃ v, v ∈ s ∧ first_index a v = Some i)
                        ↔ ∃ v, a !! i = Some v ∧ v ∈ s).
  { intros i. split; intros (v & H1 & H2); exists v.
    - split; [by apply first_index_elem_of|done].
    - split; [done|]. by apply first_index_NoDup. }
  assert (Hit : ∀ i, i ∈ select_iterate a s ↔ ∃ v, a !! i = Some v ∧ v ∈ s)
    by apply elem_of_select_iterate.
  assert (Hin : ∀ i, i ∈ select_intersect a s ↔ ∃ v, a !! i = Some v ∧ v ∈ s)
    by (intros i; by rewrite elem_of_select_intersect).
  assert (Hss : ∀ i, i ∈ select_searchsort a s ↔ ∃ v, a !! i = Some v ∧ v ∈ s)
    by (intros i; by rewrite elem_of_select_searchsort).
  assert (Hnd : NoDup (select_iterate a s)).
  { rewrite select_iterate_first_indices by done.
    by apply NoDup_omap_first_index, NoDup_filter. }
  assert (Hndi : NoDup (select_intersect a s))
    by apply NoDup_omap_first_index, sorted_NoDup, unique_sorted.
  assert (Horder : (λ i, a !! i) <$> select_searchsort a s = Some <$> s)
    by by apply select_searchsort_order.
  do 3 (split; [done|]). do 3 (split; [done|]).
  split; [done|]. split; [done|].
  split; [|split; [|split; [|split]]].
  - apply NoDup_Permutation; [done|done|intros i; by rewrite Hin, Hit].
  - apply (f_equal length) in Horder. by rewrite !length_fmap in Horder.
  - done.
  - intros Hsnd.
    assert (Hnds : NoDup (select_searchsort a s))
      by by apply NoDup_omap_first_index.
    split; [done|].
    apply NoDup_Permutation; [done|done|intros i; by rewrite Hss, Hit].
  - intros Hasc. split.
    + unfold select_intersect.
      rewrite unique_of_sorted by by apply sorted_filter.
      by rewrite select_iterate_first_indices.
    + intros Hsasc. rewrite select_iterate_first_indices by done.
      unfold select_searchsort. f_equal.
      apply (StronglySorted_unique_strong Z.lt).
      * intros; lia.
      * done.
      * by apply sorted_filter.
      * apply NoDup_Permutation;
          [by apply sorted_NoDup|by apply NoDup_filter|].
        intros v. rewrite list_elem_of_filter. split; [|tauto].
        intros Hv. split; [done|].
        by apply (proj1 (Forall_forall _ _) Hs).
Qed.

End SelectionModes.

(** The arrays of [test_select_if_in_s_is_subset_of_a]: [a] and [s] are
    sorted and without duplicates. *)
Lemma select_if_in_unique_a_witness :
  let a := [1; 2; 3; 4; 5; 6; 7; 8; 9]%Z in
  let s := [2; 4; 6]%Z in
  ∃ iterate intersect searchsort : list nat,
    select_if_in a s "iterate" [] = (Ok (Indices iterate), [])
    ∧ select_if_in a s "intersect" [] = (Ok (Indices intersect), [])
    ∧ select_if_in a s "searchsort" [] = (Ok (Indices searchsort), [])
    ∧ (∀ i, i ∈ iterate ↔ ∃ v, a !! i = Some v ∧ v ∈ s)
    ∧ (∀ i, i ∈ intersect ↔ ∃ v, a !! i = Some v ∧ v ∈ s)
    ∧ (∀ i, i ∈ searchsort ↔ ∃ v, a !! i = Some v ∧ v ∈ s)
    ∧ NoDup iterate
    ∧ NoDup intersect
    ∧ intersect ≡ₚ iterate
    ∧ length searchsort = length s
    ∧ (λ i, a !! i) <$> searchsort = Some <$> s
    ∧ (NoDup s → NoDup searchsort ∧ searchsort ≡ₚ iterate)
    ∧ (ascending a →
       intersect = iterate ∧ (ascending s → searchsort = iterate)).
Proof.
  apply (select_if_in_unique_a [1; 2; 3; 4; 5; 6; 7; 8; 9]%Z [2; 4; 6]%Z []).
  - apply (bool_decide_unpack _). vm_compute. exact I.
  - repeat constructor.
Defined.

(* ===================================================================== *)
(** * The cases of tests/test_selection.py, run on the model *)
(* ===================================================================== *)

Section TestSelection.

Example test_select_if_in_s_is_subset_of_a :
  let a := [1; 2; 3; 4; 5; 6; 7; 8; 9]%Z in
  let s := [2; 4; 6]%Z in
  select_if_in a s "iterate" [] = (Ok (Indices [1; 3; 5]), [])
  ∧ select_if_in a s "intersect" [] = (Ok (Indices [1; 3; 5]), [])
  ∧ select_if_in a s "searchsort" [] = (Ok (Indices [1; 3; 5]), []).
Proof. by vm_compute. Qed.

Example test_select_if_in_s_is_not_subset_of_a :
  let a := [1; 2; 3; 4; 5; 6; 7; 8; 9]%Z in
  let s := [2; 4; 0]%Z in
  select_if_in a s "iterate" [] = (Ok (Indices [1; 3]), [])
  ∧ select_if_in a s "intersect" [] = (Ok (Indices [1; 3]), [])
  ∧ select_if_in a s "searchsort" [] = (Ok (Indices [1; 3]), []).
Proof. by vm_compute. Qed.

Example test_select_if_in_a_is_not_unique_s_is_subset :
  let a := [1; 1; 1; 2; 3; 3; 4; 5; 5; 5; 6; 7; 8; 9; 9]%Z in
  let s := [1; 2; 5]%Z in
  select_if_in a s "iterate" [] = (Ok (Indices [0; 1; 2; 3; 7; 8; 9]), [])
  ∧ select_if_in a s "searchsort" [] = (Ok (Indices [0; 3; 7]), [])
  ∧ select_if_in a s "intersect" [] = (Ok (Indices [0; 3; 7]), []).
Proof. by vm_compute. Qed.

Example test_select_if_in_a_is_not_unique_s_is_not_subset :
  let a := [1; 1; 1; 2; 3; 3; 4; 5; 5; 5; 6; 7; 8; 9; 9]%Z in
  let s := [1; 2; 5; 0]%Z in
  select_if_in a s "iterate" [] = (Ok (Indices [0; 1; 2; 3; 7; 8; 9]), [])
  ∧ select_if_in a s "searchsort" [] = (Ok (Indices [0; 3; 7]), []).
Proof. by vm_compute. Qed.

Example test_select_if_in_with_unsorted_input :
  let a := [0; 6; 8; 2; 3; 1; 4; 7; 9]%Z in
  let s := [1; 8; 0]%Z in
  select_if_in a s "iterate" [] = (Ok (Indices [0; 2; 5]), [])
  ∧ select_if_in a s "intersect" [] = (Ok (Indices [0; 5; 2]), [])
  ∧ select_if_in a s "searchsort" [] = (Ok (Indices [5; 2; 0]), []).
Proof. by vm_compute. Qed.

Example test_select_if_in_unknown_mode :
  select_if_in [1; 2; 3; 4; 5]%Z [2; 4]%Z "notamode" []
  = (Ok NanArray,
     [LogRecord ERROR
        "Unsupported mode notamode for `selection.select_if_in`."]).
Proof. by vm_compute. Qed.

Example test_select_if_in_s_not_unique :
  let a := [1; 2; 3; 4; 5; 6; 7; 8; 9]%Z in
  let s := [1; 3; 5; 1]%Z in
  select_if_in a s "iterate" [] = (Ok (Indices [0; 2; 4]), [])
  ∧ select_if_in a s "intersect" [] = (Ok (Indices [0; 2; 4]), [])
  ∧ select_if_in a s "searchsort" [] = (Ok (Indices [0; 2; 4; 0]), []).
Proof. by vm_compute. Qed.

Example test_select_if_in_s_and_a_not_unique :
  let a := [1; 1; 1; 2; 3; 4; 5; 5; 6; 7; 7; 7; 8; 9; 9]%Z in
  ∀ s, s = [1; 3; 5; 1]%Z ∨ s = [1; 3; 5; 1; 0]%Z →
  select_if_in a s "iterate" [] = (Ok (Indices [0; 1; 2; 4; 6; 7]), [])
  ∧ select_if_in a s "intersect" [] = (Ok (Indices [0; 4; 6]), [])
  ∧ select_if_in a s "searchsort" [] = (Ok (Indices [0; 4; 6; 0]), []).
Proof. intros a s [-> | ->]; by vm_compute. Qed.

Example test_select_if_in_with_assume_subset_s_subset :
  let a := [1; 4; 2; 6; 7; 3; 9; 5; 8]%Z in
  let s := [4; 8; 2]%Z in
  select_if_in a s "iterate" [] = (Ok (Indices [1; 2; 8]), [])
  ∧ select_if_in a s "intersect" [] = (Ok (Indices [2; 1; 8]), [])
  ∧ select_if_in a s "searchsort" [] = (Ok (Indices [1; 8; 2]), []).
Proof. by vm_compute. Qed.

End TestSelection.

(* ===================================================================== *)
(** * Runs of the statistics functions *)
(* ===================================================================== *)

Section Runs.

Local Open Scope Q_scope.

(** Six values, one of them [nan], in three bins; position 3 is below the
    range. *)
Example run_bin_quantity :
  bin_quantity (array1 [Some 1; Some 2; Some 3; Some 5; None; Some 7])
               (array1 [1; 2; 1; 0; 2; 3]%Z) (-1)
  = Ok [array1 [Some 1; Some 3]; array1 [Some 2; None]; array1 [Some 7]].
Proof. reflexivity. Qed.

Example run_get_binned_medians :
  get_binned_medians
    (array1 [Some 1; Some 2; Some 3; Some 5; None; Some 7])
    (array1 [1; 2; 1; 0; 2; 3]%Z) 2 []
  = (Ok (Some (NDArray [3; 2]%nat
                 [Some (4 # 2); Some 2;
                  Some (136 # 200); Some 0.00;
                  Some (136 # 200); Some 0.00])), []).
Proof. reflexivity. Qed.

Example run_percentile :
  percentile [1; 2; 3; 4; 5; 6; 7; 8; 9; 10] 16 = Some 2.44
  ∧ median [1; 2; 3; 4; 5; 6; 7; 8; 9; 10] = Some (11 # 2).
Proof. split; reflexivity. Qed.

(** A zero-width inner shape is refused by [reshape(-1, 0)]. *)
Example run_mask_quantity_zero_width :
  mask_quantity (NDArray [1; 0]%nat ([] : list Q)) (array1 [0%Z]) 0 true
  = Raise ValueError.
Proof. reflexivity. Qed.

(** Without a given number of bins an empty mask has no maximum. *)
Example run_get_binned_averages_empty :
  get_binned_averages (λ v, v) (array1 []) (array1 []) (-1) []
  = (Raise ValueError, []).
Proof. reflexivity. Qed.

Example run_column_normalized_hist2d :
  column_normalized_hist2d (λ v, v)
    (array1 [0; 0; 1; 1; 1]) (array1 [0; 1; 0; 1; 1])
    (BinsArrays [0; 1; 2; 3] [0; 1; 2]) None None "sum" "range" []
  = (Ok (Some ([[Some 1; Some (1 # 2); None]; [Some 1; Some (2 # 2); None]],
               [0; 1; 2; 3], [0; 1; 2])), []).
Proof. reflexivity. Qed.

Example run_column_normalized_hist2d_unsupported :
  column_normalized_hist2d (λ v, v)
    (array1 [0; 0; 1; 1; 1]) (array1 [0; 1; 0; 1; 1])
    (BinsN 2) None None "sum" "max" []
  = (Raise (RuntimeError "Unsupported normalization max."), []).
Proof. reflexivity. Qed.

(** Three histograms of two temperature bins in two mass bins; the second
    histogram has an invalid entry. *)
Example run_stack_histograms_per_mass_bin :
  stack_histograms_per_mass_bin
    (NDArray [3; 2]%nat [Some 1; Some 2; Some 3; None; Some 5; Some 6])
    2 (array1 [1; 2; 1]%Z) []
  = (Ok (Some (NDArray [2; 2]%nat [Some (6 # 2); Some (8 # 2); Some 3; None],
               NDArray [2; 2]%nat [Some (6 # 2); Some (8 # 2); Some 3; None],
               NDArray [2; 2; 2]%nat
                 [Some 1.64; Some 2.64; Some 4.36; Some 5.36;
                  Some 3.00; None; Some 3.00; None])),
     [LogRecord INFO "Start post-processing of data (stacking hists).";
      LogRecord DEBUG "Empty halos in mass bin 0: 0";
      LogRecord DEBUG "Empty halos in mass bin 1: 1";
      LogRecord INFO "Finished post-processing data."]).
Proof. reflexivity. Qed.

End Runs.

(* ===================================================================== *)
(** * Digitized masses *)
(* ===================================================================== *)

Section Digitize.

Lemma increasing_cons (b : Q) (l : list Q) :
  increasing false (b :: l) = true →
  Forall (λ c, b <= c)%Q l ∧ increasing false l = true.
Proof.
  revert b. induction l as [|c l IH]; intros b H; [by split|].
  simpl in H. apply andb_prop in H as [Hbc Hl].
  apply Qle_bool_iff in Hbc.
  destruct (IH c Hl) as [Hall _]. split; [|done].
  constructor; [done|]. eapply Forall_impl; [done|]. simpl. intros d ?. lra.
Qed.

Lemma filter_above_nil (b v : Q) (l : list Q) :
  ¬ (b <= v)%Q → Forall (λ c, b <= c)%Q l →
  filter (λ c, Qle_bool c v = true) l = [].
Proof.
  intros Hb. induction 1 as [|c l Hc _ IH]; [done|].
  rewrite filter_cons, IH. destruct (decide _) as [E|]; [|done].
  apply Qle_bool_iff in E. lra.
Qed.

(** On edges that never decrease, exactly the first
    [searchsorted_right bins v] edges are not above [v]. *)
Lemma searchsorted_right_spec (bins : list Q) (v : Q) (j : nat) (b : Q) :
  increasing false bins = true → bins !! j = Some b →
  (j < searchsorted_right bins (Some v))%nat ↔ (b <= v)%Q.
Proof.
  unfold searchsorted_right. revert j.
  induction bins as [|b0 bins IH]; intros j Hinc Hj; [done|].
  apply increasing_cons in Hinc as [Hall Hinc].
  rewrite filter_cons. destruct (decide (Qle_bool b0 v = true)) as [E|E].
  - apply Qle_bool_iff in E. destruct j as [|j]; simpl in *.
    + injection Hj as <-. split; [done|lia].
    + rewrite <- (IH j Hinc Hj). lia.
  - rewrite Qle_bool_iff in E. rewrite (filter_above_nil b0) by done.
    simpl. split; [lia|]. intros Hb. destruct j as [|j]; simpl in Hj.
    + injection Hj as <-. done.
    + apply list_elem_of_lookup_2 in Hj.
      apply (proj1 (Forall_forall _ _) Hall) in Hj. lra.
Qed.

Lemma searchsorted_right_le (bins : list Q) (v : fl) :
  (searchsorted_right bins v ≤ length bins)%nat.
Proof. destruct v as [v|]; simpl; [apply length_filter|done]. Qed.

Lemma digitize_increasing (masses : ndarray fl) (bins : list Q) :
  increasing false bins = true →
  digitize masses bins
  = Ok (NDArray (shape masses)
          ((λ v, Z.of_nat (searchsorted_right bins v)) <$> data masses)).
Proof. intros H. unfold digitize, monotonicity. by rewrite H. Qed.

(** X1. With mass bin edges that never decrease,
    [sort_masses_into_bins] issues its deprecation warning and returns a
    mask of the shape of [masses]: the index [k] of a mass [v] lies between
    0 and the number of edges, and exactly the edges before position [k] are
    not above [v], so that [edges[k-1] <= v < edges[k]]; an index 0 means
    below the first edge, the number of edges means at or above the last.  A
    mass that is [nan] gets the number of edges. *)
Theorem sort_masses_into_bins_intervals (masses : ndarray fl)
  (mass_bins : list Q) :
  increasing false mass_bins = true →
  ∃ (mask : ndarray Z) (message : string),
    sort_masses_into_bins masses mass_bins
    = ([DeprecationWarning message], Ok mask)
    ∧ shape mask = shape masses
    ∧ length (data mask) = length (data masses)
    ∧ ∀ i m, data masses !! i = Some m →
        ∃ k : nat,
          data mask !! i = Some (Z.of_nat k)
          ∧ (k ≤ length mass_bins)%nat
          ∧ match m with
            | Some v => ∀ j b, mass_bins !! j = Some b →
                               (j < k)%nat ↔ (b <= v)%Q
            | None => k = length mass_bins
            end.
Proof.
  intros Hinc. unfold sort_masses_into_bins.
  rewrite digitize_increasing by done.
  eexists _, _. split; [done|]. split; [done|].
  split; [simpl; by rewrite length_fmap|].
  intros i m Hi. exists (searchsorted_right mass_bins m).
  split; [cbn [data]; rewrite list_lookup_fmap; unfold fl in *;
          by rewrite Hi|].
  split; [apply searchsorted_right_le|].
  destruct m as [v|]; [|done].
  intros j b Hj. by apply searchsorted_right_spec.
Qed.

End Digitize.

(** The edges of the pipelines ([0, 1e14, 1e25], scaled) and three masses. *)
Lemma sort_masses_into_bins_intervals_witness :
  let masses : ndarray fl := array1 [Some 5; None; Some 20]%Q in
  let mass_bins := [0; 10; 100]%Q in
  ∃ (mask : ndarray Z) (message : string),
    sort_masses_into_bins masses mass_bins
    = ([DeprecationWarning message], Ok mask)
    ∧ shape mask = shape masses
    ∧ length (data mask) = length (data masses)
    ∧ ∀ i m, data masses !! i = Some m →
        ∃ k : nat,
          data mask !! i = Some (Z.of_nat k)
          ∧ (k ≤ length mass_bins)%nat
          ∧ match m with
            | Some v => ∀ j b, mass_bins !! j = Some b →
                               (j < k)%nat ↔ (b <= v)%Q
            | None => k = length mass_bins
            end.
Proof.
  apply (sort_masses_into_bins_intervals
           (array1 [Some 5; None; Some 20]%Q) [0; 10; 100]%Q).
  reflexivity.
Defined.

Section MaskQuantityEdges.

Context {A : Type}.

Lemma filter_ext_in {X} (P R : X → Prop) `{∀ x, Decision (P x)}
  `{∀ x, Decision (R x)} (l : list X) :
  (∀ x, x ∈ l → P x ↔ R x) → filter P l = filter R l.
Proof.
  induction l as [|x l IH]; intros Hl; [done|].
  rewrite !filter_cons.
  destruct (decide (P x)) as [HP|HP], (decide (R x)) as [HR|HR].
  - f_equal. apply IH. intros y Hy. apply Hl. by right.
  - destruct HR. apply (Hl x); [left|done].
  - destruct HP. apply (Hl x); [left|done].
  - apply IH. intros y Hy. apply Hl. by right.
Qed.

(** A condition that is shorter than the sequence looks at the items that
    it covers and at no other. *)
Lemma compress_items_take {X} (cond : list Z) (l : list X) :
  (length cond ≤ length l)%nat →
  compress_items cond l = compress_items cond (take (length cond) l).
Proof.
  revert l. induction cond as [|c cond IH]; intros l Hl; [done|].
  destruct l as [|x l]; [simpl in Hl; lia|].
  simpl in *. rewrite (IH l) by lia. done.
Qed.

(** A non-zero entry of the condition beyond the end of the sequence. *)
Lemma compress_items_beyond {X} (cond : list Z) (l : list X) (i : nat) (c : Z) :
  cond !! i = Some c → c ≠ 0%Z → (length l ≤ i)%nat →
  compress_items cond l = Raise IndexError.
Proof.
  revert l i. induction cond as [|c0 cond IH]; intros l i Hi Hc Hl; [done|].
  destruct l as [|x l].
  - simpl. destruct i as [|i]; simpl in Hi.
    + injection Hi as ->. by destruct (Z.eqb_spec c 0).
    + destruct (Z.eqb_spec c0 0); [|done].
      apply (IH [] i); [done..|simpl; lia].
  - destruct i as [|i]; [simpl in Hl; lia|]. simpl in *.
    rewrite (IH l i) by (done || lia). done.
Qed.

Lemma positions_lt (mask : list Z) (z : Z) :
  Forall (λ i, i < length mask)%nat (positions mask z).
Proof.
  apply Forall_forall. intros i Hi.
  by apply elem_of_positions, lookup_lt_Some in Hi.
Qed.

Lemma members_take {X} (l : list X) (mask : list Z) (z : Z) :
  members (take (length mask) l) mask z = members l mask z.
Proof.
  unfold members. apply omap_lookup_ext. intros i Hi.
  apply elem_of_positions, lookup_lt_Some in Hi.
  by rewrite lookup_take_lt.
Qed.

(** What [mask_quantity] computes for a one-dimensional mask that is not
    longer than [quantity]. *)
Lemma mask_quantity_rows (quantity : ndarray A) (mask : ndarray Z) (index : Z)
  (n k : nat) (inner : list nat) (compress : bool) :
  shape quantity = n :: inner → wf quantity → one_dim mask k → (k ≤ n)%nat →
  let keep := positions (data mask) index in
  let selected :=
    NDArray (length keep :: inner) (concat (row quantity <$> keep)) in
  mask_quantity quantity mask index compress
  = if compress
    then if (size_of inner =? 0)%nat then Raise ValueError
         else Ok (PlainArray selected)
    else Ok (MaskedArray selected).
Proof.
  intros Hs Hwf [Hm Hmn] Hk keep selected.
  assert (Hkeep : Forall (λ i, i < n)%nat keep).
  { eapply Forall_impl; [apply positions_lt|]. simpl. intros i ?. lia. }
  assert (Hrl : length (rows quantity) = n).
  { unfold rows. rewrite Hs. simpl. by rewrite length_fmap, length_seq. }
  assert (Hsel : compress_items
                   ((λ w, if (w =? index)%Z then 1%Z else 0%Z) <$> data mask)
                   (rows quantity)
                 = Ok (row quantity <$> keep)).
  { rewrite compress_items_take by (rewrite length_fmap; lia).
    rewrite length_fmap, compress_items_where
      by (rewrite length_take; lia).
    rewrite members_take. unfold members, rows. rewrite Hs. simpl.
    rewrite (list_fmap_alt (row quantity) keep).
    f_equal. apply list_omap_ext, Forall2_same_length_lookup.
    split; [done|]. intros i j1 j2 Hj1 Hj2.
    assert (j2 = j1) as -> by (unfold keep in Hj2; congruence).
    apply list_elem_of_lookup_2 in Hj2.
    apply (proj1 (Forall_forall _ _) Hkeep) in Hj2.
    by apply lookup_fmap_seq. }
  unfold mask_quantity, compress_axis0, ndim.
  rewrite Hs. simpl. rewrite Hm. simpl.
  change (map ?f ?l) with (f <$> l).
  rewrite Hsel. simpl. rewrite length_fmap. fold selected.
  destruct compress; simpl; [|done].
  unfold compressed, array1. simpl.
  destruct inner as [|d inner']; simpl.
  - do 3 f_equal. rewrite (length_concat_rows _ n []) by done. simpl.
    by rewrite Nat.mul_1_r.
  - unfold reshape_rows; simpl data.
    rewrite (length_concat_rows _ n (d :: inner')) by done.
    change (d * size_of inner')%nat with (size_of (d :: inner')).
    set (w := size_of (d :: inner')) in *.
    destruct (Nat.eqb_spec w 0); [done|].
    rewrite Nat.Div0.mod_mul, Nat.div_mul by done. done.
Qed.

End MaskQuantityEdges.

Section DigitizedMasks.

Context {A : Type}.

Lemma between_spec (edges : list Q) (k : nat) (v : fl) :
  between edges k v = true
  ↔ ∃ lo hi x, edges !! k = Some lo ∧ edges !! S k = Some hi ∧ v = Some x
               ∧ (lo <= x)%Q ∧ (x < hi)%Q.
Proof.
  unfold between. split.
  - destruct (edges !! k) as [lo|], (edges !! S k) as [hi|], v as [x|];
      try done.
    intros [H1 H2]%andb_true_iff. exists lo, hi, x.
    apply Qle_bool_iff in H1. apply negb_true_iff in H2.
    repeat split; [done|]. apply Qnot_le_lt. intros H.
    apply Qle_bool_iff in H. congruence.
  - intros (lo & hi & x & -> & -> & -> & H1 & H2).
    apply andb_true_iff. split; [by apply Qle_bool_iff|].
    apply negb_true_iff. destruct (Qle_bool hi x) eqn:E; [|done].
    apply Qle_bool_iff in E. by apply Qlt_not_le in H2.
Qed.

Lemma elem_of_masses_between (masses : list fl) (edges : list Q) (k i : nat) :
  i ∈ masses_between masses edges k
  ↔ ∃ lo hi x, edges !! k = Some lo ∧ edges !! S k = Some hi
               ∧ masses !! i = Some (Some x) ∧ (lo <= x)%Q ∧ (x < hi)%Q.
Proof.
  unfold masses_between. rewrite list_elem_of_filter, elem_of_seq. split.
  - intros [Hb _]. destruct (masses !! i) as [v|]; [|done]. simpl in Hb.
    apply between_spec in Hb as (lo & hi & x & ? & ? & -> & ? & ?).
    by exists lo, hi, x.
  - intros (lo & hi & x & Hlo & Hhi & Hi & H1 & H2). split.
    + unfold fl in *. rewrite Hi. simpl. apply between_spec.
      by exists lo, hi, x.
    + apply lookup_lt_Some in Hi. unfold fl in *. lia.
Qed.

(** The masses that [np.digitize] sends to the bin [k+1] are those between
    the edges [k] and [k+1]. *)
Lemma positions_digitized (masses : list fl) (edges : list Q) (k : nat) :
  increasing false edges = true → (S k < length edges)%nat →
  positions ((λ v, Z.of_nat (searchsorted_right edges v)) <$> masses)
            (Z.of_nat (S k))
  = masses_between masses edges k.
Proof.
  intros Hinc Hk. unfold positions, masses_between.
  rewrite length_fmap. apply filter_ext_in. intros i _.
  rewrite list_lookup_fmap.
  destruct (masses !! i) as [v|]; simpl; [|done].
  destruct (lookup_lt_is_Some_2 edges k) as [lo Hlo]; [lia|].
  destruct (lookup_lt_is_Some_2 edges (S k)) as [hi Hhi]; [lia|].
  rewrite between_spec. split.
  - intros Hs. assert (Hs' : searchsorted_right edges v = S k).
    { apply Nat2Z.inj. congruence. }
    destruct v as [x|]; [|simpl in Hs'; lia].
    exists lo, hi, x. repeat split; [done..| |].
    + apply (searchsorted_right_spec edges x k lo); [done..|lia].
    + apply Qnot_le_lt. intros Hle.
      apply (searchsorted_right_spec edges x (S k) hi) in Hle; [lia|done..].
  - intros (lo' & hi' & x & Hlo' & Hhi' & -> & H1 & H2).
    assert (lo' = lo) as -> by congruence.
    assert (hi' = hi) as -> by congruence.
    do 2 f_equal.
    apply (searchsorted_right_spec edges x k lo) in H1; [|done..].
    assert (¬ (S k < searchsorted_right edges (Some x))%nat); [|lia].
    intros Hlt.
    apply (searchsorted_right_spec edges x (S k) hi) in Hlt; [|done..].
    by apply Qlt_not_le in H2.
Qed.

(** X2. The halo selection of the pipelines: the masses are digitized into
    the bins of the non-decreasing [edges] and [mask_quantity] is called
    with the number [k+1] of a bin as [index].  The result holds the rows of
    [quantity] that belong to the masses [m] with
    [edges[k] <= m < edges[k+1]], in their original order, and no other
    row; a mass that is [nan] selects nothing.  [quantity] has one row per
    mass and an inner shape without a dimension of size zero. *)
Theorem mask_quantity_of_digitized (quantity : ndarray A)
  (masses : ndarray fl) (edges : list Q) (k n : nat) (inner : list nat) :
  shape quantity = n :: inner → wf quantity → one_dim masses n →
  (0 < size_of inner)%nat →
  increasing false edges = true → (S k < length edges)%nat →
  let keep := masses_between (data masses) edges k in
  ∃ mask warnings,
    sort_masses_into_bins masses edges = (warnings, Ok mask)
    ∧ mask_quantity quantity mask (Z.of_nat (S k)) true
      = Ok (PlainArray (NDArray (length keep :: inner)
                                (concat (row quantity <$> keep))))
    ∧ ∀ i, i ∈ keep
           ↔ ∃ lo hi m, edges !! k = Some lo ∧ edges !! S k = Some hi
                        ∧ data masses !! i = Some (Some m)
                        ∧ (lo <= m)%Q ∧ (m < hi)%Q.
Proof.
  intros Hs Hwf [Hm Hmn] Hinner Hinc Hk keep.
  unfold sort_masses_into_bins. rewrite digitize_increasing by done.
  eexists _, _. split; [done|]. split.
  - rewrite (mask_quantity_rows _ _ _ n n inner true); try done.
    + destruct (Nat.eqb_spec (size_of inner) 0); [lia|].
      cbn [data]. by rewrite positions_digitized.
    + split; [done|]. cbn [data]. by rewrite length_fmap.
  - intros i. apply elem_of_masses_between.
Qed.

(** X3. Binning by mass: the masses are digitized into the bins of the
    non-decreasing [edges] and [bin_quantity] is called with the number of
    bins [len(edges) - 1].  It yields one array per pair of neighbouring
    edges, in the order of the edges, and the array number [k] holds the
    entries of [quantity] that belong to the masses [m] with
    [edges[k] <= m < edges[k+1]].  Entries whose mass lies below the first
    edge, at or above the last edge, or is [nan] are in no array. *)
Theorem bin_quantity_of_digitized (quantity : ndarray A)
  (masses : ndarray fl) (edges : list Q) (n : nat) :
  one_dim quantity n → one_dim masses n →
  increasing false edges = true → (0 < length edges)%nat →
  ∃ mask warnings,
    sort_masses_into_bins masses edges = (warnings, Ok mask)
    ∧ bin_quantity quantity mask (Z.of_nat (length edges) - 1)
      = Ok ((λ k, array1 (omap (λ i, data quantity !! i)
                               (masses_between (data masses) edges k)))
            <$> seq 0 (length edges - 1)).
Proof.
  intros Hq [Hm Hmn] Hinc Hlen.
  unfold sort_masses_into_bins. rewrite digitize_increasing by done.
  eexists _, _. split; [done|].
  rewrite (bin_quantity_one_dim _ _ _ n); try done.
  - unfold bin_count. cbn [data].
    destruct (Z.eqb_spec (Z.of_nat (length edges) - 1) (-1)); [lia|].
    replace (Z.to_nat (Z.of_nat (length edges) - 1))
      with (length edges - 1)%nat by lia.
    f_equal. apply list_fmap_ext. intros j k Hj.
    apply lookup_seq in Hj as [Hjk Hlt]. simpl in Hjk. subst j.
    unfold members.
    replace (Z.of_nat k + 1)%Z with (Z.of_nat (S k)) by lia.
    rewrite positions_digitized by (done || lia). done.
  - split; [done|]. cbn [data]. by rewrite length_fmap.
  - lia.
Qed.

End DigitizedMasks.

(** Three halos with the masses 5, [nan] and 20 and the edges 0, 10, 100:
    the second bin keeps the row of the mass 20. *)
Lemma mask_quantity_of_digitized_witness :
  let quantity := NDArray [3; 2]%nat [1; 2; 3; 4; 5; 6]%Z in
  let masses : ndarray fl := array1 [Some 5; None; Some 20]%Q in
  let edges := [0; 10; 100]%Q in
  let keep := masses_between (data masses) edges 1 in
  ∃ mask warnings,
    sort_masses_into_bins masses edges = (warnings, Ok mask)
    ∧ mask_quantity quantity mask 2 true
      = Ok (PlainArray (NDArray (length keep :: [2%nat])
                                (concat (row quantity <$> keep))))
    ∧ ∀ i, i ∈ keep
           ↔ ∃ lo hi m, edges !! 1%nat = Some lo ∧ edges !! 2%nat = Some hi
                        ∧ data masses !! i = Some (Some m)
                        ∧ (lo <= m)%Q ∧ (m < hi)%Q.
Proof.
  apply (mask_quantity_of_digitized
           (NDArray [3; 2]%nat [1; 2; 3; 4; 5; 6]%Z)
           (array1 [Some 5; None; Some 20]%Q) [0; 10; 100]%Q 1 3 [2%nat]).
  - reflexivity.
  - reflexivity.
  - split; reflexivity.
  - simpl. lia.
  - reflexivity.
  - simpl. lia.
Defined.

(** The same masses and edges with a quantity of three numbers: two arrays
    are yielded. *)
Lemma bin_quantity_of_digitized_witness :
  let quantity := array1 [7; 8; 9]%Z in
  let masses : ndarray fl := array1 [Some 5; None; Some 20]%Q in
  let edges := [0; 10; 100]%Q in
  ∃ mask warnings,
    sort_masses_into_bins masses edges = (warnings, Ok mask)
    ∧ bin_quantity quantity mask (Z.of_nat (length edges) - 1)
      = Ok ((λ k, array1 (omap (λ i, data quantity !! i)
                               (masses_between (data masses) edges k)))
            <$> seq 0 (length edges - 1)).
Proof.
  apply (bin_quantity_of_digitized
           (array1 [7; 8; 9]%Z)
           (array1 [Some 5; None; Some 20]%Q) [0; 10; 100]%Q 3).
  - split; reflexivity.
  - split; reflexivity.
  - reflexivity.
  - simpl. lia.
Defined.

Section MaskQuantityShapes.

Context {A : Type}.

(** X4. [mask_quantity] accepts a one-dimensional mask that is not longer
    than [quantity]: the rows beyond the end of the mask are never selected.
    With [compress=False] it returns the selected rows as a masked array,
    for every inner shape.  With [compress=True] it returns the same rows
    and the same shape as a standard array, unless the inner shape
    [quantity.shape[1:]] has a dimension of size zero: the final [reshape]
    then raises [ValueError], also when no row is selected. *)
Theorem mask_quantity_compress_flag (quantity : ndarray A) (mask : ndarray Z)
  (index : Z) (n k : nat) (inner : list nat) :
  shape quantity = n :: inner → wf quantity → one_dim mask k → (k ≤ n)%nat →
  let keep := positions (data mask) index in
  let selected :=
    NDArray (length keep :: inner) (concat (row quantity <$> keep)) in
  Forall (λ i, i < k)%nat keep
  ∧ mask_quantity quantity mask index false = Ok (MaskedArray selected)
  ∧ mask_quantity quantity mask index true
    = if (size_of inner =? 0)%nat then Raise ValueError
      else Ok (PlainArray selected).
Proof.
  intros Hs Hwf Hm Hk keep selected. split; [|split].
  - destruct Hm as [_ <-]. apply positions_lt.
  - by rewrite (mask_quantity_rows _ _ _ n k inner false).
  - by rewrite (mask_quantity_rows _ _ _ n k inner true).
Qed.

(** X5. Masks that [mask_quantity] rejects.  A mask that is not
    one-dimensional, such as a mask of the shape of a two-dimensional
    [quantity], raises [ValueError].  A one-dimensional mask that holds
    [index] at a position beyond the last row of [quantity] raises
    [IndexError].  Both happen for either value of [compress]. *)
Theorem mask_quantity_rejects_mask (quantity : ndarray A) (mask : ndarray Z)
  (index : Z) (compress : bool) (n : nat) (inner : list nat) :
  shape quantity = n :: inner →
  (ndim mask ≠ 1%nat →
   mask_quantity quantity mask index compress = Raise ValueError)
  ∧ (ndim mask = 1%nat →
     ∀ i, (n ≤ i)%nat → data mask !! i = Some index →
          mask_quantity quantity mask index compress = Raise IndexError).
Proof.
  intros Hs. unfold mask_quantity, compress_axis0, ndim. simpl. split.
  - intros Hm. by destruct (Nat.eqb_spec (length (shape mask)) 1).
  - intros -> i Hi Hmi. rewrite Hs. simpl.
    change (map ?f ?l) with (f <$> l).
    rewrite (compress_items_beyond _ _ i 1%Z); [done| |done|].
    + rewrite list_lookup_fmap, Hmi. simpl. by rewrite Z.eqb_refl.
    + unfold rows. rewrite Hs. simpl. by rewrite length_fmap, length_seq.
Qed.

End MaskQuantityShapes.

(** Three rows of two columns and the mask [[0, 1]]: the third row is not
    looked at. *)
Lemma mask_quantity_compress_flag_witness :
  let quantity := NDArray [3; 2]%nat [1; 2; 3; 4; 5; 6]%Z in
  let mask := array1 [0; 1]%Z in
  let keep := positions (data mask) 0 in
  let selected :=
    NDArray (length keep :: [2%nat]) (concat (row quantity <$> keep)) in
  Forall (λ i, i < 2)%nat keep
  ∧ mask_quantity quantity mask 0 false = Ok (MaskedArray selected)
  ∧ mask_quantity quantity mask 0 true
    = if (size_of [2%nat] =? 0)%nat then Raise ValueError
      else Ok (PlainArray selected).
Proof.
  apply (mask_quantity_compress_flag
           (NDArray [3; 2]%nat [1; 2; 3; 4; 5; 6]%Z)
           (array1 [0; 1]%Z) 0 3 2 [2%nat]).
  - reflexivity.
  - reflexivity.
  - split; reflexivity.
  - lia.
Defined.

(** Two rows of two columns: a mask of the same shape is rejected, and so is
    the mask [[0, 1, 0]], which holds the index 0 at position 2. *)
Lemma mask_quantity_rejects_mask_witness :
  let quantity := NDArray [2; 2]%nat [1; 2; 3; 4]%Z in
  mask_quantity quantity (NDArray [2; 2]%nat [0; 1; 0; 1]%Z) 0 true
  = Raise ValueError
  ∧ mask_quantity quantity (array1 [0; 1; 0]%Z) 0 true = Raise IndexError.
Proof.
  split.
  - apply (mask_quantity_rejects_mask
             (NDArray [2; 2]%nat [1; 2; 3; 4]%Z)
             (NDArray [2; 2]%nat [0; 1; 0; 1]%Z) 0 true 2 [2%nat]).
    + reflexivity.
    + unfold ndim. simpl. lia.
  - apply (mask_quantity_rejects_mask
             (NDArray [2; 2]%nat [1; 2; 3; 4]%Z)
             (array1 [0; 1; 0]%Z) 0 true 2 [2%nat]) with (i := 2%nat).
    + reflexivity.
    + reflexivity.
    + lia.
    + reflexivity.
Defined.

Section BinQuantity.

Context {A : Type}.

Lemma filter_split {X} (P Q R : X → Prop) `{∀ x, Decision (P x)}
  `{∀ x, Decision (Q x)} `{∀ x, Decision (R x)} (l : list X) :
  (∀ x, R x ↔ P x ∨ Q x) → (∀ x, P x → Q x → False) →
  filter R l ≡ₚ filter P l ++ filter Q l.
Proof.
  intros HR Hdis. induction l as [|x l IH]; [done|].
  rewrite !filter_cons.
  destruct (decide (P x)) as [HP|HP], (decide (Q x)) as [HQ|HQ],
    (decide (R x)) as [Hr|Hr];
    try (by destruct (Hdis x));
    try (destruct Hr; apply HR; tauto);
    try (apply HR in Hr; tauto).
  - simpl. by rewrite IH.
  - rewrite IH. apply Permutation_middle.
  - done.
Qed.

Lemma concat_positions (mask : list Z) (B : nat) :
  concat ((λ k, positions mask (Z.of_nat k + 1)) <$> seq 0 B)
  ≡ₚ binned_positions mask B.
Proof.
  induction B as [|B IH].
  - simpl. unfold binned_positions. symmetry. apply Permutation_nil_r.
    induction (seq 0 (length mask)) as [|i l IHl]; [done|].
    rewrite filter_cons. destruct (decide _) as [H|H]; [|done].
    destruct (mask !! i) as [z|]; simpl in H; [|done].
    apply andb_true_iff in H as [H1 H2].
    apply Z.leb_le in H1, H2. lia.
  - rewrite seq_S, fmap_app, concat_app, IH. simpl. rewrite app_nil_r.
    symmetry. unfold binned_positions, positions.
    apply filter_split.
    + intros i. destruct (mask !! i) as [z|]; simpl;
        [|split; [done|by intros [?|?]]].
      rewrite !andb_true_iff, !Z.leb_le. split.
      * intros [H1 H2].
        destruct (decide (z = Z.of_nat B + 1)%Z) as [->|]; [by right|].
        left. lia.
      * intros [[H1 H2]|Hz]; [lia|]. injection Hz as ->. lia.
    + intros i. destruct (mask !! i) as [z|]; simpl; [|done].
      rewrite !andb_true_iff, !Z.leb_le. intros [H1 H2] Hz.
      injection Hz as ->. lia.
Qed.

Lemma omap_concat {X Y} (f : X → option Y) (ls : list (list X)) :
  omap f (concat ls) = concat ((λ l : list X, omap f l : list Y) <$> ls).
Proof.
  induction ls as [|l ls IH]; [done|]. simpl. by rewrite omap_app, IH.
Qed.

Lemma length_omap_total {X Y} (f : X → option Y) (l : list X) :
  Forall (λ x, is_Some (f x)) l → length (omap f l) = length l.
Proof.
  induction 1 as [|x l [y Hy] _ IH]; [done|]. csimpl. rewrite Hy. simpl.
  by rewrite IH.
Qed.

(** What [bin_quantity] computes for a one-dimensional mask that is not
    longer than the flattened [quantity]. *)
Lemma bin_quantity_flat (quantity : ndarray A) (bin_mask : ndarray Z)
  (n_bins : Z) (n : nat) :
  one_dim bin_mask n → (n ≤ length (data quantity))%nat →
  (n_bins = -1 → data bin_mask ≠ [])%Z →
  bin_quantity quantity bin_mask n_bins
  = Ok ((λ k, array1 (members (data quantity) (data bin_mask)
                              (Z.of_nat k + 1)))
        <$> seq 0 (bin_count (data bin_mask) n_bins)).
Proof.
  intros [Hm Hmn] Hq Hne. unfold bin_quantity.
  rewrite amax_bin_count by done. simpl.
  unfold range, bin_count.
  set (B := Z.to_nat _).
  rewrite (mapM_outcome _
             (λ z, array1 (members (data quantity) (data bin_mask) (z + 1)))).
  - f_equal. rewrite <- list_fmap_compose. done.
  - intros z _. unfold compress.
    destruct bin_mask as [sh m]; simpl in *; subst sh n.
    unfold ndim, where_eq; simpl.
    change (map ?f ?l) with (f <$> l).
    rewrite compress_items_take by (by rewrite length_fmap).
    rewrite length_fmap, compress_items_where by (rewrite length_take; lia).
    by rewrite members_take.
Qed.

(** X6. [bin_quantity] loses and repeats nothing: the arrays it yields,
    taken together, hold the entries of [quantity] at the positions whose
    mask value is the number of a bin, from 1 to the number of bins, every
    such position once.  The number of bins is [n_bins], or the largest mask
    value when [n_bins] is left at -1. *)
Theorem bin_quantity_partitions (quantity : ndarray A) (bin_mask : ndarray Z)
  (n_bins : Z) (n : nat) :
  one_dim quantity n → one_dim bin_mask n →
  (n_bins = (-1)%Z → (0 < n)%nat) →
  let B := bin_count (data bin_mask) n_bins in
  ∃ bins, bin_quantity quantity bin_mask n_bins = Ok bins
    ∧ length bins = B
    ∧ concat (data <$> bins)
      ≡ₚ omap (λ i, data quantity !! i) (binned_positions (data bin_mask) B)
    ∧ length (concat (data <$> bins))
      = length (binned_positions (data bin_mask) B).
Proof.
  intros [Hq Hqn] Hm Hne B.
  pose proof (one_dim_nonempty _ _ _ Hm Hne) as Hnil.
  eexists. split; [apply (bin_quantity_flat _ _ _ n); (done || lia)|].
  fold B.
  assert (Hcat : concat (data <$> ((λ k, array1 (members (data quantity)
                    (data bin_mask) (Z.of_nat k + 1))) <$> seq 0 B))
                 ≡ₚ omap (λ i, data quantity !! i)
                      (binned_positions (data bin_mask) B)).
  { rewrite <- list_fmap_compose. rewrite <- concat_positions.
    rewrite omap_concat, <- list_fmap_compose. done. }
  split; [by rewrite length_fmap, length_seq|]. split; [done|].
  rewrite Hcat. apply length_omap_total, Forall_forall. intros i Hi.
  apply lookup_lt_is_Some_2.
  apply list_elem_of_filter in Hi as [_ Hi]. apply elem_of_seq in Hi.
  destruct Hm as [_ Hmn]. lia.
Qed.

Lemma flat_entry (quantity : ndarray A) (w i : nat) :
  (0 < w)%nat →
  data quantity !! i
  = take w (drop (i / w * w) (data quantity)) !! (i mod w)%nat.
Proof.
  intros Hw. rewrite lookup_take_lt by (apply Nat.mod_upper_bound; lia).
  rewrite lookup_drop. f_equal.
  rewrite (Nat.div_mod_eq i w) at 1. lia.
Qed.

(** X7. [bin_quantity] does not bin along the first axis.  For a [quantity]
    of shape (N, S) with more than one dimension and a mask of length N, the
    mask position [i] selects entry [i] of the flattened array, the entry
    number [i mod size(S)] of the row [i / size(S)], and not the row [i]:
    only the first N of the [N * size(S)] entries are looked at.  Every
    array that is yielded is one-dimensional and holds one scalar per
    selected mask position. *)
Theorem bin_quantity_flattens (quantity : ndarray A) (bin_mask : ndarray Z)
  (n_bins : Z) (n : nat) (inner : list nat) :
  shape quantity = n :: inner → wf quantity → (0 < size_of inner)%nat →
  one_dim bin_mask n → (n_bins = (-1)%Z → (0 < n)%nat) →
  ∃ bins, bin_quantity quantity bin_mask n_bins = Ok bins
    ∧ ∀ k bin, bins !! k = Some bin →
        let keep := positions (data bin_mask) (Z.of_nat k + 1) in
        shape bin = [length keep]
        ∧ length (data bin) = length keep
        ∧ data bin = omap (λ i, data quantity !! i) keep
        ∧ ∀ i, i ∈ keep →
            (i < n)%nat
            ∧ data quantity !! i
              = row quantity (i / size_of inner)
                  !! (i mod size_of inner)%nat.
Proof.
  intros Hs Hwf Hinner Hm Hne.
  pose proof (one_dim_nonempty _ _ _ Hm Hne) as Hnil.
  assert (Hlen : (n ≤ length (data quantity))%nat).
  { unfold wf in Hwf. rewrite Hwf, Hs. simpl. nia. }
  eexists. split; [by apply (bin_quantity_flat _ _ _ n)|].
  intros k bin Hk keep.
  rewrite list_lookup_fmap in Hk.
  destruct (seq _ _ !! k) as [k'|] eqn:Hk'; [|done].
  apply lookup_seq in Hk' as [Hkk Hlt]. simpl in Hkk. subst k'.
  simpl in Hk. injection Hk as <-. simpl. fold keep.
  assert (Hkeep : ∀ i, i ∈ keep → (i < n)%nat).
  { intros i Hi. apply elem_of_positions, lookup_lt_Some in Hi.
    destruct Hm as [_ Hmn]. lia. }
  assert (Hall : length (members (data quantity) (data bin_mask)
                                 (Z.of_nat k + 1)) = length keep).
  { apply length_omap_total, Forall_forall. intros i Hi.
    apply lookup_lt_is_Some_2. apply Hkeep in Hi. lia. }
  split; [by rewrite Hall|]. split; [done|]. split; [done|].
  intros i Hi. split; [by apply Hkeep|].
  unfold row. rewrite Hs. simpl tail. by apply flat_entry.
Qed.

End BinQuantity.

(** Five entries with the mask values 1, 0, 2, 1, 3 and two bins: the
    entries at the positions 0, 3 and 2 are yielded. *)
Lemma bin_quantity_partitions_witness :
  let quantity := array1 [10; 20; 30; 40; 50]%Z in
  let bin_mask := array1 [1; 0; 2; 1; 3]%Z in
  let B := bin_count (data bin_mask) 2 in
  ∃ bins, bin_quantity quantity bin_mask 2 = Ok bins
    ∧ length bins = B
    ∧ concat (data <$> bins)
      ≡ₚ omap (λ i, data quantity !! i) (binned_positions (data bin_mask) B)
    ∧ length (concat (data <$> bins))
      = length (binned_positions (data bin_mask) B).
Proof.
  apply (bin_quantity_partitions
           (array1 [10; 20; 30; 40; 50]%Z) (array1 [1; 0; 2; 1; 3]%Z) 2 5).
  - split; reflexivity.
  - split; reflexivity.
  - lia.
Defined.

(** Two rows of three columns and the mask [[1, 1]]: the bin holds the
    first two entries of the first row. *)
Lemma bin_quantity_flattens_witness :
  let quantity := NDArray [2; 3]%nat [1; 2; 3; 4; 5; 6]%Z in
  let bin_mask := array1 [1; 1]%Z in
  ∃ bins, bin_quantity quantity bin_mask (-1) = Ok bins
    ∧ ∀ k bin, bins !! k = Some bin →
        let keep := positions (data bin_mask) (Z.of_nat k + 1) in
        shape bin = [length keep]
        ∧ length (data bin) = length keep
        ∧ data bin = omap (λ i, data quantity !! i) keep
        ∧ ∀ i, i ∈ keep →
            (i < 2)%nat
            ∧ data quantity !! i
              = row quantity (i / size_of [3%nat])
                  !! (i mod size_of [3%nat])%nat.
Proof.
  apply (bin_quantity_flattens
           (NDArray [2; 3]%nat [1; 2; 3; 4; 5; 6]%Z) (array1 [1; 1]%Z)
           (-1) 2 [3%nat]).
  - reflexivity.
  - reflexivity.
  - simpl. lia.
  - split; reflexivity.
  - lia.
Defined.

(* ===================================================================== *)
(** * Stacking histograms per mass bin *)
(* ===================================================================== *)

Section Stacking.

Lemma blocks_concat {X} (w : nat) (ls : list (list X)) :
  Forall (λ l, length l = w) ls →
  (λ j, take w (drop (j * w) (concat ls))) <$> seq 0 (length ls) = ls.
Proof.
  induction 1 as [|l ls Hl _ IH]; [done|].
  change (seq 0 (length (l :: ls))) with (0%nat :: seq 1 (length ls)).
  change (concat (l :: ls)) with (l ++ concat ls).
  rewrite fmap_cons. f_equal.
  - rewrite Nat.mul_0_l, drop_0. by rewrite take_app_length'.
  - rewrite <- fmap_S_seq, <- list_fmap_compose. rewrite <- IH at 2.
    apply list_fmap_ext. intros _ j _. unfold compose.
    rewrite Nat.mul_succ_l, Nat.add_comm, <- drop_drop.
    by rewrite drop_app_length'.
Qed.

Lemma rows_selected {X} (quantity : ndarray X) (n : nat) (inner : list nat)
  (keep : list nat) :
  shape quantity = n :: inner → wf quantity → Forall (λ i, i < n)%nat keep →
  rows (NDArray (length keep :: inner) (concat (row quantity <$> keep)))
  = row quantity <$> keep.
Proof.
  intros Hs Hwf Hkeep. unfold rows. simpl.
  change (map ?f ?l) with (f <$> l).
  rewrite <- (length_fmap (row quantity) keep).
  unfold row at 1. simpl.
  apply blocks_concat, Forall_fmap, Forall_forall. intros i Hi. simpl.
  apply (length_row _ n); [done..|].
  by apply (proj1 (Forall_forall _ _) Hkeep).
Qed.

Lemma columns_selected {X} (quantity : ndarray X) (n : nat)
  (inner : list nat) (keep : list nat) :
  shape quantity = n :: inner → wf quantity → Forall (λ i, i < n)%nat keep →
  columns (NDArray (length keep :: inner) (concat (row quantity <$> keep)))
  = (λ j, omap (λ i, row quantity i !! j) keep) <$> seq 0 (size_of inner).
Proof.
  intros Hs Hwf Hkeep. unfold columns, column.
  rewrite (rows_selected _ n) by done. simpl.
  apply list_fmap_ext. intros _ j _.
  clear. induction keep as [|i keep IH]; [done|]. csimpl. by rewrite IH.
Qed.

Lemma for_log {S} (l : list Z) (body : Z → S → M S) (g : Z → S → S)
  (d : Z → log_record) (s : S) (log : list log_record) :
  (∀ i s log, i ∈ l → body i s log = (Ok (g i s), log ++ [d i])) →
  for_ l body s log = (Ok (foldl (λ s i, g i s) s l), log ++ (d <$> l)).
Proof.
  revert s log. induction l as [|i l IH]; intros s log Hbody.
  - simpl. by rewrite app_nil_r.
  - simpl. unfold mbind, M_bind.
    rewrite Hbody by left.
    rewrite IH by (intros; apply Hbody; by right).
    by rewrite <- app_assoc.
Qed.

Lemma foldl_insert {X} (f : nat → X) (s : list X) (k : nat) :
  (k ≤ length s)%nat →
  foldl (λ s i, <[i := f i]> s) s (seq 0 k) = (f <$> seq 0 k) ++ drop k s.
Proof.
  induction k as [|k IH]; intros Hk; [done|].
  rewrite seq_S, foldl_app, IH by lia. simpl.
  rewrite fmap_app, <- app_assoc. simpl.
  destruct (lookup_lt_is_Some_2 s k) as [x Hx]; [lia|].
  rewrite (drop_S s x k) by done.
  rewrite insert_app_r_alt by (rewrite length_fmap, length_seq; lia).
  rewrite length_fmap, length_seq, Nat.sub_diag. done.
Qed.

Lemma foldl_insert_range {X} (f : nat → X) (s : list X) (n : Z) :
  length s = Z.to_nat n →
  foldl (λ s i, <[Z.to_nat i := f (Z.to_nat i)]> s) s (range n)
  = f <$> seq 0 (Z.to_nat n).
Proof.
  intros Hs. unfold range. change (map ?f ?l) with (f <$> l).
  rewrite foldl_fmap.
  assert (Hext : ∀ (l : list nat) (s : list X),
            foldl (λ (s : list X) i, <[Z.to_nat (Z.of_nat i)
                            := f (Z.to_nat (Z.of_nat i))]> s) s l
            = foldl (λ (s : list X) i, <[i := f i]> s) s l).
  { induction l as [|i l IH]; intros s'; simpl; [done|].
    by rewrite Nat2Z.id, IH. }
  rewrite Hext, foldl_insert by lia. rewrite <- Hs, drop_all. by rewrite app_nil_r.
Qed.

Lemma foldl_triple {X Y Z' I} (fa : X → I → X) (fb : Y → I → Y)
  (fc : Z' → I → Z') (a : X) (b : Y) (c : Z') (l : list I) :
  foldl (λ s i, let '(a, b, c) := s in (fa a i, fb b i, fc c i)) (a, b, c) l
  = (foldl fa a l, foldl fb b l, foldl fc c l).
Proof.
  revert a b c. induction l as [|i l IH]; intros a b c; [done|].
  simpl. by rewrite IH.
Qed.

(** The halos of one mass bin, as the loops of the stacking functions select
    them. *)
Lemma halo_hists_selected (histograms : ndarray fl) (mass_bin_mask : ndarray Z)
  (z : Z) (n : nat) (inner : list nat) :
  shape histograms = n :: inner → wf histograms → one_dim mass_bin_mask n →
  let halo_hists := selected_rows histograms (data mass_bin_mask) z in
  compress_axis0 (where_eq mass_bin_mask z) histograms = Ok halo_hists
  ∧ reshape (compressed halo_hists) (shape halo_hists) = Ok halo_hists
  ∧ rows halo_hists = row histograms <$> positions (data mass_bin_mask) z
  ∧ columns halo_hists
    = (λ j, omap (λ i, row histograms i !! j)
                 (positions (data mass_bin_mask) z))
      <$> seq 0 (size_of inner).
Proof.
  intros Hs Hwf [Hm Hmn] halo_hists.
  assert (Hkeep : Forall (λ i, i < n)%nat (positions (data mass_bin_mask) z)).
  { eapply Forall_impl; [apply positions_lt|]. simpl. intros i ?. lia. }
  unfold halo_hists, selected_rows. rewrite Hs. simpl tail.
  split; [|split; [|split]].
  - unfold compress_axis0, ndim. rewrite Hs. simpl. rewrite Hm. simpl.
    change (map ?f ?l) with (f <$> l).
    rewrite compress_items_where
      by (unfold rows; rewrite Hs; simpl;
          rewrite length_fmap, length_seq; lia).
    rewrite members_rows by (rewrite Hs; simpl; lia).
    simpl. by rewrite length_fmap.
  - unfold reshape, compressed, array1. cbn [data shape].
    rewrite (length_concat_rows _ n inner) by done.
    change (size_of (?a :: inner)) with (a * size_of inner)%nat.
    by rewrite Nat.eqb_refl.
  - by apply (rows_selected _ n).
  - by apply (columns_selected _ n).
Qed.

(** X8. [stack_histograms_per_mass_bin] on [N] histograms of [T] bins with
    a one-dimensional mask of length [N].  A negative [n_mass_bins] raises
    [ValueError], after the start has been logged.  Otherwise the call
    returns three arrays of the shapes (M, T), (M, T) and (M, 2, T) for
    [M = n_mass_bins]: entry [j] of row [k] is the mean, the median, and the
    16th and 84th percentile of the entries [j] of the histograms whose mask
    value is [k+1], with [nan] entries left out, and is [nan] itself when
    nothing is left, as in a mass bin without halos.  Mask values outside
    1..M are ignored.  The log grows by the start message, one debug record
    per mass bin with the number of its histograms that hold a [nan], and
    the final message. *)
Theorem stack_histograms_per_mass_bin_stacks (histograms : ndarray fl)
  (n_mass_bins : Z) (mass_bin_mask : ndarray Z) (n t : nat)
  (log : list log_record) :
  shape histograms = [n; t] → wf histograms → one_dim mass_bin_mask n →
  let m := Z.to_nat n_mass_bins in
  let mask := data mass_bin_mask in
  let start :=
    LogRecord INFO "Start post-processing of data (stacking hists)." in
  let empty_halos k :=
    length (filter (λ r, existsb isnan r = true)
                   (rows (selected_rows histograms mask (Z.of_nat k + 1)))) in
  stack_histograms_per_mass_bin histograms n_mass_bins mass_bin_mask log
  = if (n_mass_bins <? 0)%Z then (Raise ValueError, log ++ [start])
    else
      (Ok (Some
             (NDArray [m; t] (concat (stack_with nanmean histograms mask m t)),
              NDArray [m; t]
                      (concat (stack_with nanmedian histograms mask m t)),
              NDArray [m; 2; t]%nat
                (concat
                   ((λ k, ((λ j, nanpercentile (stacked histograms mask k j)
                                               16) <$> seq 0 t)
                          ++ ((λ j, nanpercentile (stacked histograms mask k j)
                                                  84) <$> seq 0 t))
                    <$> seq 0 m)))),
       log ++ [start]
           ++ ((λ k, LogRecord DEBUG
                       ("Empty halos in mass bin " +:+ pretty (Z.of_nat k)
                        +:+ ": " +:+ pretty (empty_halos k)))
               <$> seq 0 m)
           ++ [LogRecord INFO "Finished post-processing data."]).
Proof.
  intros Hs Hwf Hm m mask start empty_halos.
  unfold stack_histograms_per_mass_bin.
  rewrite Hs. destruct Hm as [Hm Hmn]. rewrite Hm.
  unfold mbind at 1 2 3, M_bind, logging_info, logging_log, mret, M_ret.
  rewrite Nat.eqb_refl. cbn [negb].
  destruct (Z.ltb_spec n_mass_bins 0) as [Hneg|Hpos]; [done|].
  unfold mbind at 1, M_bind.
  set (F1 := λ k : nat, (λ j, nanmean (stacked histograms mask k j))
                        <$> seq 0 t).
  set (F2 := λ k : nat, (λ j, nanmedian (stacked histograms mask k j))
                        <$> seq 0 t).
  set (F3 := λ k : nat,
         ((λ j, nanpercentile (stacked histograms mask k j) 16) <$> seq 0 t)
         ++ ((λ j, nanpercentile (stacked histograms mask k j) 84)
             <$> seq 0 t)).
  rewrite (for_log _ _
    (λ i '(a, b, c),
       (<[Z.to_nat i := F1 (Z.to_nat i)]> a,
        <[Z.to_nat i := F2 (Z.to_nat i)]> b,
        <[Z.to_nat i := F3 (Z.to_nat i)]> c))
    (λ i, LogRecord DEBUG
            ("Empty halos in mass bin " +:+ pretty i +:+ ": "
             +:+ pretty (empty_halos (Z.to_nat i))))).
  - cbv beta.
    rewrite (foldl_triple
               (λ a i, <[Z.to_nat i := F1 (Z.to_nat i)]> a)
               (λ b i, <[Z.to_nat i := F2 (Z.to_nat i)]> b)
               (λ c i, <[Z.to_nat i := F3 (Z.to_nat i)]> c)).
    rewrite !foldl_insert_range by (by rewrite length_replicate).
    cbn [mbind M_bind logging_info logging_log mret M_ret].
    unfold mbind, M_bind, logging_info, logging_log, mret, M_ret.
    f_equal. rewrite <- !app_assoc. do 2 f_equal.
    unfold range. change (map ?f ?l) with (f <$> l).
    rewrite <- list_fmap_compose. f_equal.
    apply list_fmap_ext. intros _ k _. unfold compose.
    by rewrite Nat2Z.id.
  - intros i [[a b] c] log' Hi.
    apply list_elem_of_fmap in Hi as (k & -> & _).
    destruct (halo_hists_selected histograms (NDArray [n] mask)
                (Z.of_nat k + 1) n [t]) as (Hc & Hr & Hrows & Hcols);
      [done|done|by split|].
    cbn [data] in Hc, Hr, Hrows, Hcols.
    unfold mbind, M_bind, lift, logging_debug, logging_log, mret, M_ret.
    replace mass_bin_mask with (NDArray [n] mask)
      by (destruct mass_bin_mask; simpl in *; by subst).
    rewrite Hc, Hr, Hcols. rewrite Nat2Z.id.
    change (size_of [t]) with (t * 1)%nat. rewrite Nat.mul_1_r.
    rewrite <- !list_fmap_compose. done.
Qed.

(** X9. [stack_2d_histograms_per_mass_bin] on [N] histograms of [X] times
    [Y] bins with a one-dimensional mask.  A mask whose length is not [N]
    makes the call log an error and return [None]; a negative [n_mass_bins]
    raises [ValueError].  Otherwise the call returns an array of the shape
    (M, X, Y) for [M = n_mass_bins] whose entry [(k, a, b)] is the mean of
    the entries [(a, b)] of the histograms whose mask value is [k+1], with
    [nan] entries left out, and [nan] when nothing is left.  The log grows
    by the start message, one debug record per mass bin, and the final
    message. *)
Theorem stack_2d_histograms_per_mass_bin_stacks (histograms : ndarray fl)
  (n_mass_bins : Z) (mass_bin_mask : ndarray Z) (n x y len_mask : nat)
  (log : list log_record) :
  shape histograms = [n; x; y] → wf histograms →
  one_dim mass_bin_mask len_mask →
  let m := Z.to_nat n_mass_bins in
  let mask := data mass_bin_mask in
  let start := LogRecord INFO "Stacking 2D histograms for every mass bin." in
  stack_2d_histograms_per_mass_bin histograms n_mass_bins mass_bin_mask log
  = if negb (len_mask =? n)%nat then
      (Ok None, log ++ [start; LogRecord ERROR (halos_message n len_mask)])
    else if (n_mass_bins <? 0)%Z then (Raise ValueError, log ++ [start])
    else
      (Ok (Some (NDArray [m; x; y]
                   (concat (stack_with nanmean histograms mask m (x * y))))),
       log ++ [start]
           ++ ((λ k, LogRecord DEBUG
                       ("Empty halos in mass bin " +:+ pretty (Z.of_nat k)
                        +:+ ": "
                        +:+ pretty (nan_count3
                                      (selected_rows histograms mask
                                                     (Z.of_nat k + 1))
                                      x y)))
               <$> seq 0 m)
           ++ [LogRecord INFO "Finished post-processing data."]).
Proof.
  intros Hs Hwf Hm m mask start.
  unfold stack_2d_histograms_per_mass_bin.
  rewrite Hs. destruct Hm as [Hm Hmn]. rewrite Hm.
  unfold mbind at 1 2 3, M_bind, logging_info, logging_log, mret, M_ret.
  destruct (Nat.eqb_spec len_mask n) as [->|Hne]; cbn [negb].
  2: { unfold mbind, M_bind, logging_error, logging_log, mret, M_ret.
       by rewrite <- app_assoc. }
  destruct (Z.ltb_spec n_mass_bins 0) as [Hneg|Hpos]; [done|].
  unfold mbind at 1, M_bind.
  set (F := λ k : nat, (λ j, nanmean (stacked histograms mask k j))
                       <$> seq 0 (x * y)).
  rewrite (for_log _ _
    (λ i (a : list (list fl)), <[Z.to_nat i := F (Z.to_nat i)]> a)
    (λ i, LogRecord DEBUG
            ("Empty halos in mass bin " +:+ pretty i +:+ ": "
             +:+ pretty (nan_count3
                           (selected_rows histograms mask
                                          (Z.of_nat (Z.to_nat i) + 1))
                           x y)))).
  - cbv beta. rewrite foldl_insert_range by (by rewrite length_replicate).
    unfold mbind, M_bind, logging_info, logging_log, mret, M_ret.
    f_equal. rewrite <- !app_assoc. do 2 f_equal.
    unfold range. change (map ?f ?l) with (f <$> l).
    rewrite <- list_fmap_compose. f_equal.
    apply list_fmap_ext. intros _ k _. unfold compose.
    by rewrite Nat2Z.id.
  - intros i a log' Hi.
    apply list_elem_of_fmap in Hi as (k & -> & _).
    destruct (halo_hists_selected histograms (NDArray [n] mask)
                (Z.of_nat k + 1) n [x; y]) as (Hc & Hr & Hrows & Hcols);
      [done|done|by split|].
    cbn [data] in Hc, Hr, Hrows, Hcols.
    unfold mbind, M_bind, lift, logging_debug, logging_log, mret, M_ret.
    replace mass_bin_mask with (NDArray [n] mask)
      by (destruct mass_bin_mask; simpl in *; by subst).
    rewrite Hc, Hr, Hcols. rewrite Nat2Z.id.
    change (size_of [x; y]) with (x * (y * 1))%nat. rewrite Nat.mul_1_r.
    rewrite <- !list_fmap_compose. done.
Qed.

End Stacking.

(** Three histograms of two temperature bins in the mass bins 1, 2, 1. *)
Lemma stack_histograms_per_mass_bin_stacks_witness :
  let histograms : ndarray fl :=
    NDArray [3; 2]%nat [Some 1; Some 2; Some 3; None; Some 5; Some 6]%Q in
  let mask := [1; 2; 1]%Z in
  let start :=
    LogRecord INFO "Start post-processing of data (stacking hists)." in
  let empty_halos k :=
    length (filter (λ r, existsb isnan r = true)
                   (rows (selected_rows histograms mask (Z.of_nat k + 1)))) in
  stack_histograms_per_mass_bin histograms 2 (array1 mask) []
  = if (2 <? 0)%Z then (Raise ValueError, [] ++ [start])
    else
      (Ok (Some
             (NDArray [2; 2]%nat
                      (concat (stack_with nanmean histograms mask 2 2)),
              NDArray [2; 2]%nat
                      (concat (stack_with nanmedian histograms mask 2 2)),
              NDArray [2; 2; 2]%nat
                (concat
                   ((λ k, ((λ j, nanpercentile (stacked histograms mask k j)
                                               16) <$> seq 0 2)
                          ++ ((λ j, nanpercentile (stacked histograms mask k j)
                                                  84) <$> seq 0 2))
                    <$> seq 0 2)))),
       [] ++ [start]
          ++ ((λ k, LogRecord DEBUG
                      ("Empty halos in mass bin " +:+ pretty (Z.of_nat k)
                       +:+ ": " +:+ pretty (empty_halos k)))
              <$> seq 0 2)
          ++ [LogRecord INFO "Finished post-processing data."]).
Proof.
  apply (stack_histograms_per_mass_bin_stacks
           (NDArray [3; 2]%nat [Some 1; Some 2; Some 3; None; Some 5; Some 6]%Q)
           2 (array1 [1; 2; 1]%Z) 3 2 []).
  - reflexivity.
  - reflexivity.
  - split; reflexivity.
Defined.

(** Two histograms of one times two bins, both in the mass bin 1. *)
Lemma stack_2d_histograms_per_mass_bin_stacks_witness :
  let histograms : ndarray fl :=
    NDArray [2; 1; 2]%nat [Some 1; None; Some 3; Some 4]%Q in
  let mask := [1; 1]%Z in
  let start := LogRecord INFO "Stacking 2D histograms for every mass bin." in
  stack_2d_histograms_per_mass_bin histograms 1 (array1 mask) []
  = if negb (2 =? 2)%nat then
      (Ok None, [] ++ [start; LogRecord ERROR (halos_message 2 2)])
    else if (1 <? 0)%Z then (Raise ValueError, [] ++ [start])
    else
      (Ok (Some (NDArray [1; 1; 2]%nat
                   (concat (stack_with nanmean histograms mask 1 (1 * 2))))),
       [] ++ [start]
          ++ ((λ k, LogRecord DEBUG
                      ("Empty halos in mass bin " +:+ pretty (Z.of_nat k)
                       +:+ ": "
                       +:+ pretty (nan_count3
                                     (selected_rows histograms mask
                                                    (Z.of_nat k + 1))
                                     1 2)))
              <$> seq 0 1)
          ++ [LogRecord INFO "Finished post-processing data."]).
Proof.
  apply (stack_2d_histograms_per_mass_bin_stacks
           (NDArray [2; 1; 2]%nat [Some 1; None; Some 3; Some 4]%Q)
           1 (array1 [1; 1]%Z) 2 1 2 2 []).
  - reflexivity.
  - reflexivity.
  - split; reflexivity.
Defined.

(* ===================================================================== *)
(** * The running average of a two-dimensional histogram *)
(* ===================================================================== *)

Section RunningAverage.

Lemma rows_lengths {X} (a : ndarray X) (n : nat) (inner : list nat) :
  shape a = n :: inner → wf a →
  length (rows a) = n ∧ Forall (λ r, length r = size_of inner) (rows a).
Proof.
  intros Hs Hwf. unfold rows. rewrite Hs. simpl. split.
  - by rewrite length_map, length_seq.
  - apply Forall_forall. intros r Hr.
    apply list_elem_of_fmap in Hr as (i & -> & Hi).
    apply elem_of_seq in Hi. apply (length_row _ n); [done..|lia].
Qed.

Lemma rows_of_concat {X} (ls : list (list X)) (inner : list nat) :
  Forall (λ l, length l = size_of inner) ls →
  rows (NDArray (length ls :: inner) (concat ls)) = ls.
Proof.
  intros Hls. unfold rows, row. simpl.
  change (map ?f ?l) with (f <$> l). by apply blocks_concat.
Qed.

Lemma column_weighted {X Y C} (g : X → C → Y) (rs : list (list X))
  (cs : list C) (nx j : nat) :
  Forall (λ r, length r = nx) rs → (j < nx)%nat →
  omap (λ r, r !! j) (zip_with (λ r c, (λ v, g v c) <$> r) rs cs)
  = zip_with g (omap (λ r, r !! j) rs) cs.
Proof.
  intros Hrs Hj. revert cs.
  induction Hrs as [|r rs Hr _ IH]; intros [|c cs]; try done.
  - by destruct (omap (λ r0 : list X, r0 !! j) (r :: rs)).
  - csimpl. rewrite list_lookup_fmap.
    destruct (lookup_lt_is_Some_2 r j) as [v Hv]; [lia|].
    rewrite Hv. simpl. by rewrite IH.
Qed.

Lemma fsum_Some (qs : list Q) : fsum (Some <$> qs) = Some (np_sum qs).
Proof.
  induction qs as [|q qs IH]; [done|].
  unfold fsum in *. csimpl. rewrite IH. done.
Qed.

Lemma weighted_sum_bounds (L U : Q) (ws cs : list Q) :
  length ws = length cs →
  Forall (λ w, 0 <= w)%Q ws → Forall (λ c, L <= c ∧ c <= U)%Q cs →
  (L * np_sum ws <= np_sum (zip_with Qmult ws cs))%Q
  ∧ (np_sum (zip_with Qmult ws cs) <= U * np_sum ws)%Q.
Proof.
  intros Hlen Hws. revert cs Hlen.
  induction Hws as [|w ws Hw _ IH]; intros [|c cs] Hlen Hcs; try done.
  - simpl. split; lra.
  - apply Forall_cons in Hcs as [[HL HU] Hcs].
    destruct (IH cs) as [IH1 IH2]; [by injection Hlen|done|].
    change (np_sum (w :: ws)) with (w + np_sum ws)%Q.
    change (np_sum (zip_with Qmult (w :: ws) (c :: cs)))
      with (w * c + np_sum (zip_with Qmult ws cs))%Q.
    split; nra.
Qed.

Lemma lookup_columns {X} (a : ndarray X) (n nx j : nat) :
  shape a = [n; nx] → (j < nx)%nat → columns a !! j = Some (column a j).
Proof.
  intros Hs Hj. unfold columns. rewrite Hs. simpl.
  change (map ?f ?l) with (f <$> l).
  apply lookup_fmap_seq. lia.
Qed.

Lemma running_average_entry (histogram : ndarray fl) (yrange : Q * Q)
  (ny nx j : nat) (ws : list Q) :
  shape histogram = [ny; nx] → wf histogram → (0 < ny)%nat → (j < nx)%nat →
  column histogram j = Some <$> ws →
  ∃ r, get_2d_histogram_running_average histogram yrange = Returns r
       ∧ shape r = [nx] ∧ length (data r) = nx
       ∧ length ws = ny
       ∧ data r !! j
         = Some (weighted_average ws (ybin_centers yrange ny)).
Proof.
  intros Hs Hwf Hny Hj Hcol.
  destruct (rows_lengths histogram ny [nx]) as [Hrl Hrs]; [done..|].
  change (size_of [nx]) with (nx * 1)%nat in Hrs. rewrite Nat.mul_1_r in Hrs.
  unfold get_2d_histogram_running_average. rewrite Hs.
  destruct (Nat.eqb_spec ny 0); [lia|].
  fold (ybin_centers yrange ny).
  set (centres := ybin_centers yrange ny).
  set (weighted := zip_with (λ r c, (λ v, fmul v (Some c)) <$> r)
                            (rows histogram) centres).
  assert (Hcl : length centres = ny).
  { unfold centres, ybin_centers. by rewrite length_fmap, length_seq. }
  assert (Hwl : length weighted = ny).
  { unfold weighted. rewrite length_zip_with. lia. }
  assert (Hws : length ws = ny).
  { rewrite <- (length_fmap Some ws), <- Hcol. unfold column.
    rewrite length_omap_total; [done|].
    eapply Forall_impl; [exact Hrs|]. simpl. intros r Hr.
    apply (lookup_lt_is_Some_2 r j). by rewrite Hr. }
  eexists. split; [done|]. cbn [shape data].
  assert (Hlen : ∀ a : ndarray fl, shape a = [ny; nx] →
                   length (fsum <$> columns a) = nx).
  { intros a Ha. unfold columns. rewrite Ha. simpl.
    by rewrite length_fmap, length_map, length_seq, Nat.mul_1_r. }
  split; [done|]. split.
  { rewrite length_zip_with, !Hlen by done. lia. }
  split; [done|].
  rewrite lookup_zip_with, !list_lookup_fmap.
  rewrite !(lookup_columns _ ny nx) by done. simpl.
  f_equal. unfold weighted_average. f_equal.
  - unfold column at 1.
    replace (rows _) with weighted.
    + unfold weighted. rewrite (column_weighted _ _ _ nx) by done.
      fold (column histogram j). rewrite Hcol.
      rewrite <- fsum_Some. f_equal.
      clear. generalize centres. induction ws as [|w ws IH]; intros [|c cs];
        csimpl; try done. by rewrite IH.
    + symmetry. rewrite <- Hwl at 1.
      apply (rows_of_concat weighted [nx]).
      apply Forall_forall. intros r Hr.
      apply elem_of_lookup_zip_with in Hr as (i & r0 & c & -> & Hr0 & _).
      rewrite length_fmap. simpl. rewrite Nat.mul_1_r.
      apply (proj1 (Forall_forall _ _) Hrs). by eapply list_elem_of_lookup_2.
  - by rewrite Hcol, fsum_Some.
Qed.

Lemma of_nat_le (i n : nat) : (i ≤ n)%nat → (of_nat i <= of_nat n)%Q.
Proof. intros H. unfold of_nat. rewrite <- Zle_Qle. lia. Qed.

Lemma ybin_centers_within (yrange : Q * Q) (ny : nat) :
  let lo := qmin (fst yrange) [snd yrange] in
  Forall (λ c, lo <= c ∧ c <= lo + Qabs (snd yrange - fst yrange))%Q
         (ybin_centers yrange ny).
Proof.
  intros lo. unfold ybin_centers. fold lo.
  set (D := Qabs (snd yrange - fst yrange)).
  assert (HD : (0 <= D)%Q) by apply Qabs_nonneg.
  apply Forall_fmap, Forall_forall. intros i Hi. simpl.
  apply elem_of_seq in Hi as [_ Hi]. simpl in Hi.
  assert (Hn : (0 < of_nat ny)%Q).
  { unfold of_nat. change 0%Q with (inject_Z 0). rewrite <- Zlt_Qlt. lia. }
  assert (Hi0 : (0 <= of_nat i)%Q).
  { unfold of_nat. change 0%Q with (inject_Z 0). rewrite <- Zle_Qle. lia. }
  assert (Hi1 : (of_nat i + 1 <= of_nat ny)%Q).
  { rewrite <- of_nat_S. apply of_nat_le. lia. }
  set (W := (D / of_nat ny)%Q).
  assert (HW : (W * of_nat ny == D)%Q).
  { unfold W. field. intros E. rewrite E in Hn. by apply Qlt_irrefl in Hn. }
  assert (HW0 : (0 <= W)%Q).
  { unfold W. apply Qle_shift_div_l; [done|]. lra. }
  split; nra.
Qed.

(** X10. The running average of a histogram with [Y > 0] bins on the y axis
    and [X] bins on the x axis has one entry per x bin.  When column [j]
    holds the non-negative numbers [ws], entry [j] is the average of the
    centres of the y bins weighted by [ws]; it lies between the two ends of
    [yrange], in whichever order they are given.  When the numbers of the
    column add up to zero, the entry is [nan]. *)
Theorem get_2d_histogram_running_average_within_yrange
  (histogram : ndarray fl) (yrange : Q * Q) (ny nx j : nat) (ws : list Q) :
  shape histogram = [ny; nx] → wf histogram → (0 < ny)%nat → (j < nx)%nat →
  column histogram j = Some <$> ws → Forall (λ w, 0 <= w)%Q ws →
  ∃ r, get_2d_histogram_running_average histogram yrange = Returns r
       ∧ shape r = [nx] ∧ length (data r) = nx
       ∧ if Qeq_bool (np_sum ws) 0 then data r !! j = Some NaN
         else ∃ v, data r !! j = Some (Some v)
                   ∧ (v == np_sum (zip_with Qmult ws (ybin_centers yrange ny))
                           / np_sum ws)%Q
                   ∧ ((fst yrange <= v ∧ v <= snd yrange)%Q
                      ∨ (snd yrange <= v ∧ v <= fst yrange)%Q).
Proof.
  intros Hs Hwf Hny Hj Hcol Hws.
  destruct (running_average_entry histogram yrange ny nx j ws)
    as (r & Hr & Hsh & Hlen & Hwl & Hrj); [done..|].
  exists r. split; [done|]. split; [done|]. split; [done|].
  unfold weighted_average, fdiv in Hrj. csimpl in Hrj.
  destruct (Qeq_bool (np_sum ws) 0) eqn:E; [done|].
  apply Qeq_bool_neq in E.
  eexists. split; [exact Hrj|]. split; [done|].
  pose proof (np_sum_nonneg ws Hws) as Hnn.
  assert (Hpos : (0 < np_sum ws)%Q).
  { apply Qnot_le_lt. intros Hle. apply E. by apply Qle_antisym. }
  destruct (weighted_sum_bounds
              (qmin (fst yrange) [snd yrange])
              (qmin (fst yrange) [snd yrange]
               + Qabs (snd yrange - fst yrange))
              ws (ybin_centers yrange ny)) as [HL HU].
  { unfold ybin_centers. by rewrite length_fmap, length_seq. }
  { done. }
  { apply ybin_centers_within. }
  set (X := np_sum (zip_with Qmult ws (ybin_centers yrange ny))) in *.
  set (S := np_sum ws) in *.
  destruct yrange as [a b]. unfold qmin in HL, HU.
  cbn [fst snd foldl] in *.
  destruct (Qle_bool a b) eqn:Hab.
  - apply Qle_bool_iff in Hab. left.
    assert (HD : (Qabs (b - a) == b - a)%Q) by (apply Qabs_pos; lra).
    set (D := Qabs (b - a)) in *.
    split; [apply Qle_shift_div_l|apply Qle_shift_div_r]; (done || nra).
  - right.
    assert (Hba : (b <= a)%Q).
    { apply Qlt_le_weak, Qnot_le_lt. intros H. apply Qle_bool_iff in H.
      congruence. }
    assert (HD : (Qabs (b - a) == - (b - a))%Q) by (apply Qabs_neg; lra).
    set (D := Qabs (b - a)) in *.
    split; [apply Qle_shift_div_l|apply Qle_shift_div_r]; (done || nra).
Qed.

End RunningAverage.

Section NormalizedRunningAverage.

Variable np_sqrt : Q → Q.

Lemma transpose_lengths {X} (rows : list (list X)) (ny : nat) :
  Forall (λ r, length r = ny) rows →
  Forall (λ c, length c = length rows) (transpose ny rows).
Proof.
  intros Hrows. unfold transpose. change (map ?f ?l) with (f <$> l).
  apply Forall_fmap, Forall_forall. intros j Hj. simpl.
  apply elem_of_seq in Hj as [_ Hj]. simpl in Hj.
  apply length_omap_total. eapply Forall_impl; [exact Hrows|].
  simpl. intros r Hr. apply (lookup_lt_is_Some_2 r j). by rewrite Hr.
Qed.

Lemma length_concat_uniform {X} (w : nat) (ls : list (list X)) :
  Forall (λ l, length l = w) ls → length (concat ls) = (length ls * w)%nat.
Proof.
  induction 1 as [|l ls Hl _ IH]; [done|].
  simpl. rewrite length_app, IH, Hl. done.
Qed.

Lemma omap_of_fmap_Some {X Y} (f : X → option Y) (l : list X) (l' : list Y) :
  f <$> l = Some <$> l' → omap f l = l'.
Proof.
  revert l'. induction l as [|x l IH]; intros [|y l'] H; try done.
  injection H as Hx Hl. csimpl. rewrite Hx. simpl. by rewrite (IH l').
Qed.

Lemma array2_rows {X} (H : list (list X)) (n w : nat) :
  length H = n → (0 < n)%nat → Forall (λ c, length c = w) H →
  shape (array2 H) = [n; w] ∧ wf (array2 H) ∧ rows (array2 H) = H.
Proof.
  intros Hn Hpos Hw. unfold array2.
  destruct H as [|c H]; [simpl in Hn; lia|].
  pose proof (Forall_inv Hw) as Hc. simpl in Hc. simpl hd. rewrite Hc, Hn.
  split; [done|]. split.
  - unfold wf. cbn [data shape].
    rewrite (length_concat_uniform w) by done. rewrite Hn. simpl. lia.
  - rewrite <- Hn. apply (rows_of_concat (c :: H) [w]).
    eapply Forall_impl; [exact Hw|]. simpl. intros r Hr. lia.
Qed.

Lemma weighted_sum_scaled (ws cs : list Q) (s : Q) :
  ¬ (s == 0)%Q →
  (np_sum (zip_with Qmult ((λ q, q / s)%Q <$> ws) cs)
   == np_sum (zip_with Qmult ws cs) / s)%Q.
Proof.
  intros Hs. revert cs. induction ws as [|w ws IH]; intros [|c cs];
    try (simpl; by field).
  change (np_sum (zip_with Qmult ((λ q, q / s)%Q <$> w :: ws) (c :: cs)))
    with (Qplus (w / s * c)%Q
            (np_sum (zip_with Qmult ((λ q, q / s)%Q <$> ws) cs))).
  change (np_sum (zip_with Qmult (w :: ws) (c :: cs)))
    with (w * c + np_sum (zip_with Qmult ws cs))%Q.
  rewrite IH. by field.
Qed.

(** The running average of a histogram whose columns have been divided by
    the numbers [norms]. *)
Lemma running_average_of_normalized (hist : list (list fl)) (norms : list fl)
  (yrange : Q * Q) (ny i : nat) (ws : list Q) (s : Q) :
  Forall (λ r, length r = ny) hist → (0 < ny)%nat →
  hist !! i = Some (Some <$> ws) → norms !! i = Some (Some s) →
  ¬ (s == 0)%Q → ¬ (np_sum ws == 0)%Q →
  let H := transpose ny (zip_with (λ r s, (λ v, fdiv v s) <$> r) hist norms) in
  ∃ r v, get_2d_histogram_running_average (array2 H) yrange = Returns r
         ∧ data r !! i = Some (Some v)
         ∧ (v == np_sum (zip_with Qmult ws (ybin_centers yrange ny))
                 / np_sum ws)%Q.
Proof.
  intros Hrows Hny Hi Hn Hs HS H.
  set (hist' := zip_with (λ r s, (λ v, fdiv v s) <$> r) hist norms) in *.
  assert (Hrows' : Forall (λ r, length r = ny) hist')
    by by apply Forall_length_normalized.
  assert (Hi' : hist' !! i = Some (Some <$> ((λ q, q / s)%Q <$> ws))).
  { unfold hist'. etrans; [apply (lookup_normalized _ _ _ _ _ Hi Hn)|].
    f_equal. rewrite <- !list_fmap_compose.
    apply list_fmap_ext. intros _ q _. unfold compose.
    by rewrite fdiv_number. }
  destruct (array2_rows H ny (length hist')) as (Hsh & Hwf & Hr).
  { apply length_transpose. }
  { done. }
  { by apply transpose_lengths. }
  assert (Hcol : column (array2 H) i = Some <$> ((λ q, q / s)%Q <$> ws)).
  { unfold column. rewrite Hr. apply omap_of_fmap_Some.
    by apply (transpose_column hist' ny). }
  destruct (running_average_entry (array2 H) yrange ny (length hist') i
              ((λ q, q / s)%Q <$> ws))
    as (r & Hret & _ & _ & _ & Hri); [done|done|done| |done|].
  { by apply lookup_lt_Some in Hi'. }
  unfold weighted_average, fdiv in Hri. csimpl in Hri.
  assert (Hsum : (np_sum ((λ q, q / s)%Q <$> ws) == np_sum ws / s)%Q)
    by by apply np_sum_div.
  destruct (Qeq_bool (np_sum ((λ q, q / s)%Q <$> ws)) 0) eqn:E.
  { apply Qeq_bool_iff in E. rewrite Hsum in E. destruct HS.
    apply (Qmult_inj_r _ _ (/ s)).
    - intros Hinv. apply Hs. rewrite <- (Qinv_involutive s), Hinv. done.
    - rewrite Qmult_0_l. exact E. }
  exists r. eexists. split; [done|]. split; [exact Hri|].
  rewrite Hsum, weighted_sum_scaled by done. by field.
Qed.

Lemma binned_statistic_2d_yedges x y values stat b range hist xedges yedges :
  binned_statistic_2d np_sqrt x y values stat b range
  = Ok (hist, xedges, yedges) →
  (2 ≤ length yedges)%nat.
Proof.
  unfold binned_statistic_2d. intros H.
  destruct (known_stats stat); [|done].
  destruct (negb _); [done|]. destruct (_ && _); [done|].
  destruct (split_bins b) as [[xbins ybins]|]; [|done]. simpl in H.
  destruct (axis_edges xbins _ _) as [xe|]; [|done]. simpl in H.
  destruct (axis_edges ybins _ _) as [ye|] eqn:Hye; [|done]. simpl in H.
  injection H as <- <- <-. by apply axis_edges_length in Hye.
Qed.

Lemma np_sum_zero (ws : list Q) :
  Forall (λ w, 0 <= w ∧ w <= 0)%Q ws → (np_sum ws == 0)%Q.
Proof.
  induction 1 as [|w ws [H1 H2] _ IH]; [done|].
  change (np_sum (w :: ws)) with (w + np_sum ws)%Q. lra.
Qed.

(** X11. The running average does not see the column normalisation.  When
    [column_normalized_hist2d], with the normalisation "density" or
    "range", returns the histogram [H], and column [i] of the histogram
    that scipy computed holds the non-negative numbers [ws] that do not add
    up to zero, then entry [i] of the running average of [H] is the average
    of the centres of the y bins weighted by [ws] themselves, for every
    [yrange].  When scipy raises, so does [column_normalized_hist2d]. *)
Theorem running_average_of_column_normalized_hist2d (x y : ndarray Q)
  (bins : bins2d) (values : option (list Q))
  (ranges : option ((Q * Q) * (Q * Q))) (statistic normalization : string)
  (log : list log_record) (yrange : Q * Q) :
  shape x = shape y →
  normalization = "density" ∨ normalization = "range" →
  match unnormalized_hist2d np_sqrt x y bins values ranges statistic with
  | Raise e =>
      column_normalized_hist2d np_sqrt x y bins values ranges statistic
                               normalization log
      = (Raise e, log)
  | Ok (hist, xedges, yedges) =>
      ∃ H : list (list fl),
        column_normalized_hist2d np_sqrt x y bins values ranges statistic
                                 normalization log
        = (Ok (Some (H, xedges, yedges)), log)
        ∧ ∀ (i : nat) (ws : list Q),
            hist !! i = Some (Some <$> ws) →
            Forall (λ w, 0 <= w)%Q ws → ¬ (np_sum ws == 0)%Q →
            ∃ r v,
              get_2d_histogram_running_average (array2 H) yrange = Returns r
              ∧ data r !! i = Some (Some v)
              ∧ (v == np_sum (zip_with Qmult ws
                                (ybin_centers yrange (length yedges - 1)))
                      / np_sum ws)%Q
  end.
Proof.
  intros Hshape Hnorm.
  unfold column_normalized_hist2d, unnormalized_hist2d.
  rewrite bool_decide_eq_true_2 by done. cbn [negb].
  destruct (negb (ndim x =? 1)%nat); [done|].
  destruct (binned_statistic_2d _ _ _ _ _ _ _) as [[[hist xedges] yedges]|e]
    eqn:Hcall; [|done].
  pose proof (binned_statistic_2d_yedges _ _ _ _ _ _ _ _ _ Hcall) as Hye.
  apply binned_statistic_2d_shape in Hcall as [Hnx Hny].
  unfold lift, mbind, M_bind, mret, M_ret.
  destruct Hnorm as [-> | ->].
  - change ("density" =? "density")%string with true. cbv beta iota.
    eexists. split; [done|].
    intros i ws Hi Hws HS.
    apply running_average_of_normalized with (s := np_sum ws);
      [done|lia|done| |done|done].
    rewrite list_lookup_fmap. unfold fl in *. rewrite Hi. simpl.
    by rewrite fsum_Some.
  - change ("range" =? "density")%string with false.
    change ("range" =? "range")%string with true. cbv beta iota.
    set (g := λ r : list fl,
           match r with [] => NaN | v :: l => foldl fmax v l end).
    rewrite (mapM_outcome _ g).
    2: { intros r Hr. apply (proj1 (Forall_forall _ _) Hny) in Hr.
         destruct r; [simpl in Hr; lia|done]. }
    eexists. split; [done|].
    intros i ws Hi Hws HS.
    destruct ws as [|h0 hs]; [by destruct HS|].
    destruct (qmax_spec h0 hs) as [Hin Hall].
    assert (Hg : g (Some <$> h0 :: hs) = Some (qmax h0 hs)).
    { pose proof (fmaximum_numbers h0 hs) as E.
      change (fmaximum (Some <$> h0 :: hs))
        with (Ok (g (Some <$> h0 :: hs))) in E.
      by injection E. }
    apply running_average_of_normalized with (s := qmax h0 hs);
      [done|lia|done| | |done].
    + rewrite list_lookup_fmap. unfold fl in *. rewrite Hi.
      exact (f_equal Some Hg).
    + intros Hm. apply HS, np_sum_zero.
      apply Forall_forall. intros w Hw.
      apply (proj1 (Forall_forall _ _) Hws) in Hw as Hw0.
      apply (proj1 (Forall_forall _ _) Hall) in Hw as Hw1.
      split; [done|]. lra.
Qed.

End NormalizedRunningAverage.

(** Two y bins over the range from 0 to 4 and three x bins; the weights 1
    and 3 of the second column give the running average 2.5. *)
Lemma get_2d_histogram_running_average_within_yrange_witness :
  let histogram : ndarray fl :=
    NDArray [2; 3]%nat [Some 2; Some 1; Some 0; Some 2; Some 3; Some 0]%Q in
  let yrange := (0, 4)%Q in
  let ws := [1; 3]%Q in
  ∃ r, get_2d_histogram_running_average histogram yrange = Returns r
       ∧ shape r = [3%nat] ∧ length (data r) = 3%nat
       ∧ if Qeq_bool (np_sum ws) 0 then data r !! 1%nat = Some NaN
         else ∃ v, data r !! 1%nat = Some (Some v)
                   ∧ (v == np_sum (zip_with Qmult ws (ybin_centers yrange 2))
                           / np_sum ws)%Q
                   ∧ ((fst yrange <= v ∧ v <= snd yrange)%Q
                      ∨ (snd yrange <= v ∧ v <= fst yrange)%Q).
Proof.
  apply (get_2d_histogram_running_average_within_yrange
           (NDArray [2; 3]%nat
                    [Some 2; Some 1; Some 0; Some 2; Some 3; Some 0]%Q)
           (0, 4)%Q 2 3 1 [1; 3]%Q).
  - reflexivity.
  - reflexivity.
  - lia.
  - lia.
  - reflexivity.
  - repeat constructor; discriminate.
Defined.

(** Five points in two times two bins with the weights 1, 2, 1, 1, 3. *)
Lemma running_average_of_column_normalized_hist2d_witness :
  let x := array1 [0; 0; 1; 1; 1]%Q in
  let y := array1 [0; 1; 0; 1; 1]%Q in
  let values := Some [1; 2; 1; 1; 3]%Q in
  match unnormalized_hist2d (λ v, v) x y (BinsN 2) values None "sum" with
  | Raise e =>
      column_normalized_hist2d (λ v, v) x y (BinsN 2) values None "sum"
                               "range" []
      = (Raise e, [])
  | Ok (hist, xedges, yedges) =>
      ∃ H : list (list fl),
        column_normalized_hist2d (λ v, v) x y (BinsN 2) values None "sum"
                                 "range" []
        = (Ok (Some (H, xedges, yedges)), [])
        ∧ ∀ (i : nat) (ws : list Q),
            hist !! i = Some (Some <$> ws) →
            Forall (λ w, 0 <= w)%Q ws → ¬ (np_sum ws == 0)%Q →
            ∃ r v,
              get_2d_histogram_running_average (array2 H) (0, 1)%Q
              = Returns r
              ∧ data r !! i = Some (Some v)
              ∧ (v == np_sum (zip_with Qmult ws
                                (ybin_centers (0, 1)%Q (length yedges - 1)))
                      / np_sum ws)%Q
  end.
Proof.
  apply (running_average_of_column_normalized_hist2d (λ v, v)
           (array1 [0; 0; 1; 1; 1]%Q) (array1 [0; 1; 0; 1; 1]%Q)
           (BinsN 2) (Some [1; 2; 1; 1; 3]%Q) None "sum" "range" []
           (0, 1)%Q).
  - reflexivity.
  - right. reflexivity.
Defined.

(* ===================================================================== *)
(** * The shells of the radial profile *)
(* ===================================================================== *)

Section RadialShells.

Lemma length_removelast {X} (l : list X) :
  length (removelast l) = (length l - 1)%nat.
Proof.
  induction l as [|x [|y l] IH]; [done..|].
  change (removelast (x :: y :: l)) with (x :: removelast (y :: l)).
  simpl in *. rewrite IH. lia.
Qed.

Lemma divide1_mismatch (a b : list Q) :
  length a ≠ length b → length a ≠ 1%nat → length b ≠ 1%nat →
  divide1 a b = Raise ValueError.
Proof.
  intros Hab Ha Hb. unfold divide1.
  destruct (Nat.eqb_spec (length a) (length b)); [done|].
  destruct a as [|x [|x' a]]; [|done|].
  - destruct b as [|y [|y' b]]; done.
  - destruct b as [|y [|y' b]]; done.
Qed.

(** X12. [volume_normalized_radial_profile] divides the weighted sums of the
    radial bins by shells between consecutive radial distances, so the call
    depends on how many distances there are.  With [N] distances and [B]
    radial bins it returns, when [B = N - 1], the sum of bin [i] divided by
    [4/3 pi (d[i+1]^3 - d[i]^3)] for the distances [d] in the order given,
    together with the edges of [np.histogram]; when [B] differs from
    [N - 1] and neither is 1, it raises [ValueError].  An exception of
    [np.histogram] is passed on. *)
Theorem volume_normalized_radial_profile_shells
  (radial_distances weight : list Q) (b : bins) :
  match histogram radial_distances b weight with
  | Raise e =>
      volume_normalized_radial_profile radial_distances weight b = Raise e
  | Ok (hist, edges) =>
      let N := length radial_distances in
      let B := length hist in
      B = (length edges - 1)%nat
      ∧ (B = (N - 1)%nat →
         volume_normalized_radial_profile radial_distances weight b
         = Ok (zip_with
                 (λ w '(l, r),
                    fdiv (Some w)
                         (Some (4 / 3 * pi * (cube r - cube l))%Q))
                 hist
                 (zip (removelast radial_distances) (tail radial_distances)),
               edges))
      ∧ (B ≠ (N - 1)%nat → B ≠ 1%nat → N ≠ 2%nat →
         volume_normalized_radial_profile radial_distances weight b
         = Raise ValueError)
  end.
Proof.
  unfold volume_normalized_radial_profile.
  destruct (histogram radial_distances b weight) as [[hist edges]|e] eqn:Hh;
    [|done].
  cbn [mbind outcome_bind].
  assert (HB : length hist = (length edges - 1)%nat).
  { unfold histogram in Hh. destruct (negb _); [done|].
    destruct (match b with BinsInt _ => _ | BinsEdges _ => _ end)
      as [edges'|]; [|done].
    cbn [mbind outcome_bind] in Hh. injection Hh as <- <-.
    by rewrite length_map, length_seq. }
  set (shells := (λ c, 4 / 3 * pi * c)%Q
                 <$> zip_with (λ r l, cube r - cube l)%Q
                       (tail radial_distances) (removelast radial_distances)).
  assert (Hs : length shells = (length radial_distances - 1)%nat).
  { unfold shells.
    rewrite length_fmap, length_zip_with, length_removelast.
    destruct radial_distances; simpl; lia. }
  split; [done|]. split.
  - intros HN. unfold divide1. rewrite Hs, HN, Nat.eqb_refl.
    cbn [mbind outcome_bind]. do 2 f_equal.
    unfold shells. clear.
    generalize (tail radial_distances) (removelast radial_distances).
    intros t r. revert t r.
    induction hist as [|w hist IH]; intros [|x t] [|y r]; try done.
    simpl. by rewrite IH.
  - intros HN HB1 HN2. rewrite divide1_mismatch; [done|lia..].
Qed.

End RadialShells.

(* ===================================================================== *)
(** * The percentiles around the median *)
(* ===================================================================== *)

Section Percentiles.

Lemma elem_of_insert_sorted (v x : Q) (l : list Q) :
  x ∈ insert_sorted v l → x = v ∨ x ∈ l.
Proof.
  induction l as [|w l IH]; simpl.
  - intros H. apply list_elem_of_singleton in H. by left.
  - destruct (Qle_bool v w).
    + intros H. apply elem_of_cons in H as [->|H]; [by left|by right].
    + intros H. apply elem_of_cons in H as [->|H]; [right; left|].
      destruct (IH H) as [->|H']; [by left|right; by right].
Qed.

Lemma insert_sorted_sorted (v : Q) (l : list Q) :
  StronglySorted Qle l → StronglySorted Qle (insert_sorted v l).
Proof.
  induction 1 as [|w l Hl IH Hw]; simpl.
  - repeat constructor.
  - destruct (Qle_bool v w) eqn:E.
    + apply Qle_bool_iff in E. constructor; [by constructor|].
      constructor; [done|]. eapply Forall_impl; [exact Hw|].
      simpl. intros x Hx. by apply (Qle_trans _ w).
    + constructor; [done|]. apply Forall_forall. intros x Hx.
      apply elem_of_insert_sorted in Hx as [->|Hx].
      * apply Qlt_le_weak, Qnot_le_lt. intros H.
        apply Qle_bool_iff in H. congruence.
      * by apply (proj1 (Forall_forall _ _) Hw).
Qed.

Lemma sort_sorted (l : list Q) : StronglySorted Qle (sort l).
Proof.
  induction l as [|v l IH]; [constructor|]. by apply insert_sorted_sorted.
Qed.

Lemma sorted_lookup_le (s : list Q) (i j : nat) (a b : Q) :
  StronglySorted Qle s → (i ≤ j)%nat →
  s !! i = Some a → s !! j = Some b → (a <= b)%Q.
Proof.
  intros Hs. revert i j. induction Hs as [|x s Hs IH Hx]; intros i j Hij Hi Hj;
    [done|].
  destruct i as [|i], j as [|j]; simpl in *; try lia.
  - injection Hi as <-. injection Hj as <-. apply Qle_refl.
  - injection Hi as <-. apply list_elem_of_lookup_2 in Hj.
    by apply (proj1 (Forall_forall _ _) Hx).
  - apply (IH i j); (done || lia).
Qed.

Lemma percentile_spec (l : list Q) (q p : Q) :
  (0 <= q)%Q → percentile l q = Some p →
  let s := sort l in
  let n := length s in
  ∃ (lo : nat) (a b g : Q),
    s !! lo = Some a ∧ s !! Nat.min (lo + 1) (n - 1) = Some b
    ∧ p = (a + (b - a) * g)%Q ∧ (0 <= g)%Q ∧ (g < 1)%Q
    ∧ (of_nat lo + g == of_nat (n - 1) * (q / 100))%Q ∧ (a <= b)%Q.
Proof.
  intros Hq Hp s n. unfold percentile in Hp. fold s in Hp. fold n in Hp.
  destruct n as [|n'] eqn:Hn; [done|]. rewrite <- Hn in *.
  set (v := (of_nat (n - 1) * (q / 100))%Q) in *.
  set (lo := Z.to_nat (Qfloor v)) in *.
  destruct (s !! lo) as [a|] eqn:Ha; [|done].
  destruct (s !! Nat.min (lo + 1) (n - 1)) as [b|] eqn:Hb; [|done].
  cbn [mbind option_bind] in Hp. injection Hp as <-.
  assert (Hv : (0 <= v)%Q).
  { unfold v. apply Qmult_le_0_compat.
    - unfold of_nat. change 0%Q with (inject_Z 0). rewrite <- Zle_Qle. lia.
    - apply Qle_shift_div_l; [done|]. lra. }
  assert (Hf : (0 ≤ Qfloor v)%Z).
  { change 0%Z with (Qfloor 0). by apply Qfloor_resp_le. }
  assert (Hlo : of_nat lo = inject_Z (Qfloor v)).
  { unfold of_nat, lo. by rewrite Z2Nat.id. }
  exists lo, a, b, (v - of_nat lo)%Q.
  split; [done|]. split; [done|]. split; [done|].
  pose proof (Qfloor_le v) as H1. pose proof (Qlt_floor v) as H2.
  rewrite inject_Z_plus in H2. change (inject_Z 1) with 1%Q in H2.
  rewrite Hlo.
  split; [lra|]. split; [lra|]. split; [lra|].
  apply (sorted_lookup_le s lo (Nat.min (lo + 1) (n - 1)));
    [apply sort_sorted| |done..].
  apply lookup_lt_Some in Ha. fold n in Ha. lia.
Qed.

Lemma median_spec (l : list Q) (m : Q) :
  median l = Some m →
  let s := sort l in
  let n := length s in
  n ≠ 0%nat
  ∧ ∃ a b, s !! ((n - 1) / 2)%nat = Some a ∧ s !! (n / 2)%nat = Some b
           ∧ (a <= b)%Q ∧ (m == (a + b) / 2)%Q.
Proof.
  intros Hm s n. unfold median in Hm. fold s in Hm. fold n in Hm.
  destruct n as [|n'] eqn:Hn; [done|]. rewrite <- Hn in *.
  split; [lia|].
  destruct (Nat.even n) eqn:He.
  - apply Nat.even_spec in He as [k Hk].
    replace (n / 2 - 1)%nat with ((n - 1) / 2)%nat in Hm
      by (rewrite Hk; destruct k; [lia|];
          replace (2 * S k - 1)%nat with (1 + k * 2)%nat by lia;
          rewrite Nat.div_add by lia;
          replace (2 * S k)%nat with (S k * 2)%nat by lia;
          rewrite Nat.div_mul by lia; simpl; lia).
    destruct (s !! ((n - 1) / 2)%nat) as [a|] eqn:Ha; [|done].
    destruct (s !! (n / 2)%nat) as [b|] eqn:Hb; [|done].
    cbn [mbind option_bind] in Hm. injection Hm as <-.
    exists a, b. split; [done|]. split; [done|]. split; [|done].
    apply (sorted_lookup_le s ((n - 1) / 2) (n / 2));
      [apply sort_sorted| |done..].
    apply Nat.Div0.div_le_mono. lia.
  - assert (Ho : Nat.odd n = true) by (by rewrite <- Nat.negb_even, He).
    apply Nat.odd_spec in Ho as [k Hk].
    replace ((n - 1) / 2)%nat with (n / 2)%nat
      by (rewrite Hk; replace (2 * k + 1 - 1)%nat with (k * 2)%nat by lia;
          replace (2 * k + 1)%nat with (1 + k * 2)%nat by lia;
          rewrite Nat.div_add, Nat.div_mul by lia; simpl; lia).
    exists m, m. rewrite Hm. repeat split; [apply Qle_refl|by field].
Qed.

Lemma floor_index (lo n : nat) (g : Q) (q : Z) :
  (0 <= g)%Q → (g < 1)%Q →
  (of_nat lo + g == of_nat (n - 1) * (inject_Z q / 100))%Q →
  (Z.of_nat lo * 100 ≤ Z.of_nat (n - 1) * q)%Z
  ∧ (Z.of_nat (n - 1) * q < (Z.of_nat lo + 1) * 100)%Z.
Proof.
  intros Hg0 Hg1 Hv. unfold of_nat in Hv.
  set (L := inject_Z (Z.of_nat lo)) in *.
  set (N := inject_Z (Z.of_nat (n - 1))) in *.
  split.
  - rewrite Zle_Qle, !inject_Z_mult. fold L N.
    change (inject_Z 100) with 100%Q.
    set (iq := inject_Z q) in *.
    assert (E : (L * 100 + g * 100 == N * iq)%Q)
      by (transitivity ((L + g) * 100)%Q; [ring|rewrite Hv; field]).
    lra.
  - rewrite Zlt_Qlt, !inject_Z_mult, inject_Z_plus. fold L N.
    change (inject_Z 100) with 100%Q. change (inject_Z 1) with 1%Q.
    set (iq := inject_Z q) in *.
    assert (E : (L * 100 + g * 100 == N * iq)%Q)
      by (transitivity ((L + g) * 100)%Q; [ring|rewrite Hv; field]).
    lra.
Qed.

(** The 16th percentile is not above the median and the 84th percentile is
    not below it. *)
Lemma percentiles_bracket_median (l : list Q) (m p16 p84 : Q) :
  median l = Some m → percentile l 16 = Some p16 →
  percentile l 84 = Some p84 →
  (p16 <= m)%Q ∧ (m <= p84)%Q.
Proof.
  intros Hm H16 H84.
  apply median_spec in Hm as (Hn & a' & b' & Ha' & Hb' & Hab' & Hm).
  apply percentile_spec in H16
    as (lo & a & b & g & Ha & Hb & -> & Hg0 & Hg1 & Hv & Hab); [|lra].
  apply percentile_spec in H84
    as (lo2 & a2 & b2 & g2 & Ha2 & Hb2 & -> & Hg20 & Hg21 & Hv2 & Hab2);
    [|lra].
  pose proof (sort_sorted l) as Hs.
  set (s := sort l) in *. set (n := length s) in *.
  destruct (floor_index lo n g 16 Hg0 Hg1 Hv) as [Hi1 Hi2].
  destruct (floor_index lo2 n g2 84 Hg20 Hg21 Hv2) as [Hj1 Hj2].
  destruct (decide (n = 2%nat)) as [Hn2|Hn2].
  - assert (lo = 0%nat) as -> by lia. assert (lo2 = 0%nat) as -> by lia.
    rewrite Hn2 in *. simpl in Hb, Hb2, Ha', Hb'.
    assert (a' = a) as -> by congruence.
    assert (a2 = a) as -> by congruence.
    assert (b' = b) as -> by congruence.
    assert (b2 = b) as -> by congruence.
    change (of_nat (2 - 1)) with 1%Q in Hv, Hv2.
    change (of_nat 0) with 0%Q in Hv, Hv2.
    unfold Qdiv in Hv, Hv2, Hm.
    change (/ 100)%Q with (1 # 100) in Hv, Hv2.
    change (/ 2)%Q with (1 # 2) in Hm.
    split; nra.
  - assert (Hb_le : (b <= a')%Q).
    { apply (sorted_lookup_le s (Nat.min (lo + 1) (n - 1)) ((n - 1) / 2));
        [done| |done..].
      apply Nat.div_le_lower_bound; [lia|].
      clearbody n. clear -Hn Hn2 Hi1. lia. }
    assert (Ha_ge : (b' <= a2)%Q).
    { apply (sorted_lookup_le s (n / 2) lo2); [done| |done..].
      apply Nat.lt_succ_r, Nat.Div0.div_lt_upper_bound.
      clearbody n. clear -Hn Hn2 Hj2. lia. }
    assert (a + (b - a) * g <= b)%Q by nra.
    assert (a2 <= a2 + (b2 - a2) * g2)%Q by nra.
    unfold Qdiv in Hm. change (/ 2)%Q with (1 # 2) in Hm.
    split; lra.
Qed.

(** X13. The error bars of [get_binned_medians] bracket the median.  In
    every bin that holds at least one number, the 16th percentile is not
    above the median and the 84th percentile is not below it, so that the
    absolute values taken by the code change no sign: row 1 holds
    [median - p16], row 2 holds [p84 - median], and the median minus the
    lower error and plus the upper error are the two percentiles. *)
Theorem get_binned_medians_errors_bracket (values : ndarray fl)
  (bin_mask : ndarray Z) (n_bins : Z) (n : nat) (log : list log_record) :
  one_dim values n → one_dim bin_mask n →
  (n_bins = (-1)%Z → (0 < n)%nat) →
  ∃ r : ndarray fl,
    get_binned_medians values bin_mask n_bins log = (Ok (Some r), log)
    ∧ ∀ b, (b < bin_count (data bin_mask) n_bins)%nat →
        let binned :=
          members (data values) (data bin_mask) (Z.of_nat b + 1) in
        finite binned ≠ [] →
        ∃ m p16 p84 lerr uerr : Q,
          nanmedian binned = Some m
          ∧ nanpercentile binned 16 = Some p16
          ∧ nanpercentile binned 84 = Some p84
          ∧ getitem2 r 0 b = Some (Some m)
          ∧ getitem2 r 1 b = Some (Some lerr)
          ∧ getitem2 r 2 b = Some (Some uerr)
          ∧ (p16 <= m)%Q ∧ (m <= p84)%Q
          ∧ (lerr == m - p16)%Q ∧ (uerr == p84 - m)%Q.
Proof.
  intros Hv Hm Hne.
  eexists. split.
  { apply (get_binned_medians_value _ _ _ n); [done..|].
    by apply (one_dim_nonempty _ n). }
  intros b Hb binned Hfin.
  match goal with
  | |- context [getitem2 (array2 [?r0; ?r1; ?r2]) _ _] =>
      destruct (getitem2_three_rows r0 r1 r2 b
                  (bin_count (data bin_mask) n_bins)) as (-> & -> & ->);
      [by rewrite length_fmap, length_seq..|done|]
  end.
  rewrite !lookup_fmap_seq by done. fold binned.
  unfold nanmedian, nanpercentile.
  destruct (median_is_number (finite binned) Hfin) as [m Hmed].
  destruct (percentile_is_number (finite binned) 16 Hfin) as [p16 H16];
    [done..|].
  destruct (percentile_is_number (finite binned) 84 Hfin) as [p84 H84];
    [done..|].
  destruct (percentiles_bracket_median _ _ _ _ Hmed H16 H84) as [Hlo Hhi].
  rewrite Hmed, H16, H84.
  exists m, p16, p84, (Qabs (m - p16)), (Qabs (m - p84)).
  repeat (split; [done|]). split.
  - apply Qabs_pos. lra.
  - rewrite Qabs_neg by lra. ring.
Qed.

End Percentiles.

(** Five values in the bins 1, 2, 1, 1, 2. *)
Lemma get_binned_medians_errors_bracket_witness :
  let values : ndarray fl := array1 [Some 1; Some 10; Some 4; None; Some 30]%Q in
  let bin_mask := array1 [1; 2; 1; 1; 2]%Z in
  ∃ r : ndarray fl,
    get_binned_medians values bin_mask (-1) [] = (Ok (Some r), [])
    ∧ ∀ b, (b < bin_count (data bin_mask) (-1))%nat →
        let binned :=
          members (data values) (data bin_mask) (Z.of_nat b + 1) in
        finite binned ≠ [] →
        ∃ m p16 p84 lerr uerr : Q,
          nanmedian binned = Some m
          ∧ nanpercentile binned 16 = Some p16
          ∧ nanpercentile binned 84 = Some p84
          ∧ getitem2 r 0 b = Some (Some m)
          ∧ getitem2 r 1 b = Some (Some lerr)
          ∧ getitem2 r 2 b = Some (Some uerr)
          ∧ (p16 <= m)%Q ∧ (m <= p84)%Q
          ∧ (lerr == m - p16)%Q ∧ (uerr == p84 - m)%Q.
Proof.
  apply (get_binned_medians_errors_bracket
           (array1 [Some 1; Some 10; Some 4; None; Some 30]%Q)
           (array1 [1; 2; 1; 1; 2]%Z) (-1) 5 []).
  - split; reflexivity.
  - split; reflexivity.
  - lia.
Defined.

(* ===================================================================== *)
(** * Columns without data, and unsupported normalisations *)
(* ===================================================================== *)

Section NormalizationEdges.

Variable np_sqrt : Q → Q.

Lemma elem_le_np_sum (ws : list Q) (w : Q) :
  Forall (λ v, 0 <= v)%Q ws → w ∈ ws → (w <= np_sum ws)%Q.
Proof.
  induction 1 as [|v ws Hv Hws IH]; intros Hw; [by apply elem_of_nil in Hw|].
  change (np_sum (v :: ws)) with (v + np_sum ws)%Q.
  pose proof (np_sum_nonneg ws Hws).
  apply elem_of_cons in Hw as [->|Hw]; [lra|].
  specialize (IH Hw). lra.
Qed.

Lemma fdiv_by_zero (v : fl) (s : Q) : (s == 0)%Q → fdiv v (Some s) = NaN.
Proof.
  intros Hs. unfold fdiv. destruct v as [q|]; [|done]. csimpl.
  apply Qeq_bool_iff in Hs. by rewrite Hs.
Qed.

(** X14. An x bin without data becomes a column of [nan].  When
    [column_normalized_hist2d], with the normalisation "density" or
    "range", returns the histogram [H], and column [i] of the histogram
    that scipy computed holds non-negative numbers that add up to zero,
    then every entry of column [i] of [H] is [nan]: the column is divided
    by its sum, or by its maximum, which is zero. *)
Theorem column_normalized_hist2d_empty_column (x y : ndarray Q)
  (bins : bins2d) (values : option (list Q))
  (ranges : option ((Q * Q) * (Q * Q))) (statistic normalization : string)
  (log : list log_record) :
  shape x = shape y →
  normalization = "density" ∨ normalization = "range" →
  match unnormalized_hist2d np_sqrt x y bins values ranges statistic with
  | Raise e =>
      column_normalized_hist2d np_sqrt x y bins values ranges statistic
                               normalization log
      = (Raise e, log)
  | Ok (hist, xedges, yedges) =>
      ∃ H : list (list fl),
        column_normalized_hist2d np_sqrt x y bins values ranges statistic
                                 normalization log
        = (Ok (Some (H, xedges, yedges)), log)
        ∧ length H = (length yedges - 1)%nat
        ∧ ∀ (i : nat) (ws : list Q),
            hist !! i = Some (Some <$> ws) →
            Forall (λ w, 0 <= w)%Q ws → (np_sum ws == 0)%Q →
            length ws = (length yedges - 1)%nat
            ∧ column_of H i = (λ _, Some NaN) <$> ws
  end.
Proof.
  intros Hshape Hnorm.
  unfold column_normalized_hist2d, unnormalized_hist2d.
  rewrite bool_decide_eq_true_2 by done. cbn [negb].
  destruct (negb (ndim x =? 1)%nat); [done|].
  destruct (binned_statistic_2d _ _ _ _ _ _ _) as [[[hist xedges] yedges]|e]
    eqn:Hcall; [|done].
  pose proof (binned_statistic_2d_yedges _ _ _ _ _ _ _ _ _ _ Hcall) as Hye.
  apply binned_statistic_2d_shape in Hcall as [Hnx Hny].
  unfold lift, mbind, M_bind, mret, M_ret.
  assert (Hcol : ∀ (norms : list fl) i ws s,
            hist !! i = Some (Some <$> ws) → norms !! i = Some (Some s) →
            (s == 0)%Q →
            length ws = (length yedges - 1)%nat
            ∧ column_of
                (transpose (length yedges - 1)
                   (zip_with (λ r s, (λ v, fdiv v s) <$> r) hist norms)) i
              = (λ _, Some NaN) <$> ws).
  { intros norms i ws s Hi Hn Hs. split.
    - apply (proj1 (Forall_lookup _ _) Hny) in Hi.
      by rewrite length_fmap in Hi.
    - unfold column_of.
      erewrite transpose_column;
        [|by apply Forall_length_normalized
         |by apply lookup_normalized].
      rewrite <- !list_fmap_compose.
      apply list_fmap_ext. intros _ q _. unfold compose.
      by rewrite fdiv_by_zero. }
  destruct Hnorm as [-> | ->].
  - change ("density" =? "density")%string with true. cbv beta iota.
    eexists. split; [done|]. split; [apply length_transpose|].
    intros i ws Hi Hws HS.
    apply (Hcol _ i ws (np_sum ws)); [done| |done].
    rewrite list_lookup_fmap. unfold fl in *. rewrite Hi. simpl.
    by rewrite fsum_Some.
  - change ("range" =? "density")%string with false.
    change ("range" =? "range")%string with true. cbv beta iota.
    set (g := λ r : list fl,
           match r with [] => NaN | v :: l => foldl fmax v l end).
    rewrite (mapM_outcome _ g).
    2: { intros r Hr. apply (proj1 (Forall_forall _ _) Hny) in Hr.
         destruct r; [simpl in Hr; lia|done]. }
    eexists. split; [done|]. split; [apply length_transpose|].
    intros i ws Hi Hws HS.
    destruct ws as [|h0 hs].
    { apply (proj1 (Forall_lookup _ _) Hny) in Hi. simpl in Hi. lia. }
    destruct (qmax_spec h0 hs) as [Hin Hall].
    assert (Hg : g (Some <$> h0 :: hs) = Some (qmax h0 hs)).
    { pose proof (fmaximum_numbers h0 hs) as E.
      change (fmaximum (Some <$> h0 :: hs))
        with (Ok (g (Some <$> h0 :: hs))) in E.
      by injection E. }
    apply (Hcol _ i (h0 :: hs) (qmax h0 hs)); [done| |].
    + rewrite list_lookup_fmap. unfold fl in *. rewrite Hi.
      exact (f_equal Some Hg).
    + apply Qle_antisym.
      * rewrite <- HS. by apply elem_le_np_sum.
      * by apply (proj1 (Forall_forall _ _) Hws).
Qed.

End NormalizationEdges.

(** Four points, none of them in the second of three x bins. *)
Lemma column_normalized_hist2d_empty_column_witness :
  let x := array1 [0; 0; 3; 3]%Q in
  let y := array1 [0; 1; 0; 1]%Q in
  match unnormalized_hist2d (λ v, v) x y (BinsNxNy 3 2) None None "sum" with
  | Raise e =>
      column_normalized_hist2d (λ v, v) x y (BinsNxNy 3 2) None None "sum"
                               "density" []
      = (Raise e, [])
  | Ok (hist, xedges, yedges) =>
      ∃ H : list (list fl),
        column_normalized_hist2d (λ v, v) x y (BinsNxNy 3 2) None None "sum"
                                 "density" []
        = (Ok (Some (H, xedges, yedges)), [])
        ∧ length H = (length yedges - 1)%nat
        ∧ ∀ (i : nat) (ws : list Q),
            hist !! i = Some (Some <$> ws) →
            Forall (λ w, 0 <= w)%Q ws → (np_sum ws == 0)%Q →
            length ws = (length yedges - 1)%nat
            ∧ column_of H i = (λ _, Some NaN) <$> ws
  end.
Proof.
  apply (column_normalized_hist2d_empty_column (λ v, v)
           (array1 [0; 0; 3; 3]%Q) (array1 [0; 1; 0; 1]%Q)
           (BinsNxNy 3 2) None None "sum" "density" []).
  - reflexivity.
  - left. reflexivity.
Defined.

(* ===================================================================== *)
(** * The overflow bin *)
(* ===================================================================== *)

Section Overflow.

Context {A : Type}.

Lemma foldl_max_is (z M : Z) (l : list Z) :
  Forall (λ w, w ≤ M)%Z (z :: l) → M ∈ z :: l → foldl Z.max z l = M.
Proof.
  revert z. induction l as [|w l IH]; intros z Hall HM.
  - apply list_elem_of_singleton in HM. by subst.
  - simpl. apply Forall_cons in Hall as [Hz Hall].
    apply Forall_cons in Hall as [Hw Hall].
    apply IH.
    + constructor; [lia|done].
    + apply elem_of_cons in HM as [->|HM].
      * rewrite Z.max_l by lia. left.
      * apply elem_of_cons in HM as [->|HM].
        -- rewrite Z.max_r by lia. left.
        -- by right.
Qed.

Lemma overflows_spec (edges : list Q) (v : fl) :
  increasing false edges = true → (0 < length edges)%nat →
  searchsorted_right edges v = length edges ↔ overflows edges v = true.
Proof.
  intros Hinc Hlen. unfold overflows.
  destruct v as [x|]; [|done].
  rewrite last_lookup.
  destruct (lookup_lt_is_Some_2 edges (pred (length edges))) as [e He];
    [lia|].
  rewrite He, Qle_bool_iff.
  rewrite <- (searchsorted_right_spec edges x _ e Hinc He).
  pose proof (searchsorted_right_le edges (Some x)). lia.
Qed.

(** X15. With [n_bins] left at -1, the masses that [np.digitize] could not
    place form a bin of their own.  When the masses are digitized with
    non-decreasing [edges] and at least one mass is [nan] or not below the
    last edge, [bin_quantity] yields [len(edges)] arrays instead of
    [len(edges) - 1], and the last of them holds the entries of [quantity]
    whose mass is [nan] or not below the last edge. *)
Theorem bin_quantity_overflow_bin (quantity : ndarray A)
  (masses : ndarray fl) (edges : list Q) (n i : nat) (m : fl) :
  one_dim quantity n → one_dim masses n →
  increasing false edges = true → (0 < length edges)%nat →
  data masses !! i = Some m → overflows edges m = true →
  ∃ mask warnings bins last,
    sort_masses_into_bins masses edges = (warnings, Ok mask)
    ∧ bin_quantity quantity mask (-1) = Ok bins
    ∧ length bins = length edges
    ∧ bins !! (length edges - 1)%nat = Some last
    ∧ data last
      = omap (λ i, data quantity !! i)
             (filter (λ i, from_option (overflows edges) false
                                       (data masses !! i) = true)
                     (seq 0 n)).
Proof.
  intros Hq [Hm Hmn] Hinc Hlen Hi Hover.
  unfold sort_masses_into_bins. rewrite digitize_increasing by done.
  set (mask := (λ v, Z.of_nat (searchsorted_right edges v)) <$> data masses).
  assert (Hmask : one_dim (NDArray (shape masses) mask) n).
  { split; [done|]. unfold mask. cbn [data]. by rewrite length_fmap. }
  assert (Hne : mask ≠ []).
  { unfold mask. intros E. apply (f_equal length) in E.
    rewrite length_fmap in E. apply lookup_lt_Some in Hi.
    unfold fl in *. simpl in E. lia. }
  assert (HB : bin_count mask (-1) = length edges).
  { unfold bin_count. simpl.
    destruct mask as [|z l] eqn:E; [done|].
    rewrite (foldl_max_is z (Z.of_nat (length edges))); [lia| |].
    - rewrite <- E. unfold mask. apply Forall_fmap, Forall_forall.
      intros v _. simpl. pose proof (searchsorted_right_le edges v). lia.
    - rewrite <- E. unfold mask. apply list_elem_of_fmap.
      exists m. split; [|by eapply list_elem_of_lookup_2].
      f_equal. symmetry. by apply overflows_spec. }
  eexists _, _, _, _. split; [done|]. split.
  { apply (bin_quantity_one_dim _ _ _ n); [done..|]. by intros _. }
  cbn [data]. rewrite HB. split; [by rewrite length_fmap, length_seq|].
  split; [apply lookup_fmap_seq; lia|].
  cbn [data array1]. unfold members. f_equal.
  replace (Z.of_nat (length edges - 1) + 1)%Z
    with (Z.of_nat (length edges)) by lia.
  unfold positions, mask. rewrite length_fmap, Hmn.
  apply filter_ext_in. intros j _. rewrite list_lookup_fmap.
  unfold fl in *.
  destruct (data masses !! j) as [v|]; simpl; [|done].
  rewrite <- overflows_spec by done. split.
  - intros E. apply Nat2Z.inj. congruence.
  - intros ->. done.
Qed.

End Overflow.

(** The masses 5, [nan] and 200 with the edges 0, 10, 100: the third array
    holds the entries of the second and the third mass. *)
Lemma bin_quantity_overflow_bin_witness :
  let quantity := array1 [7; 8; 9]%Z in
  let masses : ndarray fl := array1 [Some 5; None; Some 200]%Q in
  let edges := [0; 10; 100]%Q in
  ∃ mask warnings bins last,
    sort_masses_into_bins masses edges = (warnings, Ok mask)
    ∧ bin_quantity quantity mask (-1) = Ok bins
    ∧ length bins = length edges
    ∧ bins !! (length edges - 1)%nat = Some last
    ∧ data last
      = omap (λ i, data quantity !! i)
             (filter (λ i, from_option (overflows edges) false
                                       (data masses !! i) = true)
                     (seq 0 3)).
Proof.
  apply (bin_quantity_overflow_bin
           (array1 [7; 8; 9]%Z) (array1 [Some 5; None; Some 200]%Q)
           [0; 10; 100]%Q 3 1 None).
  - split; reflexivity.
  - split; reflexivity.
  - reflexivity.
  - simpl. lia.
  - reflexivity.
  - reflexivity.
Defined.
